(** * x-stitch: the pattern generators of [src/utils/patternGenerator.js]

    A shallow embedding of the five grid generators
    ([generateConcentricSquares], [generateStripes],
    [generateIsometricCubes], [generateConcentricCircles],
    [generateConcentricPolygons]) and of the dispatch of [App.jsx], and the
    properties the specification states about them.  Line numbers are those
    of the source listing, in which the module starts at line 22.

    The file goes on to the code around the generators (the count of the
    stitches, the yarn calculator, the color effect and the handlers of
    [App.jsx], the canvas, the palettes and the control panel) and to
    properties of that code, which are numbered X1, X2, ...

    Numbers.  A JavaScript number is modelled as an extended real:
    a real number, one of the two infinities, or NaN.  Arithmetic is exact:
    the operations and the functions of [Math] neither round nor overflow,
    and there is a single zero.  The constant [Math.PI] is the double it is
    in the source, 884279719003555 / 2^48, which is not the real number pi.
    The special values follow the IEEE rules the source relies on: a
    division by zero gives an infinity or NaN, [x % 0] is NaN, NaN
    propagates and compares false with everything.

    Magnitudes.  In the source a quotient of finite doubles can overflow to
    an infinity, (24.5 + 1e-10) / 1e-320 for one, and a level computed from
    it is NaN.  The properties C5, C6, X9, X12 and X27, which rest on the
    distances of a valid configuration being finite, are stated for
    parameters of moderate magnitude (between 1e-6 and 1e6), for which the
    doubles of the source stay finite as well.

    Calls.  Every argument is passed (the default values of the parameters
    are not modelled); [colors] is an array of strings, [layerThickness] is
    [null] or a number, every other argument is a number.  The one exception
    the generators can raise is the RangeError of [Array(n)]. *)

From Stdlib Require Import Reals Lra Lia ZArith List String Bool.
Import ListNotations.
Local Open Scope R_scope.

(** ** Numbers *)

Inductive number : Type :=
| NaN
| NegInf
| Fin (r : R)
| PosInf.

Definition Rlt_b (a b : R) : bool := if Rlt_dec a b then true else false.
Definition Req_b (a b : R) : bool := if Req_dec_T a b then true else false.

Definition of_nat (n : nat) : number := Fin (INR n).
Definition of_Z (z : Z) : number := Fin (IZR z).

Definition neg (a : number) : number :=
  match a with
  | NaN => NaN
  | NegInf => PosInf
  | Fin x => Fin (- x)
  | PosInf => NegInf
  end.

Definition add (a b : number) : number :=
  match a, b with
  | NaN, _ | _, NaN => NaN
  | Fin x, Fin y => Fin (x + y)
  | PosInf, NegInf | NegInf, PosInf => NaN
  | PosInf, _ | _, PosInf => PosInf
  | NegInf, _ | _, NegInf => NegInf
  end.

Definition sub (a b : number) : number := add a (neg b).

(** An infinity of sign [pos] multiplied by the finite [x]. *)
Definition scale_inf (pos : bool) (x : R) : number :=
  if Req_b x 0 then NaN
  else if Bool.eqb pos (Rlt_b 0 x) then PosInf else NegInf.

Definition mul (a b : number) : number :=
  match a, b with
  | NaN, _ | _, NaN => NaN
  | Fin x, Fin y => Fin (x * y)
  | PosInf, Fin x | Fin x, PosInf => scale_inf true x
  | NegInf, Fin x | Fin x, NegInf => scale_inf false x
  | PosInf, PosInf | NegInf, NegInf => PosInf
  | PosInf, NegInf | NegInf, PosInf => NegInf
  end.

(** [a / b]; a zero divisor is the positive zero. *)
Definition div (a b : number) : number :=
  match a, b with
  | NaN, _ | _, NaN => NaN
  | Fin x, Fin y =>
      if Req_b y 0 then
        if Req_b x 0 then NaN else if Rlt_b 0 x then PosInf else NegInf
      else Fin (x / y)
  | Fin _, (PosInf | NegInf) => Fin 0
  | PosInf, Fin y => if Rlt_b y 0 then NegInf else PosInf
  | NegInf, Fin y => if Rlt_b y 0 then PosInf else NegInf
  | _, _ => NaN
  end.

(** Truncation towards zero, and the remainder [a % b], which takes the sign
    of the dividend. *)
Definition Rtrunc (r : R) : Z := if Rlt_b r 0 then Zceil r else Zfloor r.

Definition Rrem (x y : R) : R := x - y * IZR (Rtrunc (x / y)).

Definition rem (a b : number) : number :=
  match a, b with
  | Fin x, Fin y => if Req_b y 0 then NaN else Fin (Rrem x y)
  | Fin x, (PosInf | NegInf) => Fin x
  | _, _ => NaN
  end.

Definition lt (a b : number) : bool :=
  match a, b with
  | NaN, _ | _, NaN => false
  | Fin x, Fin y => Rlt_b x y
  | _, NegInf => false
  | NegInf, _ => true
  | PosInf, _ => false
  | Fin _, PosInf => true
  end.

Definition gt (a b : number) : bool := lt b a.

Definition ge (a b : number) : bool :=
  match a, b with
  | NaN, _ | _, NaN => false
  | _, _ => negb (lt a b)
  end.

(** Truthiness of a number, [a || b], and truthiness of a value that is
    either [null] or a number. *)
Definition truthy (a : number) : bool :=
  match a with
  | NaN => false
  | Fin x => negb (Req_b x 0)
  | _ => true
  end.

Definition or_else (a b : number) : number := if truthy a then a else b.


Declare Scope js_scope.
Delimit Scope js_scope with js.
Bind Scope js_scope with number.
Infix "+" := add : js_scope.
Infix "-" := sub : js_scope.
Infix "*" := mul : js_scope.
Infix "/" := div : js_scope.
Infix "%%" := rem (at level 40, left associativity) : js_scope.
Notation "- a" := (neg a) : js_scope.
Infix "<" := lt : js_scope.
Infix ">" := gt : js_scope.
Infix ">=" := ge : js_scope.
Infix "||" := or_else : js_scope.

(** The value of [Math.PI], 3.141592653589793: the double nearest to pi. *)
Definition double_PI : R := 884279719003555 / 2 ^ 48.

(** The functions of the [Math] object. *)
Module Math.

Definition PI : number := Fin double_PI.

Definition abs (a : number) : number :=
  match a with
  | NaN => NaN
  | Fin x => Fin (Rabs x)
  | _ => PosInf
  end.

Definition max (a b : number) : number :=
  match a, b with
  | NaN, _ | _, NaN => NaN
  | _, _ => if lt a b then b else a
  end.

Definition min (a b : number) : number :=
  match a, b with
  | NaN, _ | _, NaN => NaN
  | _, _ => if lt b a then b else a
  end.

(** [Math.max(a, b, c)] *)
Definition max3 (a b c : number) : number := max (max a b) c.

Definition floor (a : number) : number :=
  match a with
  | Fin x => Fin (IZR (Zfloor x))
  | _ => a
  end.

Definition ceil (a : number) : number :=
  match a with
  | Fin x => Fin (IZR (Zceil x))
  | _ => a
  end.

(** [Math.round] rounds halves up. *)
Definition round (a : number) : number :=
  match a with
  | Fin x => Fin (IZR (Zfloor (x + / 2)))
  | _ => a
  end.

Definition sqrt (a : number) : number :=
  match a with
  | Fin x => if Rlt_b x 0 then NaN else Fin (R_sqrt.sqrt x)
  | PosInf => PosInf
  | _ => NaN
  end.

Definition cos (a : number) : number :=
  match a with
  | Fin x => Fin (Rtrigo_def.cos x)
  | _ => NaN
  end.

Definition sin (a : number) : number :=
  match a with
  | Fin x => Fin (Rtrigo_def.sin x)
  | _ => NaN
  end.

(** The angle of the point [(x, y)], in (-PI, PI]. *)
Definition Ratan2 (y x : R) : R :=
  if Rlt_b 0 x then atan (y / x)
  else if Rlt_b x 0 then
         if Rlt_b y 0 then atan (y / x) - Rtrigo1.PI
         else atan (y / x) + Rtrigo1.PI
       else if Rlt_b 0 y then Rtrigo1.PI / 2
            else if Rlt_b y 0 then - (Rtrigo1.PI / 2) else 0.

Definition atan2 (y x : number) : number :=
  match y, x with
  | NaN, _ | _, NaN => NaN
  | Fin b, Fin a => Fin (Ratan2 b a)
  | Fin _, PosInf => Fin 0
  | Fin b, NegInf => Fin (if Rlt_b b 0 then - Rtrigo1.PI else Rtrigo1.PI)
  | PosInf, Fin _ => Fin (Rtrigo1.PI / 2)
  | NegInf, Fin _ => Fin (- (Rtrigo1.PI / 2))
  | PosInf, PosInf => Fin (Rtrigo1.PI / 4)
  | PosInf, NegInf => Fin (3 * Rtrigo1.PI / 4)
  | NegInf, PosInf => Fin (- (Rtrigo1.PI / 4))
  | NegInf, NegInf => Fin (- (3 * Rtrigo1.PI / 4))
  end.

End Math.

(** The literal [1e-10]. *)
Definition eps : number := Fin (/ 10 ^ 10).

(** ** Arrays, exceptions *)

Inductive error : Type :=
| RangeError.   (* "Invalid array length" *)

Inductive result (A : Type) : Type :=
| Ok (a : A)
| Throw (e : error).
Arguments Ok {A} a.
Arguments Throw {A} e.

Definition bind {A B} (r : result A) (k : A -> result B) : result B :=
  match r with
  | Ok a => k a
  | Throw e => Throw e
  end.

Notation "x <- r ;; k" := (bind r (fun x => k))
  (at level 61, r at next level, right associativity).

(** [Array(n)]: [n] has to be an integer in [0, 2^32 - 1]. *)
Definition array_length (n : number) : result nat :=
  match n with
  | Fin r =>
      if Req_b (IZR (Zfloor r)) r && (0 <=? Zfloor r)%Z && (Zfloor r <? 2 ^ 32)%Z
      then Ok (Z.to_nat (Zfloor r))
      else Throw RangeError
  | _ => Throw RangeError
  end.

(** [a[i]]: [undefined] unless [i] is an index of [a]. *)
Definition index {A} (a : list A) (i : number) : option A :=
  match i with
  | Fin r =>
      if Req_b (IZR (Zfloor r)) r && (0 <=? Zfloor r)%Z
      then nth_error a (Z.to_nat (Zfloor r))
      else None
  | _ => None
  end.

Definition length_of {A} (a : list A) : number := of_nat (List.length a).

(** [a[i] = v] for [i] inside the array (the generators never write outside). *)
Fixpoint update {A} (i : nat) (f : A -> A) (a : list A) : list A :=
  match a, i with
  | [], _ => []
  | v :: a', O => f v :: a'
  | v :: a', S i' => v :: update i' f a'
  end.

(** [for (let i = 0; i < n; i++) body] over a state [S]. *)
Definition for_range {S} (n : nat) (body : nat -> S -> S) (s : S) : S :=
  fold_left (fun s i => body i s) (seq 0 n) s.

(** ** Grids *)

Record Cell : Type := { color : option string; level : number }.

(** A grid under construction holds [null] ([None]) where no cell was
    written yet. *)
Definition Grid : Type := list (list (option Cell)).

(** [Array(height).fill(null).map(() => Array(width).fill(null))], with the
    two loop bounds.  [Array(width)] is only evaluated when there is a row. *)
Definition new_grid (height width : number) : result (nat * nat * Grid) :=
  h <- array_length height ;;
  match h with
  | O => Ok (O, O, [])
  | S _ =>
      w <- array_length width ;;
      Ok (h, w, repeat (repeat None w) h)
  end.

(** [grid[y][x] = c] *)
Definition set_cell (y x : nat) (c : Cell) (g : Grid) : Grid :=
  update y (update x (fun _ => Some c)) g.

(** The two nested loops of every generator. *)
Definition fill (h w : nat) (cell_at : nat -> nat -> Cell) (g : Grid) : Grid :=
  for_range h (fun y g =>
    for_range w (fun x g => set_cell y x (cell_at x y) g) g) g.

(** The returned object; a property a generator does not set is [None]. *)
Module Pattern.
Record t : Type := {
  grid : Grid;
  width : number;
  height : number;
  colors : list string;
  numSquares : option number;
  numLayers : option number;
  numSides : option number;
  stripeWidth : option number;
  cubeSize : option number;
  ratioX : option number;
  ratioY : option number;
  layerThickness : option (option number);
  tilt : option number;
  offsetX : number;
  offsetY : number
}.
End Pattern.

(** ** The generators *)

Local Open Scope js_scope.

Definition corners (width height : number) : list (number * number) :=
  [ (Fin 0, Fin 0);
    (width - Fin 1, Fin 0);
    (Fin 0, height - Fin 1);
    (width - Fin 1, height - Fin 1) ].

(** Lines 81-90, repeated verbatim in the circles and polygons generators:
    the level of a cell at [distance]. *)
Definition thickness_level (layerThickness distance : number) : number :=
  Math.floor ((distance + layerThickness / Fin 2) / layerThickness).

Definition count_level (maxDistance numLayers distance : number) : number :=
  let level := Math.floor ((distance / (maxDistance || Fin 1)) * numLayers) in
  Math.min level (numLayers - Fin 1).

Definition level_of (layerThickness : option number)
  (maxDistance numLayers distance : number) : number :=
  match layerThickness with
  | Some t =>
      if truthy t then thickness_level t distance
      else count_level maxDistance numLayers distance
  | None => count_level maxDistance numLayers distance
  end.

(** Lines 104-106, repeated in the circles and polygons generators: the
    number of layers that is returned. *)
Definition actual_layers (layerThickness : option number)
  (maxDistance numLayers : number) : number :=
  match layerThickness with
  | Some t =>
      if truthy t
      then Math.max (Fin 1) (Math.ceil ((maxDistance + t / Fin 2) / t))
      else numLayers
  | None => numLayers
  end.

(** The object written into the grid: [{ color: colors[i], level: i }]. *)
Definition cell_of (colors : list string) (i : number) : Cell :=
  {| color := index colors i; level := i |}.

(** *** generateConcentricSquares *)

Section Squares.
Variables (width height numSquares : number) (colors : list string)
  (ratioX ratioY : number) (layerThickness : option number)
  (tilt offsetX offsetY : number).

Let centerX := (width - Fin 1) / Fin 2 + offsetX.
Let centerY := (height - Fin 1) / Fin 2 + offsetY.
Let tiltRad := (tilt * Math.PI) / Fin 180.
Let cosTilt := Math.cos tiltRad.
Let sinTilt := Math.sin tiltRad.

(** The distance of the point [(x, y)], lines 72-78 (and 60-64). *)
Definition squares_distance (x y : number) : number :=
  let dx := x - centerX in
  let dy := y - centerY in
  let rx := (Math.abs (dx * cosTilt + dy * sinTilt) + eps) / ratioX in
  let ry := (Math.abs (- dx * sinTilt + dy * cosTilt) + eps) / ratioY in
  Math.max rx ry.

(** The loop over the four corners, lines 58-66. *)
Definition squares_maxDistance : number :=
  fold_left (fun maxDistance corner =>
    let dx := fst corner - centerX in
    let dy := snd corner - centerY in
    let rx := (Math.abs (dx * cosTilt + dy * sinTilt) + eps) / ratioX in
    let ry := (Math.abs (- dx * sinTilt + dy * cosTilt) + eps) / ratioY in
    Math.max3 maxDistance rx ry)
    (corners width height) (Fin 0).

(** The body of the two loops, lines 71-99. *)
Definition squares_cell (x y : nat) : Cell :=
  let distance := squares_distance (of_nat x) (of_nat y) in
  let level := level_of layerThickness squares_maxDistance numSquares distance in
  let colorIndex := level %% length_of colors in
  cell_of colors colorIndex.

Definition generateConcentricSquares : result Pattern.t :=
  g <- new_grid height width ;;
  let '(h, w, grid0) := g in
  let grid := fill h w squares_cell grid0 in
  let actualNumSquares := actual_layers layerThickness squares_maxDistance numSquares in
  Ok {| Pattern.grid := grid;
        Pattern.width := width;
        Pattern.height := height;
        Pattern.numSquares := Some actualNumSquares;
        Pattern.numLayers := None;
        Pattern.numSides := None;
        Pattern.stripeWidth := None;
        Pattern.cubeSize := None;
        Pattern.colors := colors;
        Pattern.ratioX := Some ratioX;
        Pattern.ratioY := Some ratioY;
        Pattern.layerThickness := Some layerThickness;
        Pattern.tilt := Some tilt;
        Pattern.offsetX := offsetX;
        Pattern.offsetY := offsetY |}.
End Squares.

(** *** generateStripes *)

Section Stripes.
Variables (width height stripeWidth : number) (colors : list string)
  (tilt offsetX offsetY : number).

Let centerX := (width - Fin 1) / Fin 2 + offsetX.
Let centerY := (height - Fin 1) / Fin 2 + offsetY.
Let tiltRad := (tilt * Math.PI) / Fin 180.
Let cosTilt := Math.cos tiltRad.
Let sinTilt := Math.sin tiltRad.

(** Lines 169-176: the index of the stripe the point lies in. *)
Definition stripes_pos (x y : number) : number :=
  let dx := x - centerX in
  let dy := y - centerY in
  let rx := dx * cosTilt + dy * sinTilt + eps in
  Math.floor (rx / stripeWidth).

Definition stripes_cell (x y : nat) : Cell :=
  let stripePos := stripes_pos (of_nat x) (of_nat y) in
  let stripeIndex :=
    ((stripePos %% length_of colors) + length_of colors) %% length_of colors in
  cell_of colors stripeIndex.

Definition generateStripes : result Pattern.t :=
  g <- new_grid height width ;;
  let '(h, w, grid0) := g in
  let grid := fill h w stripes_cell grid0 in
  Ok {| Pattern.grid := grid;
        Pattern.width := width;
        Pattern.height := height;
        Pattern.numSquares := None;
        Pattern.numLayers := None;
        Pattern.numSides := None;
        Pattern.stripeWidth := Some stripeWidth;
        Pattern.cubeSize := None;
        Pattern.colors := colors;
        Pattern.ratioX := None;
        Pattern.ratioY := None;
        Pattern.layerThickness := None;
        Pattern.tilt := Some tilt;
        Pattern.offsetX := offsetX;
        Pattern.offsetY := offsetY |}.
End Stripes.

(** *** generateIsometricCubes *)

(** Lines 241-256: the rounding of the fractional hexagon coordinates
    [(q, r)] to cube coordinates. *)
Definition cube_round (q r : number) : number * number * number :=
  let rx := Math.round q in
  let ry := Math.round r in
  let rz := Math.round (- q - r) in
  let x_diff := Math.abs (rx - q) in
  let y_diff := Math.abs (ry - r) in
  let z_diff := Math.abs (rz - (- q - r)) in
  if (x_diff > y_diff) && (x_diff > z_diff) then (- ry - rz, ry, rz)
  else if y_diff > z_diff then (rx, - rx - rz, rz)
  else (rx, ry, - rx - ry).

(** Lines 270-277: the face of an angle in degrees. *)
Definition face_of (angle : number) : number :=
  if (angle >= Fin (-150)) && (angle < Fin (-30)) then Fin 0
  else if (angle >= Fin (-30)) && (angle < Fin 90) then Fin 1
  else Fin 2.

Section Cubes.
Variables (width height cubeSize : number) (colors : list string)
  (offsetX offsetY : number).

Let colorMap : list (option string) :=
  [ index colors (Fin 0 %% length_of colors);
    index colors (Fin 1 %% length_of colors);
    index colors (Fin 2 %% length_of colors) ].
Let hexRadius := Math.max (Fin 2) cubeSize.
Let centerX_orig := (width - Fin 1) / Fin 2 + offsetX.
Let centerY_orig := (height - Fin 1) / Fin 2 + offsetY.

(** Lines 235-256: the cube coordinates of the hexagon of the point. *)
Definition cubes_hex (x y : number) : number * number * number :=
  let adjX := x - centerX_orig in
  let adjY := y - centerY_orig in
  let q := (Math.sqrt (Fin 3) / Fin 3 * adjX - Fin 1 / Fin 3 * adjY) / hexRadius in
  let r := (Fin 2 / Fin 3 * adjY) / hexRadius in
  cube_round q r.

(** Lines 258-277. *)
Definition cubes_face (x y : number) : number :=
  let adjX := x - centerX_orig in
  let adjY := y - centerY_orig in
  let '(rx, ry, rz) := cubes_hex x y in
  let hexCenterX := hexRadius * Math.sqrt (Fin 3) * (rx + ry / Fin 2) in
  let hexCenterY := hexRadius * Fin 3 / Fin 2 * ry in
  let angle :=
    Math.atan2 (adjY - hexCenterY) (adjX - hexCenterX) * Fin 180 / Math.PI in
  face_of angle.

Definition cubes_cell (x y : nat) : Cell :=
  let faceIndex := cubes_face (of_nat x) (of_nat y) in
  {| color := match index colorMap faceIndex with
              | Some c => c
              | None => None
              end;
     level := faceIndex |}.

Definition generateIsometricCubes : result Pattern.t :=
  g <- new_grid height width ;;
  let '(h, w, grid0) := g in
  let grid := fill h w cubes_cell grid0 in
  Ok {| Pattern.grid := grid;
        Pattern.width := width;
        Pattern.height := height;
        Pattern.numSquares := None;
        Pattern.numLayers := None;
        Pattern.numSides := None;
        Pattern.stripeWidth := None;
        Pattern.cubeSize := Some cubeSize;
        Pattern.colors := colors;
        Pattern.ratioX := None;
        Pattern.ratioY := None;
        Pattern.layerThickness := None;
        Pattern.tilt := None;
        Pattern.offsetX := offsetX;
        Pattern.offsetY := offsetY |}.
End Cubes.

(** *** generateConcentricCircles *)

Section Circles.
Variables (width height numLayers : number) (colors : list string)
  (ratioX ratioY : number) (layerThickness : option number)
  (tilt offsetX offsetY : number).

Let centerX := (width - Fin 1) / Fin 2 + offsetX.
Let centerY := (height - Fin 1) / Fin 2 + offsetY.
Let tiltRad := (tilt * Math.PI) / Fin 180.
Let cosTilt := Math.cos tiltRad.
Let sinTilt := Math.sin tiltRad.

(** Lines 332-340; the corners are measured without the [1e-10]. *)
Definition circles_maxDistance : number :=
  fold_left (fun maxDistance corner =>
    let dx := fst corner - centerX in
    let dy := snd corner - centerY in
    let rx := (dx * cosTilt + dy * sinTilt) / ratioX in
    let ry := (- dx * sinTilt + dy * cosTilt) / ratioY in
    Math.max maxDistance (Math.sqrt (rx * rx + ry * ry)))
    (corners width height) (Fin 0).

(** Lines 345-351. *)
Definition circles_distance (x y : number) : number :=
  let dx := x - centerX in
  let dy := y - centerY in
  let rx := (dx * cosTilt + dy * sinTilt + eps) / ratioX in
  let ry := (- dx * sinTilt + dy * cosTilt + eps) / ratioY in
  Math.sqrt (rx * rx + ry * ry).

Definition circles_cell (x y : nat) : Cell :=
  let distance := circles_distance (of_nat x) (of_nat y) in
  let level := level_of layerThickness circles_maxDistance numLayers distance in
  let colorIndex := level %% length_of colors in
  cell_of colors colorIndex.

Definition generateConcentricCircles : result Pattern.t :=
  g <- new_grid height width ;;
  let '(h, w, grid0) := g in
  let grid := fill h w circles_cell grid0 in
  let actualNumLayers := actual_layers layerThickness circles_maxDistance numLayers in
  Ok {| Pattern.grid := grid;
        Pattern.width := width;
        Pattern.height := height;
        Pattern.numSquares := None;
        Pattern.numLayers := Some actualNumLayers;
        Pattern.numSides := None;
        Pattern.stripeWidth := None;
        Pattern.cubeSize := None;
        Pattern.colors := colors;
        Pattern.ratioX := Some ratioX;
        Pattern.ratioY := Some ratioY;
        Pattern.layerThickness := Some layerThickness;
        Pattern.tilt := Some tilt;
        Pattern.offsetX := offsetX;
        Pattern.offsetY := offsetY |}.
End Circles.

(** *** generateConcentricPolygons *)

Section Polygons.
Variables (width height numSides numLayers : number) (colors : list string)
  (ratioX ratioY : number) (layerThickness : option number)
  (tilt offsetX offsetY : number).

Let centerX := (width - Fin 1) / Fin 2 + offsetX.
Let centerY := (height - Fin 1) / Fin 2 + offsetY.
Let tiltRad := (tilt * Math.PI) / Fin 180.
Let cosTilt := Math.cos tiltRad.
Let sinTilt := Math.sin tiltRad.
Let sides := Math.max (Fin 3) numSides.
Let angleStep := (Fin 2 * Math.PI) / sides.

(** Lines 434-436 and 447-449: the distance to the polygon edge of the
    point whose rotated, scaled coordinates are [(rx, ry)]. *)
Definition polygon_metric (rx ry : number) : number :=
  let r := Math.sqrt (rx * rx + ry * ry) in
  let theta := Math.atan2 ry rx in
  r * Math.cos ((((theta %% angleStep) + angleStep) %% angleStep) - angleStep / Fin 2).

(** Lines 427-438. *)
Definition polygons_maxDistance : number :=
  fold_left (fun maxDistance corner =>
    let dx := fst corner - centerX in
    let dy := snd corner - centerY in
    let rx := (dx * cosTilt + dy * sinTilt) / ratioX in
    let ry := (- dx * sinTilt + dy * cosTilt) / ratioY in
    let d := polygon_metric rx ry in
    Math.max maxDistance d)
    (corners width height) (Fin 0).

(** Lines 442-449. *)
Definition polygons_distance (x y : number) : number :=
  let dx := x - centerX in
  let dy := y - centerY in
  let rx := (dx * cosTilt + dy * sinTilt + eps) / ratioX in
  let ry := (- dx * sinTilt + dy * cosTilt + eps) / ratioY in
  polygon_metric rx ry.

Definition polygons_cell (x y : nat) : Cell :=
  let distance := polygons_distance (of_nat x) (of_nat y) in
  let level := level_of layerThickness polygons_maxDistance numLayers distance in
  let colorIndex := level %% length_of colors in
  cell_of colors colorIndex.

Definition generateConcentricPolygons : result Pattern.t :=
  g <- new_grid height width ;;
  let '(h, w, grid0) := g in
  let grid := fill h w polygons_cell grid0 in
  let actualNumLayers := actual_layers layerThickness polygons_maxDistance numLayers in
  Ok {| Pattern.grid := grid;
        Pattern.width := width;
        Pattern.height := height;
        Pattern.numSquares := None;
        Pattern.numLayers := Some actualNumLayers;
        Pattern.numSides := Some sides;
        Pattern.stripeWidth := None;
        Pattern.cubeSize := None;
        Pattern.colors := colors;
        Pattern.ratioX := Some ratioX;
        Pattern.ratioY := Some ratioY;
        Pattern.layerThickness := Some layerThickness;
        Pattern.tilt := Some tilt;
        Pattern.offsetX := offsetX;
        Pattern.offsetY := offsetY |}.
End Polygons.

Local Close Scope js_scope.

(** *** The dispatch of [App.jsx] *)

Module App.
Record Config : Type := {
  width : number;
  height : number;
  numSquares : number;
  patternType : string;
  colors : list string;
  canvasType : string;
  ratioX : number;
  ratioY : number;
  squaresSizeMode : string;
  layerThickness : number;
  tilt : number;
  numSides : number;
  offsetX : number;
  offsetY : number
}.

(** The [switch] of lines 45-108. *)
Definition pattern (config : Config) : result Pattern.t :=
  let thickness :=
    if String.eqb (squaresSizeMode config) "thickness"
    then Some (layerThickness config) else None in
  if String.eqb (patternType config) "stripes" then
    generateStripes (width config) (height config) (numSquares config)
      (colors config) (tilt config) (offsetX config) (offsetY config)
  else if String.eqb (patternType config) "cubes" then
    generateIsometricCubes (width config) (height config) (numSquares config)
      (colors config) (offsetX config) (offsetY config)
  else if String.eqb (patternType config) "circles" then
    generateConcentricCircles (width config) (height config) (numSquares config)
      (colors config) (ratioX config) (ratioY config) thickness
      (tilt config) (offsetX config) (offsetY config)
  else if String.eqb (patternType config) "polygons" then
    generateConcentricPolygons (width config) (height config) (numSides config)
      (numSquares config) (colors config) (ratioX config) (ratioY config)
      thickness (tilt config) (offsetX config) (offsetY config)
  else
    generateConcentricSquares (width config) (height config) (numSquares config)
      (colors config) (ratioX config) (ratioY config) thickness
      (tilt config) (offsetX config) (offsetY config).
End App.

(** ** The rest of the application

    The code around the generators: the count of the stitches and the yarn
    calculator, the effect and the handlers of [App.jsx] that keep the colors,
    the canvas that reports a click, the palettes and the control panel.  A
    loop that could run on is given a [fuel], and returns [None] when it runs
    out of it. *)

(** *** Objects used as maps *)

(** A JavaScript object used as a map from strings: its own properties in
    the order of their insertion.  (A key that is an array index would be
    enumerated first, and a key that names a property inherited from
    [Object.prototype] would be found in an empty object; the colors are
    taken to be neither.) *)
Definition Obj (V : Type) : Type := list (string * V).

(** [o[k]] *)
Fixpoint obj_get {V} (o : Obj V) (k : string) : option V :=
  match o with
  | [] => None
  | (k', v) :: o' => if String.eqb k' k then Some v else obj_get o' k
  end.

(** [o[k] = v] *)
Fixpoint obj_set {V} (o : Obj V) (k : string) (v : V) : Obj V :=
  match o with
  | [] => [(k, v)]
  | (k', v') :: o' =>
      if String.eqb k' k then (k', v) :: o' else (k', v') :: obj_set o' k v
  end.

(** The property key of a color that may be [undefined]. *)
Definition property_key (color : option string) : string :=
  match color with
  | Some c => c
  | None => "undefined"
  end.

(** *** countStitchesByColor, in [src/utils/patternGenerator.js] *)

(** Lines 132-133: [counts[color] = (counts[color] || 0) + 1]. *)
Definition count_cell (counts : Obj number) (cell : Cell) : Obj number :=
  let color := property_key (color cell) in
  obj_set counts color
    (match obj_get counts color with
     | Some n => n || Fin 0
     | None => Fin 0
     end + Fin 1)%js.

(** The body of the inner [forEach].  Reading the color of an entry that is
    [null] raises a TypeError, which is [None] here and ends the count. *)
Definition count_entry (counts : option (Obj number)) (cell : option Cell)
  : option (Obj number) :=
  match counts, cell with
  | Some counts, Some cell => Some (count_cell counts cell)
  | _, _ => None
  end.

(** Lines 128-139. *)
Definition countStitchesByColor (pattern : Pattern.t) : option (Obj number) :=
  fold_left (fun counts row => fold_left count_entry row counts)
    (Pattern.grid pattern) (Some []).

(** *** The yarn calculator, [src/utils/yarnCalculator.js]

    The module follows the pattern generators in the same listing, from line
    486 on. *)

Module Yarn.

(** Lines 493-510. *)
Definition THREAD_PER_SKEIN_M : number := Fin 8.
Definition CM_PER_METER : number := Fin 100.

Record CanvasType : Type := { id : string; name : string; cmPerStitch : number }.

Definition STANDARD : CanvasType :=
  {| id := "standard"; name := "Standard (Aida 14ct)"; cmPerStitch := Fin 50 |}.

Definition SUDAN : CanvasType :=
  {| id := "sudan"; name := "Sudan Canvas (Toile Soudan)";
     cmPerStitch := ((Fin 8 * Fin 100) / Fin 300)%js |}.

(** [Object.values(CANVAS_TYPES)] *)
Definition CANVAS_TYPES : list CanvasType := [STANDARD; SUDAN].

(** The entry of a color, and the total. *)
Record Usage : Type := {
  stitches : number;
  threadMeters : number;
  threadYards : number;
  skeinsNeeded : number
}.

Record t : Type := {
  canvasType : string;
  byColor : Obj Usage;
  total : Usage
}.

(** [parseFloat(a.toFixed(2))]: the nearest multiple of 1/100, a half
    rounded away from zero; a number of magnitude 10^21 or more, an infinity
    and NaN are printed and read back unchanged. *)
Definition Rround2 (x : R) : R :=
  if Rlt_b x 0 then - (IZR (Zfloor (- x * 100 + / 2)) / 100)
  else IZR (Zfloor (x * 100 + / 2)) / 100.

Definition toFixed2 (a : number) : number :=
  match a with
  | Fin x => if Rlt_b (Rabs x) (10 ^ 21) then Fin (Rround2 x) else a
  | _ => a
  end.

(** The literal [1.09361]. *)
Definition YARDS_PER_METER : number := Fin (109361 / 100000).

(** Lines 518-552. *)
Definition calculateYarnUsage (stitchCounts : Obj number) (canvasTypeId : string) : t :=
  let canvasType :=
    match find (fun t => String.eqb (id t) canvasTypeId) CANVAS_TYPES with
    | Some t => t
    | None => STANDARD
    end in
  let cmPerStitch := cmPerStitch canvasType in
  let '(yarnData, totalStitches, totalThreadMeters) :=
    fold_left (fun '(yarnData, totalStitches, totalThreadMeters) '(color, count) =>
      let threadCm := (count * cmPerStitch)%js in
      let threadMeters := (threadCm / CM_PER_METER)%js in
      let skeinsNeeded := Math.ceil (threadMeters / THREAD_PER_SKEIN_M)%js in
      (obj_set yarnData color
         {| stitches := count;
            threadMeters := toFixed2 threadMeters;
            threadYards := toFixed2 (threadMeters * YARDS_PER_METER)%js;
            skeinsNeeded := skeinsNeeded |},
       (totalStitches + count)%js,
       (totalThreadMeters + threadMeters)%js))
      stitchCounts ([], Fin 0, Fin 0) in
  {| canvasType := name canvasType;
     byColor := yarnData;
     total :=
       {| stitches := totalStitches;
          threadMeters := toFixed2 totalThreadMeters;
          threadYards := toFixed2 (totalThreadMeters * YARDS_PER_METER)%js;
          skeinsNeeded := Math.ceil (totalThreadMeters / THREAD_PER_SKEIN_M)%js |} |}.

End Yarn.

(** Lines 141-144 of [App.jsx]: the yarn usage of the generated pattern. *)
Definition App_yarnUsage (pattern : Pattern.t) (canvasType : string) : option Yarn.t :=
  match countStitchesByColor pattern with
  | Some stitchCounts => Some (Yarn.calculateYarnUsage stitchCounts canvasType)
  | None => None
  end.

(** *** The color effect and the color picker of [App.jsx] *)

(** An array of colors in which an entry can be [undefined], or missing. *)
Definition Colors : Type := list (option string).

(** [a[i]] in such an array. *)
Definition entry (a : Colors) (i : number) : option string :=
  match index a i with
  | Some c => c
  | None => None
  end.

(** [a || b] for two values that are [undefined] or a number, and the number
    that [undefined] converts to. *)
Definition or_undefined (a b : option number) : option number :=
  match a with
  | Some n => if truthy n then a else b
  | None => b
  end.

Definition to_number (v : option number) : number :=
  match v with
  | Some n => n
  | None => NaN
  end.

(** [a === b] for two numbers, and for a number and a value that can be
    [undefined]. *)
Definition strict_eq (a b : number) : bool :=
  match a, b with
  | Fin x, Fin y => Req_b x y
  | PosInf, PosInf | NegInf, NegInf => true
  | _, _ => false
  end.

Definition strict_eq_undefined (a : number) (b : option number) : bool :=
  match b with
  | Some n => strict_eq a n
  | None => false
  end.

(** [a.length = n]: [n] has to be an array length; the array is cut, or
    extended by missing entries. *)
Definition set_length (n : number) (a : Colors) : result Colors :=
  k <- array_length n ;;
  Ok (firstn k a ++ repeat None (k - List.length a)).

(** Lines 113-121 of [App.jsx]. *)
Definition App_neededCount (config : App.Config) (pattern : Pattern.t) : option number :=
  if String.eqb (App.squaresSizeMode config) "thickness"
     && (String.eqb (App.patternType config) "squares"
         || String.eqb (App.patternType config) "circles")
  then
    match Pattern.numSquares pattern, Pattern.numLayers pattern with
    | None, None => Some (App.numSquares config)
    | numSquares, numLayers => or_undefined numSquares numLayers
    end
  else Some (App.numSquares config).

(** The loop of lines 128-130, which ends when it does not run out of
    [fuel]. *)
Fixpoint push_cycle (fuel : nat) (colors : list string) (neededCount : number)
  (newColors : Colors) : option Colors :=
  if (length_of newColors < neededCount)%js then
    match fuel with
    | O => None
    | S fuel' =>
        push_cycle fuel' colors neededCount
          (newColors ++ [index colors (length_of newColors %% length_of colors)%js])
    end
  else Some newColors.

(** What the effect of lines 111-138 does to the colors. *)
Inductive ColorsUpdate : Type :=
| Unchanged
| SetColors (newColors : Colors).

Definition App_syncColors (fuel : nat) (config : App.Config) (pattern : Pattern.t)
  : option (result ColorsUpdate) :=
  let neededCount := App_neededCount config pattern in
  if negb (strict_eq_undefined (length_of (App.colors config)) neededCount) then
    let newColors := map Some (App.colors config) in
    if (length_of newColors < to_number neededCount)%js then
      match push_cycle fuel (App.colors config) (to_number neededCount) newColors with
      | Some newColors => Some (Ok (SetColors newColors))
      | None => None
      end
    else
      Some (newColors <- set_length (to_number neededCount) newColors ;;
            Ok (SetColors newColors))
  else Some (Ok Unchanged).

(** [a[i] = v]: an [i] that is an array index writes the entry, and extends
    the array when it lies outside; any other [i] names a property that is
    no entry. *)
Definition array_set (a : Colors) (i : number) (v : string) : Colors :=
  match i with
  | Fin r =>
      if Req_b (IZR (Zfloor r)) r && (0 <=? Zfloor r)%Z && (Zfloor r <? 2 ^ 32 - 1)%Z
      then
        let k := Z.to_nat (Zfloor r) in
        if (k <? List.length a)%nat then update k (fun _ => Some v) a
        else a ++ repeat None (k - List.length a) ++ [Some v]
      else a
  | _ => a
  end.

(** Lines 150-156 of [App.jsx]: the colors that are set, if any. *)
Definition App_handleColorUpdate (config : App.Config)
  (editingColorIndex : option number) (newColor : string) : option Colors :=
  match editingColorIndex with
  | Some i => Some (array_set (map Some (App.colors config)) i newColor)
  | None => None
  end.

(** *** The canvas, [src/components/PatternCanvas.jsx]

    The components are listed after the palettes in the listing
    [src/utils/colorPalettes.js], whose line numbers are given: the canvas from
    line 73 on, the control panel from line 289 on. *)

Module PatternCanvas.

(** What [getGridCoords] reads of the mouse event and of the canvas. *)
Record MouseEvent : Type := { clientX : number; clientY : number }.

Record Canvas : Type := {
  left : number;
  top : number;
  rect_width : number;
  rect_height : number;
  width : number;
  height : number
}.

(** [getGridCoords], lines 140-156, with the canvas that [canvasRef.current]
    holds, if any. *)
Definition getGridCoords (canvasRef : option Canvas) (cellSize : number)
  (pattern : Pattern.t) (e : MouseEvent) : option (number * number) :=
  match canvasRef with
  | None => None
  | Some canvas =>
      let x := (clientX e - left canvas)%js in
      let y := (clientY e - top canvas)%js in
      let scaleX := (width canvas / rect_width canvas)%js in
      let scaleY := (height canvas / rect_height canvas)%js in
      let gridX := Math.floor ((x * scaleX) / cellSize)%js in
      let gridY := Math.floor ((y * scaleY) / cellSize)%js in
      if (gridX >= Fin 0)%js && (gridX < Pattern.width pattern)%js
         && (gridY >= Fin 0)%js && (gridY < Pattern.height pattern)%js
      then Some (gridX, gridY)
      else None
  end.

(** [handleCanvasClick], lines 170-177, with an [onColorClick] and a pattern.
    A click does nothing, or calls [onColorClick], or raises the TypeError of
    reading a cell that is not there. *)
Inductive Click : Type :=
| Ignored
| ColorClick (level : number)
| TypeError.

Definition handleCanvasClick (canvasRef : option Canvas) (cellSize : number)
  (pattern : Pattern.t) (e : MouseEvent) : Click :=
  match getGridCoords canvasRef cellSize pattern e with
  | Some (gridX, gridY) =>
      match index (Pattern.grid pattern) gridY with
      | Some row =>
          match index row gridX with
          | Some (Some cell) => ColorClick (level cell)
          | _ => TypeError
          end
      | None => TypeError
      end
  | None => Ignored
  end.

End PatternCanvas.

(** *** The palettes, [src/utils/colorPalettes.js], lines 1-72 *)

Module ColorPalettes.

Record Palette : Type := { name : string; colors : list string }.

Definition earthTones : Palette :=
  {| name := "Earth Tones";
     colors := ["#8B7355"; "#A0826D"; "#C9B299"; "#E8D5C4"; "#F5EBE0"]%string |}.
Definition pastelGarden : Palette :=
  {| name := "Pastel Garden";
     colors := ["#E8B4B8"; "#F4D1AE"; "#F9EAC2"; "#C8E3D4"; "#B4D4E1"]%string |}.
Definition autumnLeaves : Palette :=
  {| name := "Autumn Leaves";
     colors := ["#8B4513"; "#CD853F"; "#DAA520"; "#D2691E"; "#A0522D"]%string |}.
Definition oceanBreeze : Palette :=
  {| name := "Ocean Breeze";
     colors := ["#4A90A4"; "#5FB3B3"; "#8ECAE6"; "#A8DADC"; "#C1E7E3"]%string |}.
Definition lavenderFields : Palette :=
  {| name := "Lavender Fields";
     colors := ["#9D84B7"; "#B8A4C9"; "#D4C5E2"; "#E8DFF5"; "#F5F0FA"]%string |}.
Definition sunsetBlush : Palette :=
  {| name := "Sunset Blush";
     colors := ["#E07A5F"; "#F2A490"; "#F4C2B8"; "#F9DCC4"; "#FEF0E7"]%string |}.
Definition forestMoss : Palette :=
  {| name := "Forest Moss";
     colors := ["#3D5A40"; "#5F7A61"; "#8B9D83"; "#B8C5B4"; "#D8E2DC"]%string |}.
Definition berrySweet : Palette :=
  {| name := "Berry Sweet";
     colors := ["#A4508B"; "#C97C9D"; "#E5A4B4"; "#F4C2C2"; "#FFE5EC"]%string |}.
Definition vintageTea : Palette :=
  {| name := "Vintage Tea";
     colors := ["#9B6B4F"; "#B8927D"; "#D4B5A0"; "#E8D5C4"; "#F5EBE0"]%string |}.
Definition mintChocolate : Palette :=
  {| name := "Mint Chocolate";
     colors := ["#4A5240"; "#6B7F5E"; "#A8C69F"; "#C8E6C9"; "#E8F5E9"]%string |}.

Definition COLOR_PALETTES : Obj Palette :=
  [ ("earthTones", earthTones); ("pastelGarden", pastelGarden);
    ("autumnLeaves", autumnLeaves); ("oceanBreeze", oceanBreeze);
    ("lavenderFields", lavenderFields); ("sunsetBlush", sunsetBlush);
    ("forestMoss", forestMoss); ("berrySweet", berrySweet);
    ("vintageTea", vintageTea); ("mintChocolate", mintChocolate) ]%string.

(** [getPalette], lines 60-62: [COLOR_PALETTES[key] || COLOR_PALETTES.pastelGarden] *)
Definition getPalette (key : string) : Palette :=
  match obj_get COLOR_PALETTES key with
  | Some palette => palette
  | None => pastelGarden
  end.

(** [getRandomPalette], lines 52-55; the argument is the number that
    [Math.random()] returns, a number of [0, 1). *)
Definition getRandomPalette (random : number) : option Palette :=
  let palettes := map snd COLOR_PALETTES in
  index palettes (Math.floor (random * length_of palettes)%js).

End ColorPalettes.

(** *** The control panel, [src/components/ControlPanel.jsx] *)

Module ControlPanel.

(** [a === b] for two entries of an array of colors. *)
Definition same_color (a b : option string) : bool :=
  match a, b with
  | Some x, Some y => String.eqb x y
  | None, None => true
  | _, _ => false
  end.

(** The inner loop of [findPeriod]: no [i] from [p] on has
    [colors[i] !== colors[i % p]]. *)
Definition repeats (colors : list string) (p : nat) : bool :=
  forallb (fun i => same_color (nth_error colors i) (nth_error colors (i mod p)))
    (seq p (List.length colors - p)).

(** [findPeriod], lines 296-310: the first [p] of 1, 2, ... up to half the
    length that repeats. *)
Definition findPeriod (colors : list string) : nat :=
  if (List.length colors <=? 1)%nat then List.length colors
  else
    match find (repeats colors) (seq 1 (List.length colors / 2)) with
    | Some p => p
    | None => List.length colors
    end.

(** [a.splice(start)]: the entries from [start] on are removed. *)
Definition splice (start : number) (a : Colors) : Colors :=
  let len := Z.of_nat (List.length a) in
  let actualStart :=
    match start with
    | NaN | NegInf => 0%Z
    | PosInf => len
    | Fin r => if (Rtrunc r <? 0)%Z then Z.max (len + Rtrunc r) 0
               else Z.min (Rtrunc r) len
    end in
  firstn (Z.to_nat actualStart) a.

(** The loop of lines 340-342 and 362-364. *)
Fixpoint push_period (fuel : nat) (period : nat) (newNum : number)
  (newColors : Colors) : option Colors :=
  if (length_of newColors < newNum)%js then
    match fuel with
    | O => None
    | S fuel' =>
        push_period fuel' period newNum
          (newColors ++ [entry newColors (length_of newColors %% of_nat period)%js])
    end
  else Some newColors.

(** Lines 335-346, repeated in lines 358-367: the colors are extended or
    cut to [newNum]. *)
Definition resize (fuel : nat) (newNum : number) (colors : list string)
  : option Colors :=
  let newColors := map Some colors in
  if (newNum > length_of newColors)%js then
    let period := findPeriod colors in
    push_period fuel period newNum newColors
  else Some (splice newNum newColors).

(** What a handler passes to [onChange]: the fields it sets ([None] for a
    field it leaves as it is). *)
Record Change : Type := { numSquares : option number; colors : option Colors }.

(** Lines 328-352. *)
Definition handleNumSquaresChange (fuel : nat) (config : App.Config) (num : number)
  : option Change :=
  let maxValue :=
    if String.eqb (App.patternType config) "squares" then Fin 20 else Fin 50 in
  let newNum := Math.max (Fin 1) (Math.min maxValue num) in
  if String.eqb (App.patternType config) "squares" then
    match resize fuel newNum (App.colors config) with
    | Some newColors => Some {| numSquares := Some newNum; colors := Some newColors |}
    | None => None
    end
  else Some {| numSquares := Some newNum; colors := None |}.

(** Lines 354-369. *)
Definition handleNumColorsChange (fuel : nat) (config : App.Config) (num : number)
  : option Change :=
  let newNum := Math.max (Fin 1) (Math.min (Fin 20) num) in
  match resize fuel newNum (App.colors config) with
  | Some newColors => Some {| numSquares := None; colors := Some newColors |}
  | None => None
  end.

(** The loop of lines 375-377: at most three entries are pushed. *)
Fixpoint pad_colors (fuel : nat) (newColors : list string) : list string :=
  match fuel with
  | O => newColors
  | S fuel' =>
      if (List.length newColors <? 3)%nat
      then pad_colors fuel' (newColors ++ ["#abcdef"%string])
      else newColors
  end.

(** Lines 371-390. *)
Definition handlePatternTypeChange (config : App.Config) (type : string) : App.Config :=
  if String.eqb type "cubes" then
    let newColors := pad_colors 3 (App.colors config) in
    let newColors := firstn 3 newColors in
    {| App.width := App.width config;
       App.height := App.height config;
       App.numSquares := Fin 10;
       App.patternType := type;
       App.colors := newColors;
       App.canvasType := App.canvasType config;
       App.ratioX := App.ratioX config;
       App.ratioY := App.ratioY config;
       App.squaresSizeMode := App.squaresSizeMode config;
       App.layerThickness := App.layerThickness config;
       App.tilt := App.tilt config;
       App.numSides := App.numSides config;
       App.offsetX := App.offsetX config;
       App.offsetY := App.offsetY config |}
  else
    {| App.width := App.width config;
       App.height := App.height config;
       App.numSquares := App.numSquares config;
       App.patternType := type;
       App.colors := App.colors config;
       App.canvasType := App.canvasType config;
       App.ratioX := App.ratioX config;
       App.ratioY := App.ratioY config;
       App.squaresSizeMode := App.squaresSizeMode config;
       App.layerThickness := App.layerThickness config;
       App.tilt := App.tilt config;
       App.numSides := App.numSides config;
       App.offsetX := App.offsetX config;
       App.offsetY := App.offsetY config |}.

(** [Array.from({ length }, (_, i) => f(i))]: the length is brought into
    0 .. 2^53 - 1, and has to be an array length. *)
Definition array_from {A} (length : number) (f : nat -> A) : result (list A) :=
  let len :=
    match length with
    | NaN | NegInf => 0%Z
    | PosInf => (2 ^ 53 - 1)%Z
    | Fin r => Z.min (Z.max (Rtrunc r) 0) (2 ^ 53 - 1)
    end in
  if (len <? 2 ^ 32)%Z then Ok (map f (seq 0 (Z.to_nat len))) else Throw RangeError.

(** Lines 392-421. *)
Definition handlePaletteChange (config : App.Config) (paletteKey : string)
  : result Change :=
  let palette := ColorPalettes.getPalette paletteKey in
  if String.eqb (App.patternType config) "cubes" then
    Ok {| numSquares := None;
          colors := Some (map Some (firstn 3 (ColorPalettes.colors palette))) |}
  else
    let targetCount :=
      if String.eqb (App.patternType config) "squares"
      then App.numSquares config else length_of (App.colors config) in
    let finalCount := Math.max targetCount (length_of (ColorPalettes.colors palette)) in
    newColors <- array_from finalCount (fun i =>
      index (ColorPalettes.colors palette)
        (of_nat i %% length_of (ColorPalettes.colors palette))%js) ;;
    Ok {| numSquares :=
            if String.eqb (App.patternType config) "squares"
            then Some finalCount else None;
          colors := Some newColors |}.

End ControlPanel.

(** ** Vocabulary of the properties *)

(** The grid in which the cell [cell_at x y] was written at every position of
    [h] rows and [w] columns. *)
Definition full_grid (h w : nat) (cell_at : nat -> nat -> Cell) : Grid :=
  map (fun y => map (fun x => Some (cell_at x y)) (seq 0 w)) (seq 0 h).

(** [grid[y][x]] *)
Definition grid_at (g : Grid) (x y : nat) : option Cell :=
  match nth_error g y with
  | Some row =>
      match nth_error row x with
      | Some c => c
      | None => None
      end
  | None => None
  end.

(** Every entry of the grid is a written cell, and the cell satisfies [P]. *)
Definition every_cell (P : Cell -> Prop) (g : Grid) : Prop :=
  Forall (Forall (fun c => match c with Some c => P c | None => False end)) g.

(** The grid has [h] rows of [w] entries. *)
Definition has_size (h w : nat) (g : Grid) : Prop :=
  List.length g = h /\ Forall (fun row => List.length row = w) g.

(** The level is an integer of [lo, hi). *)
Definition level_in (lo hi : Z) (c : Cell) : Prop :=
  exists k : Z, level c = Fin (IZR k) /\ (lo <= k < hi)%Z.

(** A grid dimension the specification allows, that [Array] accepts. *)
Definition valid_dim (n : nat) : Prop := (0 < n)%nat /\ (Z.of_nat n < 2 ^ 32)%Z.

(** The sizing of a configuration: a positive number of layers in count
    mode, a positive thickness in thickness mode. *)
Definition valid_size (layerThickness : option number) (numLayers : number) : Prop :=
  match layerThickness with
  | None => exists k : Z, (1 <= k)%Z /\ numLayers = Fin (IZR k)
  | Some t => exists r : R, 0 < r /\ t = Fin r
  end.

(** What a caller observes of a call: the grid alone, or the grid with the
    returned number of layers. *)
Definition grid_of (r : result Pattern.t) : result Grid :=
  match r with
  | Ok p => Ok (Pattern.grid p)
  | Throw e => Throw e
  end.


(** What a generator call [r] with dimensions [H] and [W] and cell function
    [cell_at] comes to: the allocation throws, or the grid is full. *)
Definition built (H W : number) (cell_at : nat -> nat -> Cell) (r : result Pattern.t)
  : Prop :=
  (r = Throw RangeError /\ new_grid H W = Throw RangeError)
  \/ (exists h w p,
        r = Ok p /\ Pattern.grid p = full_grid h w cell_at
        /\ (forall h0 w0, valid_dim h0 -> valid_dim w0 ->
            H = of_nat h0 -> W = of_nat w0 -> h = h0 /\ w = w0)).



(** The cell of a configuration without colors. *)
Definition colorless (patternType : string) (c : Cell) : Prop :=
  color c = None /\ (patternType <> "cubes"%string -> level c = NaN).

(** The default configuration of [App.jsx] on a 1 by 1 grid, with the given
    colors and horizontal ratio. *)
Definition unit_config (colors : list string) (ratioX : number) : App.Config :=
  {| App.width := of_nat 1; App.height := of_nat 1; App.numSquares := Fin 2;
     App.patternType := "squares"; App.colors := colors;
     App.canvasType := "standard";
     App.ratioX := ratioX; App.ratioY := Fin 1; App.squaresSizeMode := "count";
     App.layerThickness := Fin 10; App.tilt := Fin 0; App.numSides := Fin 5;
     App.offsetX := Fin 0; App.offsetY := Fin 0 |}.

(** The two cells of the 3 by 3 scenario. *)
Definition red_cell : option Cell :=
  Some {| color := Some "red"%string; level := Fin 0 |}.
Definition blue_cell : option Cell :=
  Some {| color := Some "blue"%string; level := Fin 1 |}.


(** The magnitudes that the properties of the levels and of the number of
    layers are stated for: a ratio, a thickness or the width of a stripe
    between 1e-6 and 1e6, a tilt, an offset or a number of sides of at most
    1e6 in absolute value. *)
Definition moderate (r : R) : Prop := / 10 ^ 6 <= r <= 10 ^ 6.
Definition limited (r : R) : Prop := - 10 ^ 6 <= r <= 10 ^ 6.

(** The sizing of a configuration of moderate magnitude: from 1 to 1e6
    layers in count mode, a moderate thickness in thickness mode. *)
Definition moderate_size (layerThickness : option number) (numLayers : number) : Prop :=
  match layerThickness with
  | None => exists k : Z, (1 <= k <= 10 ^ 6)%Z /\ numLayers = Fin (IZR k)
  | Some t => exists r : R, moderate r /\ t = Fin r
  end.





(** The distance of [generateConcentricSquares] as a function of reals. *)
Definition Rsquares_distance (w h rX rY t ox oy x y : R) : R :=
  let dx := x - ((w - 1) / 2 + ox) in
  let dy := y - ((h - 1) / 2 + oy) in
  Rmax ((Rabs (dx * cos (t * double_PI / 180) + dy * sin (t * double_PI / 180))
         + / 10 ^ 10) / rX)
       ((Rabs (- dx * sin (t * double_PI / 180) + dy * cos (t * double_PI / 180))
         + / 10 ^ 10) / rY).




(** ** Vocabulary of the properties of the application *)

(** The same object with every value mapped through [f]. *)
Definition obj_map {V W} (f : V -> W) (o : Obj V) : Obj W :=
  map (fun kv => (fst kv, f (snd kv))) o.

(** The keys under which the cells of a grid are counted, in the order of
    the two loops, and the number of cells counted under a key. *)
Definition row_keys (row : list (option Cell)) : list string :=
  flat_map (fun c =>
    match c with
    | Some c => [property_key (color c)]
    | None => []
    end) row.

Definition stitch_keys (g : Grid) : list string := flat_map row_keys g.

Definition stitches_of (g : Grid) (k : string) : nat :=
  count_occ string_dec (stitch_keys g) k.

(** A tally of keys in natural numbers. *)
Definition tally_step (m : Obj nat) (k : string) : Obj nat :=
  obj_set m k (S (match obj_get m k with Some n => n | None => O end)).

Definition tally (keys : list string) : Obj nat := fold_left tally_step keys [].

(** The sum of the values of an object. *)
Definition obj_sum (m : Obj nat) : nat := fold_right (fun kv s => (snd kv + s)%nat) O m.

(** The canvas a canvas type id selects, the exact length of thread in
    meters of [count] stitches, and the entry of a color. *)
Definition canvas_of (canvasTypeId : string) : Yarn.CanvasType :=
  match find (fun t => String.eqb (Yarn.id t) canvasTypeId) Yarn.CANVAS_TYPES with
  | Some t => t
  | None => Yarn.STANDARD
  end.

Definition thread_meters (cmPerStitch count : number) : number :=
  (count * cmPerStitch / Yarn.CM_PER_METER)%js.

Definition usage_of (cmPerStitch count : number) : Yarn.Usage :=
  {| Yarn.stitches := count;
     Yarn.threadMeters := Yarn.toFixed2 (thread_meters cmPerStitch count);
     Yarn.threadYards :=
       Yarn.toFixed2 (thread_meters cmPerStitch count * Yarn.YARDS_PER_METER)%js;
     Yarn.skeinsNeeded :=
       Math.ceil (thread_meters cmPerStitch count / Yarn.THREAD_PER_SKEIN_M)%js |}.

(** The sum of a list of numbers, and of a list of reals. *)
Definition sum_numbers (l : list number) : number := fold_left add l (Fin 0).
Definition Rsum (l : list R) : R := fold_right Rplus 0 l.

(** The number of stitches a skein covers on a canvas. *)
Definition stitches_per_skein (canvasTypeId : string) : nat :=
  if String.eqb canvasTypeId "sudan" then 300 else 16.

(** The colors after the effect, and the array of [n] colors that cycles
    through [colors]. *)
Definition colors_after (config : App.Config) (u : ColorsUpdate) : Colors :=
  match u with
  | Unchanged => map Some (App.colors config)
  | SetColors newColors => newColors
  end.

Definition cycled (colors : list string) (period n : nat) : Colors :=
  map (fun i => nth_error colors (i mod period)) (seq 0 n).

(** The names of the properties that an object literal inherits from
    [Object.prototype]: under such a key [counts[color]] is not [undefined]
    in an empty [counts].  The colors of a configuration are plain when none
    of them is such a name. *)
Definition Object_prototype_names : list string :=
  [ "constructor"; "__defineGetter__"; "__defineSetter__"; "hasOwnProperty";
    "__lookupGetter__"; "__lookupSetter__"; "isPrototypeOf";
    "propertyIsEnumerable"; "toString"; "valueOf"; "__proto__";
    "toLocaleString" ]%string.

Definition inherited (key : string) : bool :=
  existsb (String.eqb key) Object_prototype_names.

Definition plain_colors (colors : list string) : Prop :=
  forallb (fun c => negb (inherited c)) colors = true.

(** A number of moderate magnitude: a number between 1e-6 and 1e6, and one
    between -1e6 and 1e6. *)
Definition is_moderate (a : number) : Prop := exists r : R, moderate r /\ a = Fin r.
Definition is_limited (a : number) : Prop := exists r : R, limited r /\ a = Fin r.

(** The thickness that [App.jsx] passes to the generators. *)
Definition App_thickness (config : App.Config) : option number :=
  if String.eqb (App.squaresSizeMode config) "thickness"
  then Some (App.layerThickness config) else None.

(** A configuration of [App.jsx] that is valid and of moderate magnitude, on
    a grid of [h] rows and [w] columns: the ratios are between 1e-6 and 1e6,
    the tilt, the offsets and the number of sides at most 1e6 in absolute
    value; for the stripes [numSquares] is the width of a stripe, of an
    absolute value between 1e-6 and 1e6, for the cubes there are at least
    three colors, and otherwise there are from 1 to 1e6 layers or the
    thickness is between 1e-6 and 1e6. *)
Definition valid_config (config : App.Config) (w h : nat) : Prop :=
  App.width config = of_nat w /\ App.height config = of_nat h
  /\ valid_dim w /\ valid_dim h
  /\ App.colors config <> []
  /\ is_moderate (App.ratioX config) /\ is_moderate (App.ratioY config)
  /\ is_limited (App.tilt config)
  /\ is_limited (App.offsetX config) /\ is_limited (App.offsetY config)
  /\ is_limited (App.numSides config)
  /\ (if String.eqb (App.patternType config) "stripes"
      then exists r : R, moderate (Rabs r) /\ App.numSquares config = Fin r
      else if String.eqb (App.patternType config) "cubes"
           then (3 <= List.length (App.colors config))%nat
           else moderate_size (App_thickness config) (App.numSquares config)).

(** The array of colors repeats with period [p]. *)
Definition periodic (colors : list string) (p : nat) : Prop :=
  forall i, (i < List.length colors)%nat ->
            nth_error colors i = nth_error colors (i mod p).

(** The configuration with another number of layers and other colors. *)
Definition with_colors (config : App.Config) (numSquares : number)
  (colors : list string) : App.Config :=
  {| App.width := App.width config;
     App.height := App.height config;
     App.numSquares := numSquares;
     App.patternType := App.patternType config;
     App.colors := colors;
     App.canvasType := App.canvasType config;
     App.ratioX := App.ratioX config;
     App.ratioY := App.ratioY config;
     App.squaresSizeMode := App.squaresSizeMode config;
     App.layerThickness := App.layerThickness config;
     App.tilt := App.tilt config;
     App.numSides := App.numSides config;
     App.offsetX := App.offsetX config;
     App.offsetY := App.offsetY config |}.

(** A pattern of one row: a red cell and a blue cell. *)
Definition two_cell_pattern : Pattern.t :=
  {| Pattern.grid := [[red_cell; blue_cell]];
     Pattern.width := Fin 2;
     Pattern.height := Fin 1;
     Pattern.colors := ["red"; "blue"]%string;
     Pattern.numSquares := Some (Fin 2);
     Pattern.numLayers := None;
     Pattern.numSides := None;
     Pattern.stripeWidth := None;
     Pattern.cubeSize := None;
     Pattern.ratioX := Some (Fin 1);
     Pattern.ratioY := Some (Fin 1);
     Pattern.layerThickness := Some None;
     Pattern.tilt := Some (Fin 0);
     Pattern.offsetX := Fin 0;
     Pattern.offsetY := Fin 0 |}.

(** The configuration [unit_config] in thickness mode. *)
Definition thickness_config (colors : list string) : App.Config :=
  {| App.width := of_nat 1; App.height := of_nat 1; App.numSquares := Fin 2;
     App.patternType := "squares"; App.colors := colors;
     App.canvasType := "standard";
     App.ratioX := Fin 1; App.ratioY := Fin 1; App.squaresSizeMode := "thickness";
     App.layerThickness := Fin 10; App.tilt := Fin 0; App.numSides := Fin 5;
     App.offsetX := Fin 0; App.offsetY := Fin 0 |}.

(** * Properties *)

(** ** The loops fill the whole grid *)

Section Loops.
Context {A : Type}.

Lemma update_app (pre : list A) (v : A) (rest : list A) (f : A -> A) :
  update (List.length pre) f (pre ++ v :: rest) = pre ++ f v :: rest.
Proof.
  induction pre as [|p pre IH]; simpl; [reflexivity|].
  now rewrite IH.
Qed.

Lemma update_update (i : nat) (f g : A -> A) (a : list A) :
  update i g (update i f a) = update i (fun v => g (f v)) a.
Proof.
  revert i; induction a as [|v a IH]; intros [|i]; simpl; try reflexivity.
  now rewrite IH.
Qed.

Lemma update_same (i : nat) (f : A -> A) (a : list A) :
  (forall v, f v = v) -> update i f a = a.
Proof.
  intros Hf; revert i; induction a as [|v a IH]; intros [|i]; simpl;
    try reflexivity.
  - now rewrite Hf.
  - now rewrite IH.
Qed.

(** Updating the same slot in a loop is one update with the loop inside. *)
Lemma fold_update_at (i : nat) (F : nat -> A -> A) (l : list nat) (a : list A) :
  fold_left (fun s x => update i (F x) s) l a
  = update i (fun v => fold_left (fun r x => F x r) l v) a.
Proof.
  revert a; induction l as [|x l IH]; intros a; simpl.
  - symmetry; now apply update_same.
  - now rewrite IH, update_update.
Qed.

(** A loop that updates slot [i] at step [i], over slots whose new value
    [G i] does not depend on what was there. *)
Lemma fold_update_seq (F : nat -> A -> A) (G : nat -> A) (n : nat) :
  forall (k : nat) (pre rest : list A),
    List.length pre = k -> List.length rest = n ->
    (forall i v, In v rest -> F i v = G i) ->
    fold_left (fun s i => update i (F i) s) (seq k n) (pre ++ rest)
    = pre ++ map G (seq k n).
Proof.
  induction n as [|n IH]; intros k pre rest Hpre Hrest HF.
  - destruct rest; [reflexivity|discriminate].
  - destruct rest as [|v rest]; [discriminate|].
    subst k. simpl. rewrite update_app.
    rewrite (HF (List.length pre) v (or_introl eq_refl)).
    replace (pre ++ G (List.length pre) :: rest)
      with ((pre ++ [G (List.length pre)]) ++ rest)
      by now rewrite <- app_assoc.
    rewrite (IH (S (List.length pre))).
    + now rewrite <- app_assoc.
    + rewrite length_app; simpl; lia.
    + simpl in Hrest; lia.
    + intros i u Hu; apply HF; now right.
Qed.
End Loops.

Lemma fold_left_eq {S B} (f g : S -> B -> S) (l : list B) (s : S) :
  (forall s b, f s b = g s b) -> fold_left f l s = fold_left g l s.
Proof.
  intros Hfg; revert s; induction l as [|b l IH]; intros s; simpl;
    [reflexivity|].
  now rewrite Hfg, IH.
Qed.

Lemma fill_row (w y : nat) (cell_at : nat -> nat -> Cell) (row : list (option Cell)) :
  List.length row = w ->
  for_range w (fun x r => update x (fun _ => Some (cell_at x y)) r) row
  = map (fun x => Some (cell_at x y)) (seq 0 w).
Proof.
  intros Hrow. unfold for_range.
  apply (fold_update_seq (fun x _ => Some (cell_at x y))
           (fun x => Some (cell_at x y)) w 0%nat [] row); auto.
Qed.

Lemma fill_full (h w : nat) (cell_at : nat -> nat -> Cell) :
  fill h w cell_at (repeat (repeat None w) h) = full_grid h w cell_at.
Proof.
  unfold fill, full_grid, for_range.
  rewrite (fold_left_eq _
             (fun g y => update y
                (fun row => fold_left
                   (fun r x => update x (fun _ => Some (cell_at x y)) r)
                   (seq 0 w) row) g)).
  - apply (fold_update_seq _
             (fun y => map (fun x => Some (cell_at x y)) (seq 0 w))
             h 0%nat [] (repeat (repeat None w) h)).
    + reflexivity.
    + apply repeat_length.
    + intros y row Hrow. apply repeat_spec in Hrow. subst row.
      apply fill_row, repeat_length.
  - intros g y. unfold set_cell.
    apply (fold_update_at y (fun x => update x (fun _ => Some (cell_at x y)))).
Qed.

Lemma fill_ext (h w : nat) (f f' : nat -> nat -> Cell) (g : Grid) :
  (forall x y, f x y = f' x y) -> fill h w f g = fill h w f' g.
Proof.
  intros Hf. unfold fill, for_range.
  apply fold_left_eq. intros g' y. apply fold_left_eq. intros g'' x.
  now rewrite Hf.
Qed.

Lemma full_grid_nth (h w : nat) (cell_at : nat -> nat -> Cell) (x y : nat) :
  (x < w)%nat -> (y < h)%nat ->
  exists row, nth_error (full_grid h w cell_at) y = Some row
              /\ nth_error row x = Some (Some (cell_at x y)).
Proof.
  intros Hx Hy. unfold full_grid.
  exists (map (fun x => Some (cell_at x y)) (seq 0 w)). split.
  - rewrite nth_error_map, nth_error_seq.
    destruct (Nat.ltb_spec y h); [reflexivity|lia].
  - rewrite nth_error_map, nth_error_seq.
    destruct (Nat.ltb_spec x w); [reflexivity|lia].
Qed.

Lemma grid_at_full (h w : nat) (cell_at : nat -> nat -> Cell) (x y : nat) :
  (x < w)%nat -> (y < h)%nat ->
  grid_at (full_grid h w cell_at) x y = Some (cell_at x y).
Proof.
  intros Hx Hy. unfold grid_at.
  destruct (full_grid_nth h w cell_at x y Hx Hy) as (row & -> & ->). reflexivity.
Qed.

Lemma every_cell_full (P : Cell -> Prop) (h w : nat) (cell_at : nat -> nat -> Cell) :
  (forall x y, (x < w)%nat -> (y < h)%nat -> P (cell_at x y)) ->
  every_cell P (full_grid h w cell_at).
Proof.
  intros HP. unfold every_cell, full_grid.
  apply Forall_forall. intros row Hrow.
  apply in_map_iff in Hrow as (y & <- & Hy). apply in_seq in Hy.
  apply Forall_forall. intros c Hc.
  apply in_map_iff in Hc as (x & <- & Hx). apply in_seq in Hx.
  apply HP; lia.
Qed.

Lemma every_cell_impl (P Q : Cell -> Prop) (g : Grid) :
  (forall c, P c -> Q c) -> every_cell P g -> every_cell Q g.
Proof.
  intros HPQ. unfold every_cell. intros H.
  eapply Forall_impl; [|exact H]. intros row Hrow.
  eapply Forall_impl; [|exact Hrow]. intros [c|]; [apply HPQ|tauto].
Qed.

Lemma has_size_full (h w : nat) (cell_at : nat -> nat -> Cell) :
  has_size h w (full_grid h w cell_at).
Proof.
  unfold has_size, full_grid. split.
  - now rewrite length_map, length_seq.
  - apply Forall_forall. intros row Hrow.
    apply in_map_iff in Hrow as (y & <- & _).
    now rewrite length_map, length_seq.
Qed.

(** ** Decisions and integer parts of reals *)

Lemma Rlt_b_true (a b : R) : a < b -> Rlt_b a b = true.
Proof. intros H; unfold Rlt_b; destruct (Rlt_dec a b); [reflexivity|contradiction]. Qed.

Lemma Rlt_b_false (a b : R) : b <= a -> Rlt_b a b = false.
Proof. intros H; unfold Rlt_b; destruct (Rlt_dec a b); [lra|reflexivity]. Qed.

Lemma Req_b_true (a b : R) : a = b -> Req_b a b = true.
Proof. intros H; unfold Req_b; destruct (Req_dec_T a b); [reflexivity|contradiction]. Qed.

Lemma Req_b_false (a b : R) : a <> b -> Req_b a b = false.
Proof. intros H; unfold Req_b; destruct (Req_dec_T a b); [contradiction|reflexivity]. Qed.

Lemma Zfloor_INR (n : nat) : Zfloor (INR n) = Z.of_nat n.
Proof. rewrite INR_IZR_INZ; apply ZfloorZ. Qed.

Lemma Zfloor_nonneg (x : R) : 0 <= x -> (0 <= Zfloor x)%Z.
Proof. intros H; now apply Zfloor_lub. Qed.

Lemma Zfloor_half : Zfloor (0 + / 2) = 0%Z.
Proof. apply Zfloor_eq. lra. Qed.

Lemma Zceil_IZR (z : Z) : Zceil (IZR z) = z.
Proof. unfold Zceil. rewrite <- opp_IZR, ZfloorZ. lia. Qed.

Lemma Zfloor_div (k n : Z) : (0 < n)%Z -> Zfloor (IZR k / IZR n) = (k / n)%Z.
Proof.
  intros Hn. apply Zfloor_eq.
  pose proof (Z.div_mod k n ltac:(lia)) as Hk.
  pose proof (Z.mod_pos_bound k n Hn) as Hm.
  assert (Hn' : 0 < IZR n) by now apply IZR_lt.
  assert (Hk' : IZR k = IZR n * IZR (k / n) + IZR (k mod n)).
  { rewrite <- mult_IZR, <- plus_IZR. now f_equal. }
  assert (Hm0 : 0 <= IZR (k mod n)) by (apply IZR_le; lia).
  assert (Hm1 : IZR (k mod n) < IZR n) by (apply IZR_lt; lia).
  replace (IZR k / IZR n) with (IZR (k / n) + IZR (k mod n) / IZR n)
    by (rewrite Hk'; field; lra).
  assert (0 <= IZR (k mod n) / IZR n < 1).
  { split.
    - apply Rmult_le_pos; [assumption|]. left. now apply Rinv_0_lt_compat.
    - apply Rmult_lt_reg_r with (IZR n); [assumption|].
      unfold Rdiv. rewrite Rmult_assoc, Rinv_l by lra. lra. }
  lra.
Qed.

Lemma Rtrunc_div (k n : Z) : (0 < n)%Z -> Rtrunc (IZR k / IZR n) = Z.quot k n.
Proof.
  intros Hn. unfold Rtrunc.
  assert (Hn' : 0 < IZR n) by now apply IZR_lt.
  assert (Hi : 0 < / IZR n) by now apply Rinv_0_lt_compat.
  destruct (Z_lt_le_dec k 0) as [Hk|Hk].
  - assert (IZR k < 0) by now apply IZR_lt.
    rewrite Rlt_b_true by (unfold Rdiv; nra).
    unfold Zceil.
    replace (- (IZR k / IZR n)) with (IZR (- k) / IZR n)
      by (rewrite opp_IZR; field; lra).
    rewrite Zfloor_div by assumption.
    rewrite <- (Z.opp_involutive k) at 2.
    rewrite Z.quot_opp_l by lia.
    now rewrite Z.quot_div_nonneg by lia.
  - assert (0 <= IZR k) by now apply IZR_le.
    rewrite Rlt_b_false by (unfold Rdiv; nra).
    rewrite Zfloor_div by assumption.
    now rewrite Z.quot_div_nonneg by lia.
Qed.

Lemma Rmin_IZR (a b : Z) : Rmin (IZR a) (IZR b) = IZR (Z.min a b).
Proof.
  destruct (Z.le_ge_cases a b) as [H|H].
  - rewrite Rmin_left by now apply IZR_le. now rewrite Z.min_l.
  - rewrite Rmin_right by now apply IZR_le. now rewrite Z.min_r.
Qed.

Lemma Rmax_IZR (a b : Z) : Rmax (IZR a) (IZR b) = IZR (Z.max a b).
Proof.
  destruct (Z.max_spec a b) as [[H ->]|[H ->]].
  - apply Rmax_right. apply IZR_le. lia.
  - apply Rmax_left. apply IZR_le. lia.
Qed.

Lemma Rmax_cases (a b : R) :
  (a <= b /\ Rmax a b = b) \/ (b <= a /\ Rmax a b = a).
Proof.
  destruct (Rle_dec a b) as [H|H].
  - left. split; [assumption|now apply Rmax_right].
  - right. split; [lra|apply Rmax_left; lra].
Qed.


Lemma Rdiv_pos_pos (a b : R) : 0 < a -> 0 < b -> 0 < a / b.
Proof. intros; apply Rmult_lt_0_compat; [assumption|now apply Rinv_0_lt_compat]. Qed.

Lemma Rdiv_nonneg_pos (a b : R) : 0 <= a -> 0 < b -> 0 <= a / b.
Proof. intros; apply Rmult_le_pos; [assumption|left; now apply Rinv_0_lt_compat]. Qed.

Lemma eps_pos : 0 < / 10 ^ 10.
Proof. apply Rinv_0_lt_compat. lra. Qed.

Lemma eps_small : / 10 ^ 10 < / 2.
Proof. apply Rinv_lt_contravar; lra. Qed.

(** ** Arithmetic on finite numbers *)

Lemma div_fin (x y : R) : y <> 0 -> div (Fin x) (Fin y) = Fin (x / y).
Proof. intros H; simpl; now rewrite Req_b_false. Qed.

Lemma div_zero_pos (x : R) : 0 < x -> (Fin x / Fin 0)%js = PosInf.
Proof.
  intros H. simpl. rewrite Req_b_true by reflexivity.
  now rewrite Req_b_false, Rlt_b_true by lra.
Qed.

Lemma max_fin (x y : R) : Math.max (Fin x) (Fin y) = Fin (Rmax x y).
Proof.
  unfold Math.max, lt, Rlt_b, Rmax.
  destruct (Rlt_dec x y), (Rle_dec x y); try reflexivity; try lra.
  f_equal; lra.
Qed.

Lemma min_fin (x y : R) : Math.min (Fin x) (Fin y) = Fin (Rmin x y).
Proof.
  unfold Math.min, lt, Rlt_b, Rmin.
  destruct (Rlt_dec y x), (Rle_dec x y); try reflexivity; lra.
Qed.

Lemma sqrt_fin (x : R) : 0 <= x -> Math.sqrt (Fin x) = Fin (sqrt x).
Proof. intros H; simpl; now rewrite Rlt_b_false. Qed.

Lemma sqrt_squares_fin (a b : R) :
  Math.sqrt (Fin (a * a + b * b)) = Fin (sqrt (a * a + b * b)).
Proof. apply sqrt_fin. nra. Qed.

Lemma truthy_fin (x : R) : x <> 0 -> truthy (Fin x) = true.
Proof. intros H; simpl; now rewrite Req_b_false. Qed.



Lemma or_else_fin (x y : R) :
  or_else (Fin x) (Fin y) = Fin (if Req_b x 0 then y else x).
Proof. unfold or_else, truthy; now destruct (Req_b x 0). Qed.

Lemma add_fin x y : add (Fin x) (Fin y) = Fin (x + y). Proof. reflexivity. Qed.
Lemma sub_fin x y : sub (Fin x) (Fin y) = Fin (x - y). Proof. reflexivity. Qed.
Lemma mul_fin x y : mul (Fin x) (Fin y) = Fin (x * y). Proof. reflexivity. Qed.
Lemma neg_fin x : neg (Fin x) = Fin (- x). Proof. reflexivity. Qed.
Lemma abs_fin x : Math.abs (Fin x) = Fin (Rabs x). Proof. reflexivity. Qed.
Lemma cos_fin x : Math.cos (Fin x) = Fin (cos x). Proof. reflexivity. Qed.
Lemma sin_fin x : Math.sin (Fin x) = Fin (sin x). Proof. reflexivity. Qed.
Lemma floor_fin x : Math.floor (Fin x) = Fin (IZR (Zfloor x)). Proof. reflexivity. Qed.
Lemma ceil_fin x : Math.ceil (Fin x) = Fin (IZR (Zceil x)). Proof. reflexivity. Qed.
Lemma round_fin x : Math.round (Fin x) = Fin (IZR (Zfloor (x + / 2))). Proof. reflexivity. Qed.
Lemma atan2_fin y x : Math.atan2 (Fin y) (Fin x) = Fin (Math.Ratan2 y x). Proof. reflexivity. Qed.
Lemma PI_fin : Math.PI = Fin double_PI. Proof. reflexivity. Qed.

Lemma double_PI_bounds : 3 < double_PI < 4.
Proof. unfold double_PI. lra. Qed.
Lemma eps_fin : eps = Fin (/ 10 ^ 10). Proof. reflexivity. Qed.

Create Rewrite HintDb fin.
#[local] Hint Rewrite add_fin sub_fin mul_fin neg_fin abs_fin cos_fin sin_fin
  floor_fin ceil_fin round_fin atan2_fin PI_fin eps_fin max_fin min_fin : fin.

#[local] Hint Rewrite sqrt_squares_fin : fin.

Ltac side := first [lra | nra].

Ltac fin_eval :=
  unfold Math.max3;
  repeat first [ progress autorewrite with fin
               | rewrite div_fin by side
               | rewrite sqrt_fin by side ].

(** ** Magnitudes *)

Lemma moderate_pos (r : R) : moderate r -> 0 < r.
Proof.
  unfold moderate. intros [H _].
  assert (0 < / 10 ^ 6) by (apply Rinv_0_lt_compat; lra). lra.
Qed.

Lemma moderate_abs (r : R) : moderate (Rabs r) -> r <> 0.
Proof.
  intros H%moderate_pos E. rewrite E, Rabs_R0 in H. lra.
Qed.


Lemma moderate_10 : moderate 10.
Proof. unfold moderate. lra. Qed.

Lemma limited_0 : limited 0.
Proof. unfold limited. lra. Qed.

Lemma moderate_size_valid (layerThickness : option number) (numLayers : number) :
  moderate_size layerThickness numLayers -> valid_size layerThickness numLayers.
Proof.
  destruct layerThickness as [t|]; cbn.
  - intros (r & Hr & ->). exists r. split; [now apply moderate_pos|reflexivity].
  - intros (k & Hk & ->). exists k. split; [lia|reflexivity].
Qed.

(** ** The remainder *)

Lemma rem_fin (x y : R) : y <> 0 -> rem (Fin x) (Fin y) = Fin (Rrem x y).
Proof. intros H; simpl; now rewrite Req_b_false. Qed.

Lemma rem_zero (a : number) : rem a (Fin 0) = NaN.
Proof. destruct a; simpl; try reflexivity. now rewrite Req_b_true. Qed.

Lemma rem_int (k n : Z) :
  (0 < n)%Z -> rem (Fin (IZR k)) (Fin (IZR n)) = Fin (IZR (Z.rem k n)).
Proof.
  intros Hn. unfold rem.
  assert (Hn' : 0 < IZR n) by now apply IZR_lt.
  rewrite Req_b_false by lra. f_equal. unfold Rrem.
  rewrite Rtrunc_div by assumption.
  rewrite <- mult_IZR, <- minus_IZR. f_equal.
  pose proof (Z.quot_rem' k n). lia.
Qed.

(** The double remainder of line 177 is the mathematical modulo. *)
Lemma stripe_index_mod (z n : Z) :
  (0 < n)%Z ->
  rem (add (rem (Fin (IZR z)) (Fin (IZR n))) (Fin (IZR n))) (Fin (IZR n))
  = Fin (IZR (z mod n)).
Proof.
  intros Hn. rewrite rem_int by assumption. rewrite add_fin, <- plus_IZR.
  rewrite rem_int by assumption. do 2 f_equal.
  pose proof (Z.rem_bound_abs z n ltac:(lia)) as Hb.
  pose proof (Z.quot_rem' z n) as Hq.
  rewrite Z.rem_mod_nonneg by lia.
  replace (Z.rem z n + n)%Z with (Z.rem z n + 1 * n)%Z by lia.
  rewrite Z_mod_plus_full.
  rewrite Hq at 2. rewrite Z.add_comm, (Z.mul_comm n), Z_mod_plus_full.
  reflexivity.
Qed.

(** The remainder has the sign of the dividend and is smaller than the
    divisor. *)
Lemma Rrem_nonneg (x b : R) : 0 < b -> 0 <= x -> 0 <= Rrem x b < b.
Proof.
  intros Hb Hx. unfold Rrem, Rtrunc.
  rewrite Rlt_b_false by now apply Rdiv_nonneg_pos.
  pose proof (Zfloor_bound (x / b)) as [H1 H2].
  assert (Hxb : x / b * b = x) by (field; lra).
  nra.
Qed.

Lemma Rrem_nonpos (x b : R) : 0 < b -> x < 0 -> - b < Rrem x b <= 0.
Proof.
  intros Hb Hx. unfold Rrem, Rtrunc.
  assert (Hi : 0 < / b) by now apply Rinv_0_lt_compat.
  rewrite Rlt_b_true by (unfold Rdiv; nra).
  pose proof (Zceil_bound (x / b)) as [H1 H2].
  assert (Hxb : x / b * b = x) by (field; lra).
  nra.
Qed.

Lemma Rrem_fold (x b : R) : 0 < b -> 0 <= Rrem (Rrem x b + b) b < b.
Proof.
  intros Hb. apply Rrem_nonneg; [assumption|].
  destruct (Rlt_le_dec x 0) as [Hx|Hx].
  - pose proof (Rrem_nonpos x b Hb Hx). lra.
  - pose proof (Rrem_nonneg x b Hb Hx). lra.
Qed.

(** ** Arrays and allocation *)

Lemma length_of_IZR {A} (a : list A) : length_of a = Fin (IZR (Z.of_nat (List.length a))).
Proof. unfold length_of, of_nat. now rewrite INR_IZR_INZ. Qed.

Lemma index_IZR {A} (a : list A) (k : Z) :
  (0 <= k)%Z -> index a (Fin (IZR k)) = nth_error a (Z.to_nat k).
Proof.
  intros Hk. unfold index. rewrite ZfloorZ, Req_b_true by reflexivity.
  replace (0 <=? k)%Z with true by (symmetry; apply Z.leb_le; lia).
  reflexivity.
Qed.


Lemma array_length_of_nat (n : nat) :
  (Z.of_nat n < 2 ^ 32)%Z -> array_length (of_nat n) = Ok n.
Proof.
  intros H. unfold array_length, of_nat. rewrite Zfloor_INR.
  rewrite Req_b_true by (symmetry; apply INR_IZR_INZ).
  replace (0 <=? Z.of_nat n)%Z with true by (symmetry; apply Z.leb_le; lia).
  replace (Z.of_nat n <? 2 ^ 32)%Z with true by (symmetry; apply Z.ltb_lt; lia).
  simpl. now rewrite Nat2Z.id.
Qed.

Lemma array_length_IZR (z : Z) :
  (0 <= z < 2 ^ 32)%Z -> array_length (Fin (IZR z)) = Ok (Z.to_nat z).
Proof.
  intros H. unfold array_length. rewrite ZfloorZ, Req_b_true by reflexivity.
  replace (0 <=? z)%Z with true by (symmetry; apply Z.leb_le; lia).
  replace (z <? 2 ^ 32)%Z with true by (symmetry; apply Z.ltb_lt; lia).
  reflexivity.
Qed.

Lemma array_length_cases (n : number) :
  array_length n = Throw RangeError \/ exists k, array_length n = Ok k.
Proof.
  destruct n as [| |r|]; simpl; auto.
  destruct (_ && _); eauto.
Qed.

(** The allocation either throws or gives [h] rows of [w] nulls. *)
Lemma new_grid_cases (height width : number) :
  new_grid height width = Throw RangeError
  \/ exists h w, new_grid height width = Ok (h, w, repeat (repeat None w) h).
Proof.
  unfold new_grid.
  destruct (array_length_cases height) as [->|[h ->]]; simpl; auto.
  destruct h as [|h]; [right; now exists 0%nat, 0%nat|].
  destruct (array_length_cases width) as [->|[w ->]]; simpl; auto.
  right; now exists (S h), w.
Qed.

Lemma new_grid_of_nat (h w : nat) :
  (Z.of_nat h < 2 ^ 32)%Z -> (Z.of_nat w < 2 ^ 32)%Z ->
  exists w', new_grid (of_nat h) (of_nat w) = Ok (h, w', repeat (repeat None w') h)
             /\ (h <> 0%nat -> w' = w).
Proof.
  intros Hh Hw. unfold new_grid. rewrite array_length_of_nat by assumption.
  cbn [bind]. destruct h as [|h].
  - exists 0%nat; split; [reflexivity|congruence].
  - rewrite array_length_of_nat by assumption. cbn [bind].
    exists w; split; [reflexivity|reflexivity].
Qed.

Lemma new_grid_IZR (h w : Z) :
  (0 < h < 2 ^ 32)%Z -> (0 <= w < 2 ^ 32)%Z ->
  new_grid (Fin (IZR h)) (Fin (IZR w))
  = Ok (Z.to_nat h, Z.to_nat w, repeat (repeat None (Z.to_nat w)) (Z.to_nat h)).
Proof.
  intros Hh Hw. unfold new_grid. rewrite array_length_IZR by lia. cbn [bind].
  destruct (Z.to_nat h) eqn:E; [lia|].
  now rewrite array_length_IZR by lia.
Qed.

Lemma new_grid_dims (h0 w0 h w : nat) (g : Grid) :
  valid_dim h0 -> valid_dim w0 ->
  new_grid (of_nat h0) (of_nat w0) = Ok (h, w, g) -> h = h0 /\ w = w0.
Proof.
  intros [Hh0 Hh] [Hw0 Hw] E.
  destruct (new_grid_of_nat h0 w0 Hh Hw) as (w' & Hg & Hw').
  rewrite Hg in E. injection E as <- <- _. split; [reflexivity|]. apply Hw'. lia.
Qed.

(** What [new_grid] and [fill] give on valid dimensions. *)
Lemma grid_of_valid_dims (h w : nat) (cell_at : nat -> nat -> Cell) :
  valid_dim h -> valid_dim w ->
  exists g, new_grid (of_nat h) (of_nat w) = Ok (h, w, g)
            /\ fill h w cell_at g = full_grid h w cell_at.
Proof.
  intros [Hh0 Hh] [Hw0 Hw].
  destruct (new_grid_of_nat h w Hh Hw) as (w' & Hg & Hw').
  rewrite Hw' in Hg by lia.
  eexists; split; [exact Hg|apply fill_full].
Qed.

(** ** What the generators return *)

Ltac valid_grid generator Hh Hw :=
  let g := fresh "g" in
  let Hg := fresh "Hg" in
  let Hfill := fresh "Hfill" in
  unfold generator;
  match goal with
  | |- context [fill _ _ ?cell_at _] =>
      destruct (grid_of_valid_dims _ _ cell_at Hh Hw) as (g & Hg & Hfill)
  end;
  rewrite Hg; cbn [bind]; rewrite Hfill;
  eexists; split; [reflexivity|cbn [Pattern.grid Pattern.numSquares Pattern.numLayers]].

Lemma generateConcentricSquares_valid (h w : nat) numSquares colors ratioX ratioY
  layerThickness tilt offsetX offsetY :
  valid_dim h -> valid_dim w ->
  exists p,
    generateConcentricSquares (of_nat w) (of_nat h) numSquares colors ratioX ratioY
      layerThickness tilt offsetX offsetY = Ok p
    /\ Pattern.grid p
       = full_grid h w (squares_cell (of_nat w) (of_nat h) numSquares colors ratioX ratioY
                          layerThickness tilt offsetX offsetY).
Proof.
  intros Hh Hw. valid_grid generateConcentricSquares Hh Hw. reflexivity.
Qed.

Lemma generateStripes_valid (h w : nat) stripeWidth colors tilt offsetX offsetY :
  valid_dim h -> valid_dim w ->
  exists p,
    generateStripes (of_nat w) (of_nat h) stripeWidth colors tilt offsetX offsetY = Ok p
    /\ Pattern.grid p
       = full_grid h w (stripes_cell (of_nat w) (of_nat h) stripeWidth colors tilt
                          offsetX offsetY).
Proof.
  intros Hh Hw. valid_grid generateStripes Hh Hw. reflexivity.
Qed.

Lemma generateIsometricCubes_valid (h w : nat) cubeSize colors offsetX offsetY :
  valid_dim h -> valid_dim w ->
  exists p,
    generateIsometricCubes (of_nat w) (of_nat h) cubeSize colors offsetX offsetY = Ok p
    /\ Pattern.grid p
       = full_grid h w (cubes_cell (of_nat w) (of_nat h) cubeSize colors offsetX offsetY).
Proof.
  intros Hh Hw. valid_grid generateIsometricCubes Hh Hw. reflexivity.
Qed.

Lemma generateConcentricCircles_valid (h w : nat) numLayers colors ratioX ratioY
  layerThickness tilt offsetX offsetY :
  valid_dim h -> valid_dim w ->
  exists p,
    generateConcentricCircles (of_nat w) (of_nat h) numLayers colors ratioX ratioY
      layerThickness tilt offsetX offsetY = Ok p
    /\ Pattern.grid p
       = full_grid h w (circles_cell (of_nat w) (of_nat h) numLayers colors ratioX ratioY
                          layerThickness tilt offsetX offsetY).
Proof.
  intros Hh Hw. valid_grid generateConcentricCircles Hh Hw. reflexivity.
Qed.

Lemma generateConcentricPolygons_valid (h w : nat) numSides numLayers colors ratioX ratioY
  layerThickness tilt offsetX offsetY :
  valid_dim h -> valid_dim w ->
  exists p,
    generateConcentricPolygons (of_nat w) (of_nat h) numSides numLayers colors
      ratioX ratioY layerThickness tilt offsetX offsetY = Ok p
    /\ Pattern.grid p
       = full_grid h w (polygons_cell (of_nat w) (of_nat h) numSides numLayers colors
                          ratioX ratioY layerThickness tilt offsetX offsetY).
Proof.
  intros Hh Hw. valid_grid generateConcentricPolygons Hh Hw. reflexivity.
Qed.




Ltac built_tac generator :=
  unfold built, generator;
  match goal with
  | |- context [new_grid ?H ?W] =>
      let E := fresh "E" in
      let h := fresh "h" in
      let w := fresh "w" in
      destruct (new_grid_cases H W) as [E|(h & w & E)]; rewrite E; cbn [bind];
      [ left; split; reflexivity
      | right; rewrite fill_full; exists h, w; eexists;
        split; [reflexivity|split; [reflexivity|]];
        intros h0 w0 Hh0 Hw0 -> ->; now apply (new_grid_dims h0 w0 h w _ Hh0 Hw0 E) ]
  end.

Lemma generateConcentricSquares_built width height numSquares colors ratioX ratioY
  layerThickness tilt offsetX offsetY :
  built height width
    (squares_cell width height numSquares colors ratioX ratioY layerThickness tilt
       offsetX offsetY)
    (generateConcentricSquares width height numSquares colors ratioX ratioY
       layerThickness tilt offsetX offsetY).
Proof. built_tac generateConcentricSquares. Qed.

Lemma generateStripes_built width height stripeWidth colors tilt offsetX offsetY :
  built height width
    (stripes_cell width height stripeWidth colors tilt offsetX offsetY)
    (generateStripes width height stripeWidth colors tilt offsetX offsetY).
Proof. built_tac generateStripes. Qed.

Lemma generateIsometricCubes_built width height cubeSize colors offsetX offsetY :
  built height width
    (cubes_cell width height cubeSize colors offsetX offsetY)
    (generateIsometricCubes width height cubeSize colors offsetX offsetY).
Proof. built_tac generateIsometricCubes. Qed.

Lemma generateConcentricCircles_built width height numLayers colors ratioX ratioY
  layerThickness tilt offsetX offsetY :
  built height width
    (circles_cell width height numLayers colors ratioX ratioY layerThickness tilt
       offsetX offsetY)
    (generateConcentricCircles width height numLayers colors ratioX ratioY
       layerThickness tilt offsetX offsetY).
Proof. built_tac generateConcentricCircles. Qed.

Lemma generateConcentricPolygons_built width height numSides numLayers colors
  ratioX ratioY layerThickness tilt offsetX offsetY :
  built height width
    (polygons_cell width height numSides numLayers colors ratioX ratioY layerThickness
       tilt offsetX offsetY)
    (generateConcentricPolygons width height numSides numLayers colors ratioX ratioY
       layerThickness tilt offsetX offsetY).
Proof. built_tac generateConcentricPolygons. Qed.

(** ** Levels and cells *)



Lemma actual_layers_thickness (t M n : number) :
  truthy t = true ->
  actual_layers (Some t) M n = Math.max (Fin 1) (Math.ceil ((M + t / Fin 2) / t)).
Proof. intros H. unfold actual_layers. now rewrite H. Qed.


(** In a valid sizing the level of a non-negative distance is a natural
    number. *)
Lemma level_of_natural (layerThickness : option number) (numLayers : number) (M d : R) :
  valid_size layerThickness numLayers -> 0 <= M -> 0 <= d ->
  exists k : Z, level_of layerThickness (Fin M) numLayers (Fin d) = Fin (IZR k)
                /\ (0 <= k)%Z.
Proof.
  intros Hsize HM Hd. destruct layerThickness as [t|]; simpl in Hsize.
  - destruct Hsize as (r & Hr & ->). unfold level_of.
    rewrite truthy_fin by lra. unfold thickness_level.
    fin_eval. eexists; split; [reflexivity|].
    apply Zfloor_nonneg, Rdiv_nonneg_pos; lra.
  - destruct Hsize as (k & Hk & ->). unfold level_of, count_level. cbv zeta.
    rewrite or_else_fin.
    assert (HM' : 0 < (if Req_b M 0 then 1 else M)).
    { unfold Req_b; destruct (Req_dec_T M 0); lra. }
    fin_eval.
    replace (IZR k - 1) with (IZR (k - 1)) by now rewrite minus_IZR.
    rewrite Rmin_IZR. eexists; split; [reflexivity|].
    apply Z.min_glb; [|lia].
    apply Zfloor_nonneg, Rmult_le_pos.
    + apply Rdiv_nonneg_pos; lra.
    + apply IZR_le; lia.
Qed.

(** The count-mode level when the distance and the largest distance are
    known. *)
Lemma count_level_fin (M d : R) (n k : Z) :
  0 < M -> IZR k * M <= d * IZR n < (IZR k + 1) * M ->
  count_level (Fin M) (Fin (IZR n)) (Fin d) = Fin (IZR (Z.min k (n - 1))).
Proof.
  intros HM Hk. unfold count_level. cbv zeta.
  rewrite or_else_fin, Req_b_false by lra.
  fin_eval.
  replace (IZR n - 1) with (IZR (n - 1)) by now rewrite minus_IZR.
  rewrite Rmin_IZR. do 3 f_equal.
  apply Zfloor_eq.
  assert (Hi : 0 < / M) by now apply Rinv_0_lt_compat.
  assert (He : d / M * IZR n = d * IZR n * / M) by (unfold Rdiv; ring).
  rewrite He. split.
  - apply Rmult_le_reg_r with M; [assumption|].
    rewrite Rmult_assoc, Rinv_l by lra. lra.
  - apply Rmult_lt_reg_r with M; [assumption|].
    rewrite Rmult_assoc, Rinv_l by lra. lra.
Qed.



(** Cycling a natural level through a non-empty palette gives an index of the
    palette. *)
Lemma cell_of_rem (colors : list string) (k : Z) :
  colors <> [] -> (0 <= k)%Z ->
  let c := cell_of colors (rem (Fin (IZR k)) (length_of colors)) in
  level_in 0 (Z.of_nat (List.length colors)) c /\ color c <> None.
Proof.
  intros Hne Hk.
  assert (Hlen : (0 < Z.of_nat (List.length colors))%Z).
  { destruct colors; [congruence|simpl; lia]. }
  rewrite length_of_IZR, rem_int by assumption.
  rewrite Z.rem_mod_nonneg by lia.
  pose proof (Z.mod_pos_bound k _ Hlen) as Hm.
  cbv zeta. unfold cell_of, level_in; cbn [level color]. split.
  - eexists; split; [reflexivity|lia].
  - rewrite index_IZR by lia. apply nth_error_Some. lia.
Qed.

(** Cycling a natural level through the palette. *)
Lemma cell_of_cycle (colors : list string) (k : Z) :
  colors <> [] -> (0 <= k)%Z ->
  cell_of colors (rem (Fin (IZR k)) (length_of colors))
  = {| color := nth_error colors (Z.to_nat (k mod Z.of_nat (List.length colors)));
       level := Fin (IZR (k mod Z.of_nat (List.length colors))) |}.
Proof.
  intros Hne Hk.
  assert (Hlen : (0 < Z.of_nat (List.length colors))%Z).
  { destruct colors; [congruence|simpl; lia]. }
  rewrite length_of_IZR, rem_int by assumption.
  rewrite Z.rem_mod_nonneg by lia.
  pose proof (Z.mod_pos_bound k _ Hlen) as Hm.
  unfold cell_of. now rewrite index_IZR by lia.
Qed.



(** With no color every index is NaN and every color [undefined]. *)
Lemma cell_of_no_color (level : number) :
  cell_of [] (level %% length_of (@nil string)) = {| color := None; level := NaN |}.
Proof. change (length_of (@nil string)) with (Fin 0). now rewrite rem_zero. Qed.

Lemma level_in_weaken (lo hi hi' : Z) (c : Cell) :
  (hi <= hi')%Z -> level_in lo hi c -> level_in lo hi' c.
Proof. intros H (k & Hk & Hr). exists k; split; [assumption|lia]. Qed.

Lemma level_in_inv (lo hi : Z) (c : Cell) (k : Z) :
  level c = Fin (IZR k) -> level_in lo hi c -> (lo <= k < hi)%Z.
Proof.
  intros Hk (k' & Hk' & Hr). rewrite Hk in Hk'.
  injection Hk' as Hk'. apply eq_IZR in Hk'. lia.
Qed.

(** ** [Math.PI] and the real number pi *)








(** ** Distances *)

Lemma squares_distance_pos (w h rX rY t ox oy x y : R) :
  0 < rX -> 0 < rY ->
  exists d, squares_distance (Fin w) (Fin h) (Fin rX) (Fin rY) (Fin t) (Fin ox) (Fin oy)
              (Fin x) (Fin y) = Fin d /\ 0 < d.
Proof.
  intros HX HY. unfold squares_distance. cbv zeta.
  fin_eval.
  eexists; split; [reflexivity|].
  pose proof eps_pos.
  match goal with |- 0 < Rmax ((Rabs ?a + _) / _) _ => pose proof (Rabs_pos a) end.
  apply Rlt_le_trans with (2 := Rmax_l _ _).
  apply Rdiv_pos_pos; lra.
Qed.

Lemma squares_maxDistance_pos (w h rX rY t ox oy : R) :
  0 < rX -> 0 < rY ->
  exists M, squares_maxDistance (Fin w) (Fin h) (Fin rX) (Fin rY) (Fin t) (Fin ox) (Fin oy)
            = Fin M /\ 0 < M.
Proof.
  intros HX HY. unfold squares_maxDistance, corners. cbv zeta.
  cbn [fold_left fst snd]. fin_eval.
  eexists; split; [reflexivity|].
  pose proof eps_pos.
  apply Rlt_le_trans with (2 := Rmax_r _ _).
  match goal with |- 0 < (Rabs ?a + _) / _ => pose proof (Rabs_pos a) end.
  apply Rdiv_pos_pos; lra.
Qed.

(** Lines 58-66 compute the largest [squares_distance] of the four corners. *)
Lemma squares_maxDistance_corners (w h rX rY t ox oy : R) :
  (0 < rX) -> (0 < rY) ->
  exists d0 d1 d2 d3 : R,
    squares_distance (Fin w) (Fin h) (Fin rX) (Fin rY) (Fin t) (Fin ox) (Fin oy)
      (Fin 0) (Fin 0) = Fin d0
    /\ squares_distance (Fin w) (Fin h) (Fin rX) (Fin rY) (Fin t) (Fin ox) (Fin oy)
         (Fin (w - 1)) (Fin 0) = Fin d1
    /\ squares_distance (Fin w) (Fin h) (Fin rX) (Fin rY) (Fin t) (Fin ox) (Fin oy)
         (Fin 0) (Fin (h - 1)) = Fin d2
    /\ squares_distance (Fin w) (Fin h) (Fin rX) (Fin rY) (Fin t) (Fin ox) (Fin oy)
         (Fin (w - 1)) (Fin (h - 1)) = Fin d3
    /\ (0 < d0)
    /\ squares_maxDistance (Fin w) (Fin h) (Fin rX) (Fin rY) (Fin t) (Fin ox) (Fin oy)
       = Fin (Rmax (Rmax (Rmax (Rmax 0 d0) d1) d2) d3).
Proof.
  intros HX HY.
  destruct (squares_distance_pos w h rX rY t ox oy 0 0 HX HY) as (d0 & H0 & Hd0).
  unfold squares_maxDistance, corners, squares_distance in *. cbv zeta in *.
  cbn [fold_left fst snd]. revert H0. fin_eval. intros H0.
  injection H0 as H0. subst d0.
  do 4 eexists. repeat (split; [reflexivity|]). split; [assumption|].
  f_equal. now rewrite !Rmax_assoc.
Qed.

Lemma squares_distance_fin (w h rX rY t ox oy x y : R) :
  0 < rX -> 0 < rY ->
  squares_distance (Fin w) (Fin h) (Fin rX) (Fin rY) (Fin t) (Fin ox) (Fin oy)
    (Fin x) (Fin y)
  = Fin (Rsquares_distance w h rX rY t ox oy x y).
Proof.
  intros HX HY. unfold squares_distance, Rsquares_distance. cbv zeta.
  fin_eval. reflexivity.
Qed.

Lemma squares_maxDistance_fin (w h rX rY t ox oy : R) :
  0 < rX -> 0 < rY ->
  squares_maxDistance (Fin w) (Fin h) (Fin rX) (Fin rY) (Fin t) (Fin ox) (Fin oy)
  = Fin (Rmax (Rmax (Rmax (Rmax 0
           (Rsquares_distance w h rX rY t ox oy 0 0))
           (Rsquares_distance w h rX rY t ox oy (w - 1) 0))
           (Rsquares_distance w h rX rY t ox oy 0 (h - 1)))
           (Rsquares_distance w h rX rY t ox oy (w - 1) (h - 1))).
Proof.
  intros HX HY.
  destruct (squares_maxDistance_corners w h rX rY t ox oy HX HY)
    as (d0 & d1 & d2 & d3 & H0 & H1 & H2 & H3 & _ & ->).
  rewrite squares_distance_fin in H0, H1, H2, H3 by assumption.
  congruence.
Qed.

Lemma circles_distance_nonneg (w h rX rY t ox oy x y : R) :
  0 < rX -> 0 < rY ->
  exists d, circles_distance (Fin w) (Fin h) (Fin rX) (Fin rY) (Fin t) (Fin ox) (Fin oy)
              (Fin x) (Fin y) = Fin d /\ 0 <= d.
Proof.
  intros HX HY. unfold circles_distance. cbv zeta.
  fin_eval.
  eexists; split; [reflexivity|apply sqrt_pos].
Qed.

Lemma circles_maxDistance_nonneg (w h rX rY t ox oy : R) :
  0 < rX -> 0 < rY ->
  exists M, circles_maxDistance (Fin w) (Fin h) (Fin rX) (Fin rY) (Fin t) (Fin ox) (Fin oy)
            = Fin M /\ 0 <= M.
Proof.
  intros HX HY. unfold circles_maxDistance, corners. cbv zeta.
  cbn [fold_left fst snd]. fin_eval.
  eexists; split; [reflexivity|].
  apply Rle_trans with (2 := Rmax_r _ _), sqrt_pos.
Qed.

Lemma polygon_metric_nonneg (s rx ry : R) :
  exists d, polygon_metric (Fin s) (Fin rx) (Fin ry) = Fin d /\ 0 <= d.
Proof.
  unfold polygon_metric. cbv zeta.
  pose proof double_PI_bounds as HPI. pose proof PI2_3_2 as HPI2.
  assert (Hs : 3 <= Rmax 3 s) by apply Rmax_l.
  assert (Ha : 0 < 2 * double_PI / Rmax 3 s) by (apply Rdiv_pos_pos; lra).
  assert (Ha' : 2 * double_PI / Rmax 3 s <= 8 / 3).
  { apply Rmult_le_reg_r with (Rmax 3 s); [lra|].
    unfold Rdiv. rewrite Rmult_assoc, Rinv_l by lra. nra. }
  fin_eval.
  rewrite rem_fin by lra. fin_eval.
  rewrite rem_fin by lra. fin_eval.
  eexists; split; [reflexivity|].
  apply Rmult_le_pos; [apply sqrt_pos|].
  pose proof (Rrem_fold (Math.Ratan2 ry rx) _ Ha).
  apply cos_ge_0; lra.
Qed.

Lemma polygons_distance_nonneg (w h s rX rY t ox oy x y : R) :
  0 < rX -> 0 < rY ->
  exists d, polygons_distance (Fin w) (Fin h) (Fin s) (Fin rX) (Fin rY) (Fin t)
              (Fin ox) (Fin oy) (Fin x) (Fin y) = Fin d /\ 0 <= d.
Proof.
  intros HX HY. unfold polygons_distance. cbv zeta.
  fin_eval. apply polygon_metric_nonneg.
Qed.

Lemma polygons_maxDistance_nonneg (w h s rX rY t ox oy : R) :
  0 < rX -> 0 < rY ->
  exists M, polygons_maxDistance (Fin w) (Fin h) (Fin s) (Fin rX) (Fin rY) (Fin t)
              (Fin ox) (Fin oy) = Fin M /\ 0 <= M.
Proof.
  intros HX HY. unfold polygons_maxDistance, corners. cbv zeta.
  cbn [fold_left fst snd]. fin_eval.
  repeat match goal with
  | |- context [polygon_metric (Fin s) (Fin ?a) (Fin ?b)] =>
      let d := fresh "d" in
      let Hd := fresh "Hd" in
      destruct (polygon_metric_nonneg s a b) as (d & Hd & _); rewrite Hd
  end.
  fin_eval.
  eexists; split; [reflexivity|].
  repeat (apply Rle_trans with (2 := Rmax_l _ _)). lra.
Qed.

Lemma stripes_pos_integer (w h sw t ox oy x y : R) :
  sw <> 0 ->
  exists z : Z, stripes_pos (Fin w) (Fin h) (Fin sw) (Fin t) (Fin ox) (Fin oy)
                  (Fin x) (Fin y) = Fin (IZR z).
Proof.
  intros Hsw. unfold stripes_pos. cbv zeta. fin_eval.
  eexists; reflexivity.
Qed.

Lemma face_of_cases (angle : number) :
  face_of angle = Fin 0 \/ face_of angle = Fin 1 \/ face_of angle = Fin 2.
Proof.
  unfold face_of.
  destruct (_ && _); [now left|].
  destruct (_ && _); [right; now left|right; now right].
Qed.

(** The rounding of finite hexagon coordinates. *)
Lemma cube_round_integers (q r : R) :
  exists a b c : Z,
    cube_round (Fin q) (Fin r) = (of_Z a, of_Z b, of_Z c) /\ (a + b + c = 0)%Z.
Proof.
  unfold cube_round. cbv zeta. fin_eval.
  set (a := Zfloor (q + / 2)). set (b := Zfloor (r + / 2)).
  set (c := Zfloor (- q - r + / 2)).
  destruct (_ && _).
  - exists (- b - c)%Z, b, c. split; [|lia].
    unfold of_Z. now rewrite minus_IZR, opp_IZR.
  - destruct (gt _ _).
    + exists a, (- a - c)%Z, c. split; [|lia].
      unfold of_Z. now rewrite minus_IZR, opp_IZR.
    + exists a, b, (- a - b)%Z. split; [|lia].
      unfold of_Z. now rewrite minus_IZR, opp_IZR.
Qed.

(** ** Concrete grids *)

Lemma valid_dim_1 : valid_dim 1.
Proof. split; [lia|reflexivity]. Qed.


Lemma scenario_maxDistance :
  squares_maxDistance (Fin 3) (Fin 3) (Fin 1) (Fin 1) (Fin 0) (Fin 0) (Fin 0)
  = Fin (1 + / 10 ^ 10).
Proof.
  unfold squares_maxDistance, corners. cbv zeta. cbn [fold_left fst snd].
  fin_eval.
  replace (0 * double_PI / 180) with 0 by lra. rewrite cos_0, sin_0.
  f_equal. pose proof eps_pos.
  repeat match goal with
  | |- context [Rabs ?e] =>
      first [ replace (Rabs e) with 1 by (unfold Rabs; destruct (Rcase_abs e); lra) ]
  end.
  replace ((1 + / 10 ^ 10) / 1) with (1 + / 10 ^ 10) by lra.
  rewrite (Rmax_right 0 (1 + / 10 ^ 10)) by lra.
  repeat rewrite (Rmax_right (1 + / 10 ^ 10) (1 + / 10 ^ 10)) by lra.
  reflexivity.
Qed.

Lemma scenario_distance (x y : nat) :
  squares_distance (Fin 3) (Fin 3) (Fin 1) (Fin 1) (Fin 0) (Fin 0) (Fin 0)
    (of_nat x) (of_nat y)
  = Fin (Rmax (Rabs (INR x - 1) + / 10 ^ 10) (Rabs (INR y - 1) + / 10 ^ 10)).
Proof.
  unfold squares_distance, of_nat. cbv zeta.
  fin_eval.
  replace (0 * double_PI / 180) with 0 by lra. rewrite cos_0, sin_0.
  f_equal. f_equal.
  - replace ((INR x - ((3 - 1) / 2 + 0)) * 1 + (INR y - ((3 - 1) / 2 + 0)) * 0)
      with (INR x - 1) by lra. lra.
  - replace (- (INR x - ((3 - 1) / 2 + 0)) * 0 + (INR y - ((3 - 1) / 2 + 0)) * 1)
      with (INR y - 1) by lra. lra.
Qed.

Lemma scenario_cell (x y : nat) :
  (x <= 2)%nat -> (y <= 2)%nat ->
  Some (squares_cell (Fin 3) (Fin 3) (Fin 2) ["red"; "blue"]%string (Fin 1) (Fin 1) None
          (Fin 0) (Fin 0) (Fin 0) x y)
  = if (x =? 1)%nat && (y =? 1)%nat then red_cell else blue_cell.
Proof.
  intros Hx Hy. unfold squares_cell. cbv zeta.
  rewrite scenario_maxDistance, scenario_distance.
  unfold level_of. pose proof eps_pos as He.
  assert (Hcases : ((x = 1 /\ y = 1) \/ (x <> 1 \/ y <> 1))%nat) by lia.
  destruct Hcases as [[-> ->]|Hring].
  - rewrite (count_level_fin _ _ 2 0).
    + change (Z.min 0 (2 - 1)) with 0%Z.
      rewrite cell_of_cycle by (discriminate || lia). reflexivity.
    + lra.
    + simpl INR. replace (1 - 1) with 0 by lra.
      rewrite Rabs_R0, Rmax_left by lra. pose proof eps_small. lra.
  - assert (Hd : Rmax (Rabs (INR x - 1) + / 10 ^ 10) (Rabs (INR y - 1) + / 10 ^ 10)
                 = 1 + / 10 ^ 10).
    { assert (Hx' : (x = 0 \/ x = 1 \/ x = 2)%nat) by lia.
      assert (Hy' : (y = 0 \/ y = 1 \/ y = 2)%nat) by lia.
      destruct Hx' as [->|[->| ->]], Hy' as [->|[->| ->]];
        try (exfalso; lia); simpl INR;
        unfold Rmax, Rabs;
        repeat match goal with
        | |- context [Rcase_abs ?e] => destruct (Rcase_abs e)
        | |- context [Rle_dec ?a ?b] => destruct (Rle_dec a b)
        end; lra. }
    rewrite Hd, (count_level_fin _ _ 2 2).
    + change (Z.min 2 (2 - 1)) with 1%Z.
      rewrite cell_of_cycle by (discriminate || lia).
      replace ((x =? 1)%nat && (y =? 1)%nat) with false; [reflexivity|].
      symmetry. apply andb_false_iff.
      destruct Hring; [left|right]; now apply Nat.eqb_neq.
    + lra.
    + lra.
Qed.




Lemma cube_round_origin : cube_round (Fin 0) (Fin 0) = (Fin 0, Fin 0, Fin 0).
Proof.
  unfold cube_round. cbv zeta. fin_eval.
  replace (- 0 - 0) with 0 by lra. rewrite Zfloor_half.
  unfold gt, lt. rewrite !Rlt_b_false by lra. cbn [andb].
  now replace (- 0 - 0) with 0 by lra.
Qed.

Lemma Ratan2_origin : Math.Ratan2 0 0 = 0.
Proof. unfold Math.Ratan2. now rewrite !Rlt_b_false by lra. Qed.

Lemma face_of_zero : face_of (Fin 0) = Fin 1.
Proof.
  unfold face_of, ge, lt.
  rewrite (Rlt_b_false 0 (-150)), (Rlt_b_false 0 (-30)), (Rlt_b_true 0 90) by lra.
  reflexivity.
Qed.

Lemma cubes_face_1x1 :
  cubes_face (Fin 1) (Fin 1) (Fin 2) (Fin 0) (Fin 0) (Fin 0) (Fin 0) = Fin 1.
Proof.
  unfold cubes_face, cubes_hex. cbv zeta.
  rewrite max_fin. replace (Rmax 2 2) with 2 by (symmetry; apply Rmax_left; lra).
  fin_eval.
  replace ((sqrt 3 / 3 * (0 - ((1 - 1) / 2 + 0)) - 1 / 3 * (0 - ((1 - 1) / 2 + 0))) / 2)
    with 0 by lra.
  replace (2 / 3 * (0 - ((1 - 1) / 2 + 0)) / 2) with 0 by lra.
  rewrite cube_round_origin. fin_eval.
  replace (0 - ((1 - 1) / 2 + 0) - 2 * 3 / 2 * 0) with 0 by lra.
  replace (0 - ((1 - 1) / 2 + 0) - 2 * sqrt 3 * (0 + 0 / 2)) with 0 by lra.
  rewrite Ratan2_origin. 
  rewrite div_fin by (pose proof double_PI_bounds; lra).
  replace (0 * 180 / double_PI) with 0 by (pose proof double_PI_bounds; field; lra).
  apply face_of_zero.
Qed.

Lemma squares_distance_ratio_0 (x y : R) :
  squares_distance (Fin 1) (Fin 1) (Fin 0) (Fin 1) (Fin 0) (Fin 0) (Fin 0) (Fin x) (Fin y)
  = PosInf.
Proof.
  unfold squares_distance. cbv zeta.
  autorewrite with fin.
  rewrite (div_fin _ 2), (div_fin _ 180) by lra. autorewrite with fin.
  rewrite div_zero_pos, (div_fin _ 1) by (try lra; pose proof eps_pos;
    match goal with |- (0 < Rabs ?e + _) => pose proof (Rabs_pos e) end; lra).
  reflexivity.
Qed.

Lemma squares_maxDistance_ratio_0 :
  squares_maxDistance (Fin 1) (Fin 1) (Fin 0) (Fin 1) (Fin 0) (Fin 0) (Fin 0) = PosInf.
Proof.
  unfold squares_maxDistance, corners. cbv zeta. cbn [fold_left fst snd].
  autorewrite with fin.
  rewrite (div_fin _ 2), (div_fin _ 180) by lra. autorewrite with fin.
  rewrite !div_zero_pos, !(div_fin _ 1) by (try lra; pose proof eps_pos;
    match goal with |- (0 < Rabs ?e + _) => pose proof (Rabs_pos e) end; lra).
  reflexivity.
Qed.

(** ** C1: the range of the levels *)

Lemma squares_cell_level (w h : R) numSquares colors (rX rY : R) layerThickness
  (t ox oy : R) (x y : nat) :
  0 < rX -> 0 < rY -> valid_size layerThickness numSquares -> colors <> [] ->
  level_in 0 (Z.of_nat (List.length colors))
    (squares_cell (Fin w) (Fin h) numSquares colors (Fin rX) (Fin rY) layerThickness
       (Fin t) (Fin ox) (Fin oy) x y).
Proof.
  intros HX HY Hsize Hne. unfold squares_cell. cbv zeta.
  destruct (squares_distance_pos w h rX rY t ox oy (INR x) (INR y) HX HY)
    as (d & Hd & Hd0).
  destruct (squares_maxDistance_pos w h rX rY t ox oy HX HY) as (M & HM & HM0).
  unfold of_nat. rewrite Hd, HM.
  destruct (level_of_natural layerThickness numSquares M d Hsize) as (k & Hk & Hk0);
    try lra.
  rewrite Hk. now apply cell_of_rem.
Qed.

Lemma circles_cell_level (w h : R) numLayers colors (rX rY : R) layerThickness
  (t ox oy : R) (x y : nat) :
  0 < rX -> 0 < rY -> valid_size layerThickness numLayers -> colors <> [] ->
  level_in 0 (Z.of_nat (List.length colors))
    (circles_cell (Fin w) (Fin h) numLayers colors (Fin rX) (Fin rY) layerThickness
       (Fin t) (Fin ox) (Fin oy) x y).
Proof.
  intros HX HY Hsize Hne. unfold circles_cell. cbv zeta.
  destruct (circles_distance_nonneg w h rX rY t ox oy (INR x) (INR y) HX HY)
    as (d & Hd & Hd0).
  destruct (circles_maxDistance_nonneg w h rX rY t ox oy HX HY) as (M & HM & HM0).
  unfold of_nat. rewrite Hd, HM.
  destruct (level_of_natural layerThickness numLayers M d Hsize) as (k & Hk & Hk0);
    try lra.
  rewrite Hk. now apply cell_of_rem.
Qed.

Lemma polygons_cell_level (w h s : R) numLayers colors (rX rY : R) layerThickness
  (t ox oy : R) (x y : nat) :
  0 < rX -> 0 < rY -> valid_size layerThickness numLayers -> colors <> [] ->
  level_in 0 (Z.of_nat (List.length colors))
    (polygons_cell (Fin w) (Fin h) (Fin s) numLayers colors (Fin rX) (Fin rY)
       layerThickness (Fin t) (Fin ox) (Fin oy) x y).
Proof.
  intros HX HY Hsize Hne. unfold polygons_cell. cbv zeta.
  destruct (polygons_distance_nonneg w h s rX rY t ox oy (INR x) (INR y) HX HY)
    as (d & Hd & Hd0).
  destruct (polygons_maxDistance_nonneg w h s rX rY t ox oy HX HY) as (M & HM & HM0).
  unfold of_nat. rewrite Hd, HM.
  destruct (level_of_natural layerThickness numLayers M d Hsize) as (k & Hk & Hk0);
    try lra.
  rewrite Hk. now apply cell_of_rem.
Qed.

Lemma stripes_cell_level (w h sw t ox oy : R) colors (x y : nat) :
  sw <> 0 -> colors <> [] ->
  level_in 0 (Z.of_nat (List.length colors))
    (stripes_cell (Fin w) (Fin h) (Fin sw) colors (Fin t) (Fin ox) (Fin oy) x y).
Proof.
  intros Hsw Hne. unfold stripes_cell. cbv zeta.
  destruct (stripes_pos_integer w h sw t ox oy (INR x) (INR y) Hsw) as (z & Hz).
  unfold of_nat. rewrite Hz.
  assert (Hlen : (0 < Z.of_nat (List.length colors))%Z).
  { destruct colors; [congruence|simpl; lia]. }
  rewrite length_of_IZR, stripe_index_mod by assumption.
  pose proof (Z.mod_pos_bound z _ Hlen).
  unfold level_in, cell_of; cbn [level]. eexists; split; [reflexivity|lia].
Qed.

Lemma cubes_cell_level (w h size : number) colors (ox oy : number) (x y : nat) :
  level_in 0 3 (cubes_cell w h size colors ox oy x y).
Proof.
  unfold cubes_cell, cubes_face. cbv zeta.
  destruct (cubes_hex _ _ _ _ _ _ _) as [[rx ry] rz].
  unfold level_in; cbn [level].
  match goal with |- context [face_of ?a] =>
    destruct (face_of_cases a) as [->|[->| ->]] end;
    [exists 0%Z|exists 1%Z|exists 2%Z]; (split; [reflexivity|lia]).
Qed.

Section ValidConfiguration.
Variables (w h : nat) (colors : list string) (tilt offsetX offsetY : R).
Hypotheses (Hw : valid_dim w) (Hh : valid_dim h) (Hcolors : colors <> []).

Lemma squares_levels numSquares (ratioX ratioY : R) layerThickness :
  0 < ratioX -> 0 < ratioY -> valid_size layerThickness numSquares ->
  exists p,
    generateConcentricSquares (of_nat w) (of_nat h) numSquares colors
      (Fin ratioX) (Fin ratioY) layerThickness (Fin tilt) (Fin offsetX) (Fin offsetY)
    = Ok p
    /\ has_size h w (Pattern.grid p)
    /\ every_cell (level_in 0 (Z.of_nat (List.length colors))) (Pattern.grid p).
Proof.
  intros HX HY Hsize.
  destruct (generateConcentricSquares_valid h w numSquares colors (Fin ratioX)
              (Fin ratioY) layerThickness (Fin tilt) (Fin offsetX) (Fin offsetY) Hh Hw)
    as (p & Hp & Hgrid).
  exists p. rewrite Hgrid. repeat split; try assumption; try apply has_size_full.
  apply every_cell_full. intros x y _ _. now apply squares_cell_level.
Qed.

Lemma circles_levels numLayers (ratioX ratioY : R) layerThickness :
  0 < ratioX -> 0 < ratioY -> valid_size layerThickness numLayers ->
  exists p,
    generateConcentricCircles (of_nat w) (of_nat h) numLayers colors
      (Fin ratioX) (Fin ratioY) layerThickness (Fin tilt) (Fin offsetX) (Fin offsetY)
    = Ok p
    /\ has_size h w (Pattern.grid p)
    /\ every_cell (level_in 0 (Z.of_nat (List.length colors))) (Pattern.grid p).
Proof.
  intros HX HY Hsize.
  destruct (generateConcentricCircles_valid h w numLayers colors (Fin ratioX)
              (Fin ratioY) layerThickness (Fin tilt) (Fin offsetX) (Fin offsetY) Hh Hw)
    as (p & Hp & Hgrid).
  exists p. rewrite Hgrid. repeat split; try assumption; try apply has_size_full.
  apply every_cell_full. intros x y _ _. now apply circles_cell_level.
Qed.

Lemma polygons_levels (numSides : R) numLayers (ratioX ratioY : R) layerThickness :
  0 < ratioX -> 0 < ratioY -> valid_size layerThickness numLayers ->
  exists p,
    generateConcentricPolygons (of_nat w) (of_nat h) (Fin numSides) numLayers colors
      (Fin ratioX) (Fin ratioY) layerThickness (Fin tilt) (Fin offsetX) (Fin offsetY)
    = Ok p
    /\ has_size h w (Pattern.grid p)
    /\ every_cell (level_in 0 (Z.of_nat (List.length colors))) (Pattern.grid p).
Proof.
  intros HX HY Hsize.
  destruct (generateConcentricPolygons_valid h w (Fin numSides) numLayers colors
              (Fin ratioX) (Fin ratioY) layerThickness (Fin tilt) (Fin offsetX)
              (Fin offsetY) Hh Hw)
    as (p & Hp & Hgrid).
  exists p. rewrite Hgrid. repeat split; try assumption; try apply has_size_full.
  apply every_cell_full. intros x y _ _. now apply polygons_cell_level.
Qed.

Lemma stripes_levels (stripeWidth : R) :
  stripeWidth <> 0 ->
  exists p,
    generateStripes (of_nat w) (of_nat h) (Fin stripeWidth) colors (Fin tilt)
      (Fin offsetX) (Fin offsetY) = Ok p
    /\ has_size h w (Pattern.grid p)
    /\ every_cell (level_in 0 (Z.of_nat (List.length colors))) (Pattern.grid p).
Proof.
  intros Hsw.
  destruct (generateStripes_valid h w (Fin stripeWidth) colors (Fin tilt)
              (Fin offsetX) (Fin offsetY) Hh Hw) as (p & Hp & Hgrid).
  exists p. rewrite Hgrid. repeat split; try assumption; try apply has_size_full.
  apply every_cell_full. intros x y _ _. now apply stripes_cell_level.
Qed.

Lemma cubes_levels (cubeSize : number) :
  exists p,
    generateIsometricCubes (of_nat w) (of_nat h) cubeSize colors
      (Fin offsetX) (Fin offsetY) = Ok p
    /\ has_size h w (Pattern.grid p)
    /\ every_cell (level_in 0 3) (Pattern.grid p).
Proof.
  destruct (generateIsometricCubes_valid h w cubeSize colors (Fin offsetX)
              (Fin offsetY) Hh Hw) as (p & Hp & Hgrid).
  exists p. rewrite Hgrid. repeat split; try assumption; try apply has_size_full.
  apply every_cell_full. intros x y _ _. apply cubes_cell_level.
Qed.
End ValidConfiguration.

(** X27: on every valid configuration of moderate magnitude the squares,
    circles, polygons and stripes generators return a grid of [height] rows
    of [width] cells in which every level is an integer of
    [0, colors.length); the cubes generator returns such a grid in which
    every level is the face index, an integer of [0, 3), which lies in
    [0, colors.length) when there are at least three colors. *)
Theorem levels_in_range (w h : nat) (colors : list string) (tilt offsetX offsetY : R) :
  valid_dim w -> valid_dim h -> colors <> [] ->
  limited tilt -> limited offsetX -> limited offsetY ->
  let len := Z.of_nat (List.length colors) in
  (forall numSquares (ratioX ratioY : R) layerThickness,
      moderate ratioX -> moderate ratioY -> moderate_size layerThickness numSquares ->
      exists p,
        generateConcentricSquares (of_nat w) (of_nat h) numSquares colors
          (Fin ratioX) (Fin ratioY) layerThickness (Fin tilt) (Fin offsetX) (Fin offsetY)
        = Ok p
        /\ has_size h w (Pattern.grid p)
        /\ every_cell (level_in 0 len) (Pattern.grid p))
  /\ (forall numLayers (ratioX ratioY : R) layerThickness,
      moderate ratioX -> moderate ratioY -> moderate_size layerThickness numLayers ->
      exists p,
        generateConcentricCircles (of_nat w) (of_nat h) numLayers colors
          (Fin ratioX) (Fin ratioY) layerThickness (Fin tilt) (Fin offsetX) (Fin offsetY)
        = Ok p
        /\ has_size h w (Pattern.grid p)
        /\ every_cell (level_in 0 len) (Pattern.grid p))
  /\ (forall (numSides : R) numLayers (ratioX ratioY : R) layerThickness,
      limited numSides ->
      moderate ratioX -> moderate ratioY -> moderate_size layerThickness numLayers ->
      exists p,
        generateConcentricPolygons (of_nat w) (of_nat h) (Fin numSides) numLayers
          colors (Fin ratioX) (Fin ratioY) layerThickness (Fin tilt) (Fin offsetX)
          (Fin offsetY)
        = Ok p
        /\ has_size h w (Pattern.grid p)
        /\ every_cell (level_in 0 len) (Pattern.grid p))
  /\ (forall stripeWidth : R,
      moderate (Rabs stripeWidth) ->
      exists p,
        generateStripes (of_nat w) (of_nat h) (Fin stripeWidth) colors (Fin tilt)
          (Fin offsetX) (Fin offsetY) = Ok p
        /\ has_size h w (Pattern.grid p)
        /\ every_cell (level_in 0 len) (Pattern.grid p))
  /\ (forall cubeSize : number,
      exists p,
        generateIsometricCubes (of_nat w) (of_nat h) cubeSize colors
          (Fin offsetX) (Fin offsetY) = Ok p
        /\ has_size h w (Pattern.grid p)
        /\ every_cell (level_in 0 3) (Pattern.grid p)
        /\ ((3 <= len)%Z -> every_cell (level_in 0 len) (Pattern.grid p))).
Proof.
  intros Hw Hh Hcolors _ _ _ len. split; [|split; [|split; [|split]]].
  - intros n rX rY t HX%moderate_pos HY%moderate_pos Hsize%moderate_size_valid.
    now apply squares_levels.
  - intros n rX rY t HX%moderate_pos HY%moderate_pos Hsize%moderate_size_valid.
    now apply circles_levels.
  - intros s n rX rY t _ HX%moderate_pos HY%moderate_pos Hsize%moderate_size_valid.
    now apply polygons_levels.
  - intros sw Hsw%moderate_abs. now apply stripes_levels.
  - intros cubeSize.
    destruct (cubes_levels w h colors offsetX offsetY Hw Hh cubeSize)
      as (p & Hp & Hsize & Hlevels).
    exists p. split; [|split; [|split]]; try assumption.
    intros Hlen. eapply every_cell_impl; [|exact Hlevels].
    intros c. now apply level_in_weaken.
Qed.

Lemma levels_in_range_witness :
  exists p,
    generateStripes (of_nat 1) (of_nat 1) (Fin 2) ["a"%string] (Fin 0) (Fin 0) (Fin 0)
    = Ok p
    /\ has_size 1 1 (Pattern.grid p)
    /\ every_cell (level_in 0 1) (Pattern.grid p).
Proof.
  refine (proj1 (proj2 (proj2 (proj2
    (levels_in_range 1 1 ["a"%string] 0 0 0 valid_dim_1 valid_dim_1 _
       limited_0 limited_0 limited_0)))) 2 _).
  - discriminate.
  - unfold moderate. rewrite Rabs_right by lra. lra.
Defined.

(** C1 fails on the cubes, which store the index of the face as the level:
    the index is not cycled through the colors, as the color of the cell is
    and as the level is in the four other generators.  With a single color
    the only cell of the 1 by 1 grid is the right face, level 1, outside
    [0, 1). *)
Lemma cubes_level_exceeds_palette :
  exists p,
    generateIsometricCubes (Fin 1) (Fin 1) (Fin 2) ["a"%string] (Fin 0) (Fin 0) = Ok p
    /\ Pattern.grid p = [[Some {| color := Some "a"%string; level := Fin 1 |}]]
    /\ ~ every_cell (level_in 0 (Z.of_nat (List.length ["a"%string]))) (Pattern.grid p).
Proof.
  unfold generateIsometricCubes.
  rewrite (new_grid_IZR 1 1) by lia. cbn [bind]. rewrite fill_full.
  eexists; split; [reflexivity|]. cbn [Pattern.grid].
  change (Z.to_nat 1) with 1%nat. cbn [full_grid map seq].
  assert (Hcell : cubes_cell (Fin 1) (Fin 1) (Fin 2) ["a"%string] (Fin 0) (Fin 0) 0 0
                  = {| color := Some "a"%string; level := Fin 1 |}).
  { unfold cubes_cell. cbv zeta.
    change (of_nat 0) with (Fin 0). rewrite cubes_face_1x1. f_equal.
    rewrite (index_IZR _ 1) by lia.
    change (Z.to_nat 1) with 1%nat. cbn [nth_error].
    rewrite length_of_IZR, (rem_int 1) by (simpl; lia).
    change (Z.rem 1 (Z.of_nat (List.length ["a"%string]))) with 0%Z.
    now rewrite (index_IZR _ 0) by lia. }
  rewrite Hcell. split; [reflexivity|].
  intros Hall. inversion Hall as [|row rows Hrow _]; subst.
  inversion Hrow as [|c cs Hc _]; subst.
  apply (level_in_inv _ _ _ 1) in Hc; [simpl in Hc; lia|reflexivity].
Qed.

(** ** C2: no configuration is rejected *)

Lemma cubes_cell_no_color width height cubeSize offsetX offsetY (x y : nat) :
  color (cubes_cell width height cubeSize [] offsetX offsetY x y) = None.
Proof.
  unfold cubes_cell. cbv zeta. cbn [color].
  change (length_of (@nil string)) with (Fin 0). rewrite !rem_zero.
  match goal with |- context [index _ ?f] =>
    destruct (index [index (@nil string) NaN; index [] NaN; index [] NaN] f)
      as [c|] eqn:E end; [|reflexivity].
  unfold index in E.
  match type of E with context [cubes_face ?a ?b ?c ?d ?e ?f ?g] =>
    destruct (cubes_face a b c d e f g) as [| |r|] end; try discriminate.
  destruct (_ && _); [|discriminate].
  destruct (Z.to_nat (Zfloor r)) as [|[|[|k]]]; simpl in E;
    try (injection E as <-; reflexivity).
  now destruct k.
Qed.

(** The call of [App.pattern] comes to a call of one generator. *)
Lemma App_pattern_built (config : App.Config) :
  exists cell_at : nat -> nat -> Cell,
    built (App.height config) (App.width config) cell_at (App.pattern config)
    /\ (App.colors config = [] ->
        forall x y, colorless (App.patternType config) (cell_at x y)).
Proof.
  unfold App.pattern. cbv zeta.
  destruct (String.eqb_spec (App.patternType config) "stripes") as [E1|E1].
  { eexists; split; [apply generateStripes_built|].
    intros -> x y. unfold stripes_cell. cbv zeta. rewrite cell_of_no_color.
    split; [reflexivity|intros _; reflexivity]. }
  destruct (String.eqb_spec (App.patternType config) "cubes") as [E2|E2].
  { eexists; split; [apply generateIsometricCubes_built|].
    intros -> x y. split; [apply cubes_cell_no_color|congruence]. }
  destruct (String.eqb_spec (App.patternType config) "circles") as [E3|E3].
  { eexists; split; [apply generateConcentricCircles_built|].
    intros -> x y. unfold circles_cell. cbv zeta. rewrite cell_of_no_color.
    split; [reflexivity|intros _; reflexivity]. }
  destruct (String.eqb_spec (App.patternType config) "polygons") as [E4|E4].
  { eexists; split; [apply generateConcentricPolygons_built|].
    intros -> x y. unfold polygons_cell. cbv zeta. rewrite cell_of_no_color.
    split; [reflexivity|intros _; reflexivity]. }
  eexists; split; [apply generateConcentricSquares_built|].
  intros -> x y. unfold squares_cell. cbv zeta. rewrite cell_of_no_color.
  split; [reflexivity|intros _; reflexivity].
Qed.

(** C2, as amended: no configuration is rejected for its colors or ratios.
    Whatever the configuration, a generation either throws the RangeError of
    the grid allocation, before any cell is computed, or returns a full
    grid; with valid dimensions it returns the full [height] by [width]
    grid, in which, when [colors] is empty, every cell has color
    [undefined] and, except for the cubes, level NaN. *)
Theorem no_configuration_is_rejected :
  (forall config : App.Config,
      (App.pattern config = Throw RangeError
       /\ new_grid (App.height config) (App.width config) = Throw RangeError)
      \/ (exists p h w,
            App.pattern config = Ok p
            /\ has_size h w (Pattern.grid p)
            /\ every_cell (fun _ => True) (Pattern.grid p)))
  /\ (forall (config : App.Config) (w h : nat),
      valid_dim w -> valid_dim h ->
      App.width config = of_nat w -> App.height config = of_nat h ->
      exists p,
        App.pattern config = Ok p
        /\ has_size h w (Pattern.grid p)
        /\ every_cell (fun c => App.colors config = [] ->
                                colorless (App.patternType config) c)
             (Pattern.grid p)).
Proof.
  split.
  - intros config.
    destruct (App_pattern_built config) as (cell_at & [Hthrow|Hok] & _);
      [left; exact Hthrow|right].
    destruct Hok as (h & w & p & Hp & Hgrid & _).
    exists p, h, w. rewrite Hgrid. split; [assumption|].
    split; [apply has_size_full|now apply every_cell_full].
  - intros config w h Hw Hh Ew Eh.
    destruct (App_pattern_built config) as (cell_at & [Hthrow|Hok] & Hcell).
    + exfalso. destruct Hthrow as [_ Hthrow]. rewrite Ew, Eh in Hthrow.
      destruct Hw as [_ Hw], Hh as [_ Hh].
      destruct (new_grid_of_nat h w Hh Hw) as (w' & Hg & _). congruence.
    + destruct Hok as (h' & w' & p & Hp & Hgrid & Hdims).
      destruct (Hdims h w Hh Hw Eh Ew) as [-> ->].
      exists p. rewrite Hgrid. split; [assumption|].
      split; [apply has_size_full|]. apply every_cell_full. intros x y _ _ Hc.
      now apply Hcell.
Qed.

Lemma no_configuration_is_rejected_witness :
  exists p,
    App.pattern (unit_config [] (Fin 1)) = Ok p
    /\ has_size 1 1 (Pattern.grid p)
    /\ every_cell (fun c => @nil string = [] -> colorless "squares" c) (Pattern.grid p).
Proof.
  exact (proj2 no_configuration_is_rejected (unit_config [] (Fin 1)) 1%nat 1%nat
           valid_dim_1 valid_dim_1 eq_refl eq_refl).
Defined.

(** C2 as stated fails: an empty [colors], and a [ratioX] of 0, are both
    accepted and give a grid whose cell has no color and level NaN. *)
Lemma invalid_configuration_accepted :
  grid_of (generateConcentricSquares (Fin 1) (Fin 1) (Fin 2) [] (Fin 1) (Fin 1) None
             (Fin 0) (Fin 0) (Fin 0))
  = Ok [[Some {| color := None; level := NaN |}]]
  /\ grid_of (generateConcentricSquares (Fin 1) (Fin 1) (Fin 2) ["red"%string] (Fin 0)
                (Fin 1) None (Fin 0) (Fin 0) (Fin 0))
     = Ok [[Some {| color := None; level := NaN |}]].
Proof.
  split.
  - unfold generateConcentricSquares.
    rewrite (new_grid_IZR 1 1) by lia. cbn [bind grid_of Pattern.grid].
    rewrite fill_full. change (Z.to_nat 1) with 1%nat. cbn [full_grid map seq].
    unfold squares_cell. cbv zeta. now rewrite cell_of_no_color.
  - unfold generateConcentricSquares.
    rewrite (new_grid_IZR 1 1) by lia. cbn [bind grid_of Pattern.grid].
    rewrite fill_full. change (Z.to_nat 1) with 1%nat. cbn [full_grid map seq].
    unfold squares_cell. cbv zeta. unfold of_nat.
    rewrite squares_distance_ratio_0, squares_maxDistance_ratio_0.
    reflexivity.
Qed.

(** ** C3: a number of layers that is not positive *)

Section NonPositiveLayerCount.
Variables (w h : nat) (colors : list string) (n : Z)
  (ratioX ratioY tilt offsetX offsetY : R).
Hypotheses (Hw : valid_dim w) (Hh : valid_dim h) (Hcolors : colors <> [])
  (HX : (0 < ratioX)) (HY : (0 < ratioY)) (Hn : (n <= 0)%Z).



End NonPositiveLayerCount.




(** ** C4: the cube coordinates *)

(** C4: for every point the cubes generator classifies, the rounded cube
    coordinates are integers whose sum [rx + ry + rz] is exactly 0. *)
Theorem hex_coordinates_sum_zero (width height cubeSize offsetX offsetY x y : R) :
  exists rx ry rz : Z,
    cubes_hex (Fin width) (Fin height) (Fin cubeSize) (Fin offsetX) (Fin offsetY)
      (Fin x) (Fin y) = (of_Z rx, of_Z ry, of_Z rz)
    /\ (rx + ry + rz = 0)%Z
    /\ (of_Z rx + of_Z ry + of_Z rz)%js = Fin 0.
Proof.
  unfold cubes_hex. cbv zeta.
  assert (Hr : 2 <= Rmax 2 cubeSize) by apply Rmax_l.
  fin_eval.
  match goal with |- context [cube_round (Fin ?q) (Fin ?r)] =>
    destruct (cube_round_integers q r) as (a & b & c & Hround & Hsum) end.
  exists a, b, c. split; [exact Hround|]. split; [exact Hsum|].
  unfold of_Z. fin_eval. rewrite <- !plus_IZR. now rewrite Hsum.
Qed.

(** ** C5: the farthest corner *)



(** *** The corners of the circles *)










(** *** The corners of the polygons *)
















(** ** C6: the number of layers in thickness mode *)





(** ** C8: the 3 by 3 scenario *)

(** C8: [generateConcentricSquares] on the 3 by 3 grid with two layers,
    colors red and blue, ratios 1, no tilt and no offset puts level 0 and
    red at the centre [(1, 1)] and level 1 and blue at the four corners and
    the four edge midpoints. *)
Theorem scenario_3x3 :
  exists p,
    generateConcentricSquares (Fin 3) (Fin 3) (Fin 2) ["red"; "blue"]%string (Fin 1) (Fin 1)
      None (Fin 0) (Fin 0) (Fin 0) = Ok p
    /\ Pattern.grid p = [ [blue_cell; blue_cell; blue_cell];
                          [blue_cell; red_cell; blue_cell];
                          [blue_cell; blue_cell; blue_cell] ].
Proof.
  unfold generateConcentricSquares.
  rewrite (new_grid_IZR 3 3) by lia. cbn [bind].
  rewrite fill_full. change (Z.to_nat 3) with 3%nat. eexists; split; [reflexivity|].
  cbn [Pattern.grid full_grid map seq].
  rewrite !scenario_cell by lia. reflexivity.
Qed.

(** ** C9: tilt *)

(** The generators use the tilt through its cosine and sine alone. *)
Section SameCosSin.
Variables tilt tilt' : number.
Hypothesis Hcos :
  Math.cos (tilt * Math.PI / Fin 180) = Math.cos (tilt' * Math.PI / Fin 180).
Hypothesis Hsin :
  Math.sin (tilt * Math.PI / Fin 180) = Math.sin (tilt' * Math.PI / Fin 180).






End SameCosSin.







(** ** C10: thickness mode and count mode *)






(** * Properties of the application *)

(** ** Instances *)

Lemma unit_config_valid (colors : list string) :
  colors <> [] -> valid_config (unit_config colors (Fin 1)) 1 1.
Proof.
  intros Hc. unfold valid_config, is_moderate, is_limited, moderate, limited. cbn.
  repeat (split; [first [reflexivity | apply valid_dim_1 | assumption
                         | eexists; split; [|reflexivity]; lra
                         | eexists; reflexivity]|]).
  exists 2%Z. split; [lia|reflexivity].
Qed.

Lemma thickness_config_valid (colors : list string) :
  colors <> [] -> valid_config (thickness_config colors) 1 1.
Proof.
  intros Hc. unfold valid_config, is_moderate, is_limited, moderate, limited. cbn.
  repeat (split; [first [reflexivity | apply valid_dim_1 | assumption
                         | eexists; split; [|reflexivity]; lra
                         | eexists; reflexivity]|]).
  exists 10. split; [apply moderate_10|reflexivity].
Qed.

(** ** Objects *)

Lemma obj_get_set_same {V} (o : Obj V) (k : string) (v : V) :
  obj_get (obj_set o k v) k = Some v.
Proof.
  induction o as [|[k' v'] o IH]; cbn.
  - now rewrite String.eqb_refl.
  - destruct (String.eqb k' k) eqn:E; cbn; rewrite E; auto.
Qed.

Lemma obj_get_set_other {V} (o : Obj V) (k k' : string) (v : V) :
  k <> k' -> obj_get (obj_set o k v) k' = obj_get o k'.
Proof.
  intros Hk. induction o as [|[k0 v0] o IH]; cbn.
  - destruct (String.eqb k k') eqn:E; auto. apply String.eqb_eq in E. contradiction.
  - destruct (String.eqb k0 k) eqn:E; cbn.
    + apply String.eqb_eq in E. subst k0.
      destruct (String.eqb k k') eqn:E'; auto. apply String.eqb_eq in E'. contradiction.
    + now rewrite IH.
Qed.

Lemma obj_get_None {V} (o : Obj V) (k : string) :
  obj_get o k = None <-> ~ In k (map fst o).
Proof.
  induction o as [|[k' v'] o IH]; cbn.
  - tauto.
  - destruct (String.eqb k' k) eqn:E.
    + apply String.eqb_eq in E. split; [discriminate | intros H; exfalso; apply H; auto].
    + apply String.eqb_neq in E. rewrite IH. tauto.
Qed.

Lemma obj_get_In {V} (o : Obj V) (k : string) (v : V) :
  NoDup (map fst o) -> In (k, v) o -> obj_get o k = Some v.
Proof.
  induction o as [|[k' v'] o IH]; cbn; intros Hnd Hin; [contradiction|].
  inversion Hnd as [|? ? Hnot Hnd']; subst.
  destruct Hin as [Heq|Hin].
  - inversion Heq; subst. now rewrite String.eqb_refl.
  - destruct (String.eqb k' k) eqn:E.
    + apply String.eqb_eq in E. subst k'. exfalso. apply Hnot.
      change k with (fst (k, v)). now apply in_map.
    + auto.
Qed.

Lemma obj_set_keys {V} (o : Obj V) (k : string) (v : V) :
  map fst (obj_set o k v)
  = match obj_get o k with
    | Some _ => map fst o
    | None => map fst o ++ [k]
    end.
Proof.
  induction o as [|[k' v'] o IH]; cbn; auto.
  destruct (String.eqb k' k) eqn:E; cbn; auto.
  rewrite IH. now destruct (obj_get o k).
Qed.

Lemma obj_set_NoDup {V} (o : Obj V) (k : string) (v : V) :
  NoDup (map fst o) -> NoDup (map fst (obj_set o k v)).
Proof.
  intros Hnd. rewrite obj_set_keys. destruct (obj_get o k) eqn:E; auto.
  apply obj_get_None in E.
  apply NoDup_rev in Hnd. rewrite <- (rev_involutive (map fst o ++ [k])).
  apply NoDup_rev. rewrite rev_app_distr. cbn. constructor; auto.
  now rewrite <- in_rev.
Qed.

Lemma obj_get_map {V W} (f : V -> W) (o : Obj V) (k : string) :
  obj_get (obj_map f o) k = option_map f (obj_get o k).
Proof.
  induction o as [|[k' v'] o IH]; cbn; auto.
  destruct (String.eqb k' k); auto.
Qed.

Lemma obj_set_map {V W} (f : V -> W) (o : Obj V) (k : string) (v : V) :
  obj_set (obj_map f o) k (f v) = obj_map f (obj_set o k v).
Proof.
  induction o as [|[k' v'] o IH]; cbn; auto.
  destruct (String.eqb k' k); cbn; auto. f_equal. exact IH.
Qed.

Lemma obj_map_keys {V W} (f : V -> W) (o : Obj V) :
  map fst (obj_map f o) = map fst o.
Proof. unfold obj_map. rewrite map_map. reflexivity. Qed.

Lemma obj_sum_set (m : Obj nat) (k : string) (n : nat) :
  (obj_sum (obj_set m k n) + match obj_get m k with Some n0 => n0 | None => O end
   = obj_sum m + n)%nat.
Proof.
  unfold obj_sum. induction m as [|[k' v'] m IH]; cbn.
  - lia.
  - destruct (String.eqb k' k); cbn; lia.
Qed.

(** ** The tally of the stitches *)

Lemma tally_step_get (m : Obj nat) (k k' : string) :
  obj_get (tally_step m k) k'
  = if string_dec k k'
    then Some (S (match obj_get m k with Some n => n | None => O end))
    else obj_get m k'.
Proof.
  unfold tally_step. destruct (string_dec k k') as [<-|Hne].
  - apply obj_get_set_same.
  - now apply obj_get_set_other.
Qed.

Lemma fold_tally (keys : list string) (m : Obj nat) :
  let m' := fold_left tally_step keys m in
  (NoDup (map fst m) -> NoDup (map fst m'))
  /\ (forall k, match obj_get m' k with Some n => n | None => O end
                = (match obj_get m k with Some n => n | None => O end
                   + count_occ string_dec keys k)%nat)
  /\ (forall k, obj_get m' k = None ->
                obj_get m k = None /\ count_occ string_dec keys k = O)
  /\ ((forall k n, obj_get m k = Some n -> (1 <= n)%nat) ->
      forall k n, obj_get m' k = Some n -> (1 <= n)%nat)
  /\ obj_sum m' = (obj_sum m + List.length keys)%nat.
Proof.
  revert m. induction keys as [|k0 keys IH]; intros m;
    cbn [fold_left count_occ List.length].
  - repeat split; auto; intros; lia.
  - destruct (IH (tally_step m k0)) as (IH1 & IH2 & IH3 & IH5 & IH4). cbv zeta in *.
    split; [|split; [|split; [|split]]].
    + intros Hnd. apply IH1. now apply obj_set_NoDup.
    + intros k. rewrite IH2, tally_step_get.
      destruct (string_dec k0 k) as [<-|Hne]; lia.
    + intros k Hk. destruct (IH3 k Hk) as [Hget Hocc].
      rewrite tally_step_get in Hget.
      destruct (string_dec k0 k) as [<-|Hne]; [discriminate|]. auto.
    + intros Hm. apply IH5. intros k n. rewrite tally_step_get.
      destruct (string_dec k0 k) as [<-|Hne].
      * intros [= <-]. lia.
      * apply Hm.
    + rewrite IH4. pose proof (obj_sum_set m k0
        (S (match obj_get m k0 with Some n => n | None => O end))) as Hs.
      fold (tally_step m k0) in Hs. lia.
Qed.

Lemma tally_spec (keys : list string) :
  NoDup (map fst (tally keys))
  /\ (forall k, obj_get (tally keys) k
                = if (count_occ string_dec keys k =? 0)%nat then None
                  else Some (count_occ string_dec keys k))
  /\ obj_sum (tally keys) = List.length keys.
Proof.
  destruct (fold_tally keys []) as (H1 & H2 & H3 & H5 & H4). cbv zeta in *.
  fold (tally keys) in *. split; [|split].
  - apply H1. constructor.
  - intros k. specialize (H2 k). specialize (H3 k). cbn in H2.
    destruct (obj_get (tally keys) k) as [n|] eqn:E.
    + assert (1 <= n)%nat as Hn by (apply (H5 ltac:(discriminate) k n E)).
      subst n. destruct (count_occ string_dec keys k); [lia|reflexivity].
    + destruct (H3 eq_refl) as [_ ->]. reflexivity.
  - exact H4.
Qed.

(** ** countStitchesByColor *)

Lemma or_zero_of_nat (n : nat) : or_else (of_nat n) (Fin 0) = of_nat n.
Proof.
  unfold of_nat. rewrite or_else_fin. unfold Req_b.
  destruct (Req_dec_T (INR n) 0) as [->|]; reflexivity.
Qed.

Lemma of_nat_succ (n : nat) : add (of_nat n) (Fin 1) = of_nat (S n).
Proof. unfold of_nat. now rewrite add_fin, S_INR. Qed.

Lemma count_cell_tally (m : Obj nat) (cell : Cell) :
  count_cell (obj_map of_nat m) cell
  = obj_map of_nat (tally_step m (property_key (color cell))).
Proof.
  unfold count_cell, tally_step. cbv zeta. rewrite obj_get_map, <- obj_set_map.
  f_equal. destruct (obj_get m (property_key (color cell))); cbn [option_map].
  - rewrite or_zero_of_nat. apply of_nat_succ.
  - apply (of_nat_succ 0).
Qed.

Lemma count_row_thrown (row : list (option Cell)) :
  fold_left count_entry row None = None.
Proof. induction row as [|c row IH]; cbn; auto. Qed.

Lemma count_row_null (row : list (option Cell)) (counts : option (Obj number)) :
  In None row -> fold_left count_entry row counts = None.
Proof.
  revert counts. induction row as [|c row IH]; cbn; intros counts Hin; [contradiction|].
  destruct Hin as [->|Hin].
  - destruct counts; apply count_row_thrown.
  - now apply IH.
Qed.

Lemma count_row_full (row : list (option Cell)) (m : Obj nat) :
  Forall (fun c => match c with Some _ => True | None => False end) row ->
  fold_left count_entry row (Some (obj_map of_nat m))
  = Some (obj_map of_nat (fold_left tally_step (row_keys row) m)).
Proof.
  revert m. induction row as [|c row IH]; cbn; intros m Hrow; auto.
  inversion Hrow as [|? ? Hc Hrow']; subst. destruct c as [c|]; [|contradiction].
  cbn. rewrite count_cell_tally. now apply IH.
Qed.

Lemma count_grid_thrown (g : Grid) :
  fold_left (fun counts row => fold_left count_entry row counts) g None = None.
Proof. induction g as [|row g IH]; cbn; auto. now rewrite count_row_thrown. Qed.

Lemma count_grid_null (g : Grid) (counts : option (Obj number)) :
  Exists (In None) g ->
  fold_left (fun counts row => fold_left count_entry row counts) g counts = None.
Proof.
  revert counts. induction g as [|row g IH]; cbn; intros counts Hex.
  - inversion Hex.
  - inversion Hex as [? ? Hin|? ? Hex']; subst.
    + rewrite count_row_null by assumption. apply count_grid_thrown.
    + now apply IH.
Qed.

Lemma count_grid_full (g : Grid) (m : Obj nat) :
  every_cell (fun _ => True) g ->
  fold_left (fun counts row => fold_left count_entry row counts) g
    (Some (obj_map of_nat m))
  = Some (obj_map of_nat (fold_left tally_step (stitch_keys g) m)).
Proof.
  unfold every_cell. revert m. induction g as [|row g IH]; cbn; intros m Hg; auto.
  inversion Hg as [|? ? Hrow Hg']; subst.
  rewrite count_row_full by assumption. rewrite IH by assumption.
  now rewrite fold_left_app.
Qed.

Lemma countStitchesByColor_tally (pattern : Pattern.t) :
  every_cell (fun _ => True) (Pattern.grid pattern) ->
  countStitchesByColor pattern
  = Some (obj_map of_nat (tally (stitch_keys (Pattern.grid pattern)))).
Proof. intros Hg. apply (count_grid_full _ [] Hg). Qed.

Lemma every_cell_or_null (g : Grid) :
  every_cell (fun _ => True) g \/ Exists (In None) g.
Proof.
  unfold every_cell. induction g as [|row g [IH|IH]].
  - left. constructor.
  - assert (Forall (fun c : option Cell => match c with Some _ => True | None => False end) row
            \/ In None row) as [Hrow|Hrow].
    { clear. induction row as [|[c|] row [IH|IH]]; cbn; auto. }
    + left. now constructor.
    + right. now constructor.
  - right. now constructor.
Qed.

Lemma length_flat_map_const {A B} (f : A -> list B) (l : list A) (n : nat) :
  (forall a, In a l -> List.length (f a) = n) ->
  List.length (flat_map f l) = (List.length l * n)%nat.
Proof.
  induction l as [|a l IH]; cbn [flat_map List.length]; intros Hf; auto.
  rewrite length_app, Hf, IH; cbn; auto.
  intros b Hb. apply Hf. now right.
Qed.

Lemma stitch_keys_full (h w : nat) (cell_at : nat -> nat -> Cell) :
  List.length (stitch_keys (full_grid h w cell_at)) = (h * w)%nat.
Proof.
  unfold stitch_keys, full_grid.
  rewrite (length_flat_map_const _ _ w).
  - now rewrite length_map, length_seq.
  - intros row Hrow. apply in_map_iff in Hrow. destruct Hrow as (y & <- & _).
    unfold row_keys. rewrite (length_flat_map_const _ _ 1).
    + rewrite length_map, length_seq. lia.
    + intros c Hc. apply in_map_iff in Hc. destruct Hc as (x & <- & _). reflexivity.
Qed.

(** X1: [countStitchesByColor] on a grid without [null]: the keys of the result
    are the colors that occur, each once, and the value of a color is the
    number of its cells. *)
Theorem countStitchesByColor_counts (pattern : Pattern.t) :
  every_cell (fun _ => True) (Pattern.grid pattern) ->
  exists counts,
    countStitchesByColor pattern = Some counts
    /\ NoDup (map fst counts)
    /\ forall k,
         obj_get counts k
         = if (stitches_of (Pattern.grid pattern) k =? 0)%nat then None
           else Some (of_nat (stitches_of (Pattern.grid pattern) k)).
Proof.
  intros Hg. eexists. split; [now apply countStitchesByColor_tally|].
  destruct (tally_spec (stitch_keys (Pattern.grid pattern))) as (Hnd & Hget & _).
  split.
  - now rewrite obj_map_keys.
  - intros k. rewrite obj_get_map, Hget. unfold stitches_of.
    now destruct (count_occ string_dec (stitch_keys (Pattern.grid pattern)) k =? 0)%nat.
Qed.

Lemma countStitchesByColor_counts_witness :
  exists counts,
    countStitchesByColor two_cell_pattern = Some counts
    /\ NoDup (map fst counts)
    /\ forall k,
         obj_get counts k
         = if (stitches_of (Pattern.grid two_cell_pattern) k =? 0)%nat then None
           else Some (of_nat (stitches_of (Pattern.grid two_cell_pattern) k)).
Proof.
  apply (countStitchesByColor_counts two_cell_pattern).
  repeat constructor.
Defined.

(** X2: [countStitchesByColor] throws exactly when an entry of the grid is
    [null]. *)
Theorem countStitchesByColor_throws (pattern : Pattern.t) :
  countStitchesByColor pattern = None <-> Exists (In None) (Pattern.grid pattern).
Proof.
  split.
  - intros Hnone. destruct (every_cell_or_null (Pattern.grid pattern)) as [Hg|Hg]; auto.
    rewrite countStitchesByColor_tally in Hnone by assumption. discriminate.
  - intros Hex. now apply count_grid_null.
Qed.

(** ** calculateYarnUsage *)

Lemma app_pattern_full (config : App.Config) (w h : nat) :
  valid_dim w -> valid_dim h ->
  App.width config = of_nat w -> App.height config = of_nat h ->
  exists p cell_at,
    App.pattern config = Ok p /\ Pattern.grid p = full_grid h w cell_at.
Proof.
  intros Hw Hh Ew Eh.
  destruct (App_pattern_built config) as (cell_at & [[_ Hthrow]|(h' & w' & p & Hp & Hg & Hdim)] & _).
  - rewrite Ew, Eh in Hthrow.
    destruct (grid_of_valid_dims h w cell_at Hh Hw) as (g & Hnew & _). congruence.
  - destruct (Hdim h w Hh Hw Eh Ew) as [-> ->]. now exists p, cell_at.
Qed.

Lemma obj_set_fresh {V} (o : Obj V) (k : string) (v : V) :
  obj_get o k = None -> obj_set o k v = o ++ [(k, v)].
Proof.
  induction o as [|[k' v'] o IH]; cbn; auto.
  destruct (String.eqb k' k); [discriminate|]. intros H. now rewrite IH.
Qed.

Lemma obj_get_app_fresh {V} (o : Obj V) (k k' : string) (v : V) :
  obj_get o k = None -> k <> k' -> obj_get (o ++ [(k', v)]) k = None.
Proof.
  intros Ho Hne. induction o as [|[k0 v0] o IH]; cbn in *.
  - destruct (String.eqb_spec k' k); congruence.
  - destruct (String.eqb k0 k); [discriminate|auto].
Qed.

Lemma fold_obj_set {V W} (f : V -> W) (l : Obj V) (o : Obj W) :
  NoDup (map fst l) ->
  (forall k, In k (map fst l) -> obj_get o k = None) ->
  fold_left (fun o kv => obj_set o (fst kv) (f (snd kv))) l o = o ++ obj_map f l.
Proof.
  revert o. induction l as [|[k v] l IH]; cbn; intros o Hnd Hfresh.
  - now rewrite app_nil_r.
  - inversion Hnd as [|? ? Hnot Hnd']; subst.
    rewrite obj_set_fresh by auto. rewrite IH; auto.
    + now rewrite <- app_assoc.
    + intros k' Hk'. apply obj_get_app_fresh; auto. congruence.
Qed.

Lemma calculateYarnUsage_eq (stitchCounts : Obj number) (canvasTypeId : string) :
  NoDup (map fst stitchCounts) ->
  let cm := Yarn.cmPerStitch (canvas_of canvasTypeId) in
  let meters := fold_left (fun a n => add a (thread_meters cm n))
                  (map snd stitchCounts) (Fin 0) in
  Yarn.calculateYarnUsage stitchCounts canvasTypeId
  = {| Yarn.canvasType := Yarn.name (canvas_of canvasTypeId);
       Yarn.byColor := obj_map (usage_of cm) stitchCounts;
       Yarn.total :=
         {| Yarn.stitches := sum_numbers (map snd stitchCounts);
            Yarn.threadMeters := Yarn.toFixed2 meters;
            Yarn.threadYards := Yarn.toFixed2 (mul meters Yarn.YARDS_PER_METER);
            Yarn.skeinsNeeded := Math.ceil (div meters Yarn.THREAD_PER_SKEIN_M) |} |}.
Proof.
  intros Hnd cm meters. unfold Yarn.calculateYarnUsage. fold (canvas_of canvasTypeId).
  fold cm.
  match goal with
  | |- context [fold_left ?F stitchCounts _] =>
      assert (forall l y ts tm,
                fold_left F l (y, ts, tm)
                = (fold_left (fun o kv => obj_set o (fst kv) (usage_of cm (snd kv))) l y,
                   fold_left add (map snd l) ts,
                   fold_left (fun a n => add a (thread_meters cm n)) (map snd l) tm)) as Hfold
  end.
  { induction l as [|[color count] l IH]; intros y ts tm; cbn [fold_left map];
      [reflexivity|]. rewrite IH. reflexivity. }
  rewrite Hfold. rewrite fold_obj_set by (auto; intros; reflexivity).
  reflexivity.
Qed.

Lemma sum_numbers_fin (rs : list R) (a : R) :
  fold_left add (map Fin rs) (Fin a) = Fin (a + Rsum rs).
Proof.
  unfold Rsum. revert a. induction rs as [|r rs IH]; intros a; cbn.
  - f_equal. lra.
  - rewrite IH. f_equal. lra.
Qed.

Lemma Rsum_INR (ns : list nat) :
  Rsum (map INR ns) = INR (fold_right Nat.add O ns).
Proof.
  induction ns as [|n ns IH]; cbn [map Rsum fold_right]; auto.
  fold (Rsum (map INR ns)). rewrite IH, plus_INR. reflexivity.
Qed.

Lemma sum_numbers_of_nat (m : Obj nat) :
  sum_numbers (map snd (obj_map of_nat m)) = of_nat (obj_sum m).
Proof.
  unfold sum_numbers, obj_map, of_nat. rewrite map_map. cbn [snd].
  rewrite <- (map_map snd (fun n => Fin (INR n))), <- (map_map INR Fin).
  rewrite sum_numbers_fin, Rsum_INR. f_equal. rewrite Rplus_0_l. f_equal.
  unfold obj_sum. induction m as [|[k n] m IH]; cbn; auto.
Qed.

(** X3: when no color of the configuration is the name of a property that
    objects inherit from [Object.prototype], the total number of stitches
    that [App.jsx] reports for the pattern of the configuration is the
    number of cells of the grid. *)
Theorem yarn_total_is_grid_area (config : App.Config) (w h : nat) :
  valid_dim w -> valid_dim h ->
  App.width config = of_nat w -> App.height config = of_nat h ->
  plain_colors (App.colors config) ->
  exists p u,
    App.pattern config = Ok p
    /\ App_yarnUsage p (App.canvasType config) = Some u
    /\ Yarn.stitches (Yarn.total u) = of_nat (h * w).
Proof.
  intros Hw Hh Ew Eh _.
  destruct (app_pattern_full config w h Hw Hh Ew Eh) as (p & cell_at & Hp & Hg).
  assert (every_cell (fun _ => True) (Pattern.grid p)) as Hfull
    by (rewrite Hg; apply every_cell_full; auto).
  exists p. unfold App_yarnUsage. rewrite (countStitchesByColor_tally p Hfull).
  eexists. split; [exact Hp|]. split; [reflexivity|].
  destruct (tally_spec (stitch_keys (Pattern.grid p))) as (Hnd & _ & Hsum).
  rewrite calculateYarnUsage_eq by now rewrite obj_map_keys.
  cbn [Yarn.total Yarn.stitches].
  rewrite sum_numbers_of_nat, Hsum, Hg, stitch_keys_full. reflexivity.
Qed.

Lemma yarn_total_is_grid_area_witness :
  exists p u,
    App.pattern (unit_config ["red"; "blue"]%string (Fin 1)) = Ok p
    /\ App_yarnUsage p "standard" = Some u
    /\ Yarn.stitches (Yarn.total u) = of_nat (1 * 1).
Proof.
  exact (yarn_total_is_grid_area (unit_config ["red"; "blue"]%string (Fin 1)) 1 1
           valid_dim_1 valid_dim_1 eq_refl eq_refl eq_refl).
Defined.

Lemma canvas_of_cm (canvasTypeId : string) :
  Yarn.cmPerStitch (canvas_of canvasTypeId)
  = Fin (if String.eqb canvasTypeId "sudan" then 8 * 100 / 300 else 50).
Proof.
  unfold canvas_of, Yarn.CANVAS_TYPES. cbn [find Yarn.id Yarn.STANDARD Yarn.SUDAN].
  destruct (String.eqb_spec "standard" canvasTypeId) as [<-|_]; [reflexivity|].
  rewrite (String.eqb_sym canvasTypeId).
  destruct (String.eqb "sudan" canvasTypeId); [|reflexivity].
  unfold Yarn.SUDAN. cbn [Yarn.cmPerStitch]. rewrite mul_fin, div_fin by lra. reflexivity.
Qed.

Lemma thread_meters_fin (c r : R) :
  thread_meters (Fin c) (Fin r) = Fin (r * c / 100).
Proof. unfold thread_meters, Yarn.CM_PER_METER. rewrite mul_fin, div_fin by lra. reflexivity. Qed.

Lemma byColor_get (stitchCounts : Obj number) (canvasTypeId color : string) :
  NoDup (map fst stitchCounts) ->
  obj_get (Yarn.byColor (Yarn.calculateYarnUsage stitchCounts canvasTypeId)) color
  = option_map (usage_of (Yarn.cmPerStitch (canvas_of canvasTypeId)))
      (obj_get stitchCounts color).
Proof.
  intros Hnd. rewrite calculateYarnUsage_eq by assumption. cbn [Yarn.byColor].
  apply obj_get_map.
Qed.

Lemma Zceil_div_nat (k per : nat) :
  (0 < per)%nat -> Zceil (INR k / INR per) = Z.of_nat ((k + (per - 1)) / per).
Proof.
  intros Hper. apply Zceil_eq. rewrite <- INR_IZR_INZ.
  set (q := ((k + (per - 1)) / per)%nat).
  assert (per * q <= k + (per - 1) < per * q + per)%nat as [Hlo Hhi].
  { pose proof (Nat.div_mod_eq (k + (per - 1)) per) as Hdiv.
    pose proof (Nat.mod_upper_bound (k + (per - 1)) per ltac:(lia)) as Hmod.
    fold q in Hdiv. lia. }
  assert (k <= per * q)%nat as H1 by lia.
  assert (per * q + 1 <= k + per)%nat as H2 by lia.
  apply le_INR in H1. apply le_INR in H2.
  rewrite mult_INR in H1. rewrite !plus_INR, mult_INR in H2. cbn [INR] in H2.
  assert (0 < INR per) as Hp by (apply lt_0_INR; lia).
  assert (INR k = INR k / INR per * INR per) as Hx by (field; lra).
  set (X := INR k / INR per) in *. clearbody X.
  split.
  - assert (INR per * (INR q - 1) < INR per * X) as Hlt by lra.
    apply Rmult_lt_reg_l in Hlt; lra.
  - assert (INR per * X <= INR per * INR q) as Hle by lra.
    apply Rmult_le_reg_l in Hle; lra.
Qed.

Lemma skeins_of_nat (canvasTypeId : string) (k : nat) :
  Yarn.skeinsNeeded (usage_of (Yarn.cmPerStitch (canvas_of canvasTypeId)) (of_nat k))
  = of_nat ((k + (stitches_per_skein canvasTypeId - 1)) / stitches_per_skein canvasTypeId).
Proof.
  unfold usage_of, Yarn.THREAD_PER_SKEIN_M, stitches_per_skein, of_nat.
  cbn [Yarn.skeinsNeeded]. rewrite canvas_of_cm, thread_meters_fin, div_fin by lra.
  rewrite ceil_fin. f_equal.
  destruct (String.eqb canvasTypeId "sudan").
  - rewrite (INR_IZR_INZ (_ / _)), <- (Zceil_div_nat k 300) by lia. do 2 f_equal.
    rewrite (INR_IZR_INZ 300). cbn [Z.of_nat Pos.of_succ_nat Pos.succ]. lra.
  - rewrite (INR_IZR_INZ (_ / _)), <- (Zceil_div_nat k 16) by lia. do 2 f_equal.
    rewrite (INR_IZR_INZ 16). cbn [Z.of_nat Pos.of_succ_nat Pos.succ]. lra.
Qed.

(** X4: the skeins of a color: a skein covers 16 stitches on the standard
    canvas, which is also the canvas of an unknown id, and 300 on the Sudan
    canvas, and the number of skeins is the number of stitches divided by
    that, rounded up. *)
Theorem skeins_per_color (stitchCounts : Obj number) (canvasTypeId color : string)
  (k : nat) :
  NoDup (map fst stitchCounts) ->
  obj_get stitchCounts color = Some (of_nat k) ->
  exists u,
    obj_get (Yarn.byColor (Yarn.calculateYarnUsage stitchCounts canvasTypeId)) color
    = Some u
    /\ Yarn.stitches u = of_nat k
    /\ Yarn.skeinsNeeded u
       = of_nat ((k + (stitches_per_skein canvasTypeId - 1))
                 / stitches_per_skein canvasTypeId).
Proof.
  intros Hnd Hget. rewrite byColor_get, Hget by assumption. cbn [option_map].
  eexists. split; [reflexivity|]. split; [reflexivity|]. apply skeins_of_nat.
Qed.

Lemma skeins_per_color_witness :
  exists u,
    obj_get (Yarn.byColor (Yarn.calculateYarnUsage [("red"%string, of_nat 17)] "standard"))
      "red"
    = Some u
    /\ Yarn.stitches u = of_nat 17
    /\ Yarn.skeinsNeeded u
       = of_nat ((17 + (stitches_per_skein "standard" - 1))
                 / stitches_per_skein "standard").
Proof.
  refine (skeins_per_color [("red"%string, of_nat 17)] "standard" "red" 17 _ _).
  - repeat constructor. intros [].
  - reflexivity.
Defined.

Lemma meters_fold (c : R) (rs : list R) (a : R) :
  fold_left (fun a n => add a (thread_meters (Fin c) n)) (map Fin rs) (Fin a)
  = Fin (a + Rsum (map (fun r => r * c / 100) rs)).
Proof.
  unfold Rsum. revert a. induction rs as [|r rs IH]; intros a; cbn [map fold_left fold_right].
  - f_equal. lra.
  - rewrite thread_meters_fin, add_fin, IH. f_equal. lra.
Qed.

Lemma map_snd_obj_map {V W} (f : V -> W) (o : Obj V) :
  map snd (obj_map f o) = map f (map snd o).
Proof. unfold obj_map. now rewrite !map_map. Qed.

Lemma Zceil_sum (xs : list R) :
  let S := fold_right Z.add 0%Z (map Zceil xs) in
  (Zceil (Rsum xs) <= S)%Z
  /\ (xs <> [] -> (S < Zceil (Rsum xs) + Z.of_nat (List.length xs))%Z).
Proof.
  cbv zeta.
  assert (Rsum xs <= IZR (fold_right Z.add 0%Z (map Zceil xs))
          /\ (xs <> [] ->
              IZR (fold_right Z.add 0%Z (map Zceil xs)) < Rsum xs + INR (List.length xs)))
    as [Hlo Hhi].
  { unfold Rsum. induction xs as [|x xs [IH1 IH2]]; cbn [map fold_right List.length].
    - split; [lra|congruence].
    - rewrite plus_IZR, S_INR. pose proof (Zceil_bound x) as Hx. split; [lra|].
      intros _. destruct xs as [|x' xs].
      + cbn in *. lra.
      + specialize (IH2 ltac:(discriminate)). lra. }
  pose proof (Zceil_bound (Rsum xs)) as Hb. split.
  - apply Z.lt_succ_r. apply lt_IZR. rewrite succ_IZR. lra.
  - intros Hne. apply lt_IZR. rewrite plus_IZR, <- INR_IZR_INZ.
    specialize (Hhi Hne). lra.
Qed.

(** X5: the skeins of the total are computed from the total length of thread:
    they are at most the sum of the skeins of the colors, and fall short of
    it by less than the number of colors. *)
Theorem total_skeins_bounds (counts : Obj R) (canvasTypeId : string) :
  NoDup (map fst counts) ->
  let u := Yarn.calculateYarnUsage (obj_map Fin counts) canvasTypeId in
  exists T S : Z,
    Yarn.skeinsNeeded (Yarn.total u) = of_Z T
    /\ sum_numbers (map (fun e => Yarn.skeinsNeeded (snd e)) (Yarn.byColor u)) = of_Z S
    /\ (T <= S)%Z
    /\ (counts <> [] -> (S < T + Z.of_nat (List.length counts))%Z).
Proof.
  intros Hnd u. subst u. rewrite calculateYarnUsage_eq by now rewrite obj_map_keys.
  cbn [Yarn.total Yarn.byColor Yarn.skeinsNeeded]. rewrite canvas_of_cm.
  set (c := if String.eqb canvasTypeId "sudan" then 8 * 100 / 300 else 50).
  set (xs := map (fun r => r * c / 100 / 8) (map snd counts)).
  exists (Zceil (Rsum xs)), (fold_right Z.add 0%Z (map Zceil xs)).
  split; [|split].
  - rewrite map_snd_obj_map, meters_fold. unfold Yarn.THREAD_PER_SKEIN_M.
    rewrite div_fin, ceil_fin by lra. unfold of_Z. do 3 f_equal.
    subst xs. unfold Rsum. clear. induction (map snd counts) as [|r rs IH]; cbn.
    + lra.
    + cbn in IH. lra.
  - unfold sum_numbers, obj_map. rewrite !map_map. cbn [snd usage_of Yarn.skeinsNeeded].
    assert (forall (l : Obj R) (a : Z),
              fold_left add
                (map (fun x => Math.ceil
                   (div (thread_meters (Fin c) (Fin (snd x))) Yarn.THREAD_PER_SKEIN_M)) l)
                (Fin (IZR a))
              = of_Z (a + fold_right Z.add 0%Z
                            (map Zceil (map (fun r => r * c / 100 / 8) (map snd l)))))
      as Hsum.
    { induction l as [|[k r] l IH]; intros a; cbn [map fold_left fold_right snd].
      - unfold of_Z. do 2 f_equal. lia.
      - rewrite thread_meters_fin. unfold Yarn.THREAD_PER_SKEIN_M.
        rewrite div_fin, ceil_fin, add_fin, <- plus_IZR, IH by lra.
        unfold of_Z. do 2 f_equal. lia. }
    apply (Hsum counts 0%Z).
  - pose proof (Zceil_sum xs) as [H1 H2]. split; [exact H1|].
    intros Hne. subst xs. rewrite !length_map in H2. apply H2.
    destruct counts; [congruence|discriminate].
Qed.

Lemma total_skeins_bounds_witness :
  let counts := [("red"%string, 17); ("blue"%string, 20)] in
  let u := Yarn.calculateYarnUsage (obj_map Fin counts) "standard" in
  exists T S : Z,
    Yarn.skeinsNeeded (Yarn.total u) = of_Z T
    /\ sum_numbers (map (fun e => Yarn.skeinsNeeded (snd e)) (Yarn.byColor u)) = of_Z S
    /\ (T <= S)%Z
    /\ (counts <> [] -> (S < T + Z.of_nat (List.length counts))%Z).
Proof.
  refine (total_skeins_bounds [("red"%string, 17); ("blue"%string, 20)] "standard" _).
  constructor; [|repeat constructor; intros []].
  cbn. intros [H|[]]. discriminate.
Defined.

Lemma Rround2_close (x : R) : Rabs (Yarn.Rround2 x - x) <= / 200.
Proof.
  unfold Yarn.Rround2, Rlt_b. destruct (Rlt_dec x 0) as [Hx|Hx].
  - pose proof (Zfloor_bound (- x * 100 + / 2)) as Hb.
    apply Rabs_le. lra.
  - pose proof (Zfloor_bound (x * 100 + / 2)) as Hb.
    apply Rabs_le. lra.
Qed.

Lemma toFixed2_close (x : R) :
  exists y, Yarn.toFixed2 (Fin x) = Fin y /\ Rabs (y - x) <= / 200.
Proof.
  unfold Yarn.toFixed2. destruct (Rlt_b (Rabs x) (10 ^ 21)).
  - eexists. split; [reflexivity|apply Rround2_close].
  - exists x. split; [reflexivity|]. rewrite Rminus_diag, Rabs_R0. lra.
Qed.

(** X6: the lengths of thread that are reported, for a color and in total, are
    within half a hundredth of the exact length: [count * cmPerStitch / 100]
    meters for a color, and the sum of these for the total. *)
Theorem thread_rounding (counts : Obj R) (canvasTypeId color : string) (r : R) :
  NoDup (map fst counts) ->
  obj_get counts color = Some r ->
  let u := Yarn.calculateYarnUsage (obj_map Fin counts) canvasTypeId in
  exists c e m t,
    Yarn.cmPerStitch (canvas_of canvasTypeId) = Fin c
    /\ obj_get (Yarn.byColor u) color = Some e
    /\ Yarn.threadMeters e = Fin m
    /\ Rabs (m - r * c / 100) <= / 200
    /\ Yarn.threadMeters (Yarn.total u) = Fin t
    /\ Rabs (t - Rsum (map (fun r => r * c / 100) (map snd counts))) <= / 200.
Proof.
  intros Hnd Hget u. subst u.
  set (c := if String.eqb canvasTypeId "sudan" then 8 * 100 / 300 else 50).
  destruct (toFixed2_close (r * c / 100)) as (m & Hm & Hmc).
  destruct (toFixed2_close (Rsum (map (fun r => r * c / 100) (map snd counts))))
    as (t & Ht & Htc).
  exists c, (usage_of (Fin c) (Fin r)), m, t.
  split; [apply canvas_of_cm|].
  rewrite byColor_get by now rewrite obj_map_keys.
  rewrite calculateYarnUsage_eq by now rewrite obj_map_keys.
  rewrite canvas_of_cm. fold c. rewrite obj_get_map, Hget.
  cbn [option_map Yarn.total Yarn.threadMeters usage_of].
  rewrite map_snd_obj_map, meters_fold, thread_meters_fin, Rplus_0_l.
  repeat split; auto.
Qed.

Lemma thread_rounding_witness :
  let counts := [("red"%string, 17)] in
  let u := Yarn.calculateYarnUsage (obj_map Fin counts) "sudan" in
  exists c e m t,
    Yarn.cmPerStitch (canvas_of "sudan") = Fin c
    /\ obj_get (Yarn.byColor u) "red" = Some e
    /\ Yarn.threadMeters e = Fin m
    /\ Rabs (m - 17 * c / 100) <= / 200
    /\ Yarn.threadMeters (Yarn.total u) = Fin t
    /\ Rabs (t - Rsum (map (fun r => r * c / 100) (map snd counts))) <= / 200.
Proof.
  refine (thread_rounding [("red"%string, 17)] "sudan" "red" 17 _ _).
  - repeat constructor. intros [].
  - reflexivity.
Defined.

Lemma toFixed2_half (n : nat) :
  Yarn.toFixed2 (Fin (INR n * 50 / 100)) = Fin (INR n / 2).
Proof.
  unfold Yarn.toFixed2. destruct (Rlt_b (Rabs (INR n * 50 / 100)) (10 ^ 21)).
  - f_equal. unfold Yarn.Rround2. pose proof (pos_INR n) as Hn.
    rewrite Rlt_b_false by lra.
    rewrite (Zfloor_eq (50 * Z.of_nat n)).
    + rewrite mult_IZR, <- INR_IZR_INZ. lra.
    + rewrite mult_IZR, <- INR_IZR_INZ. lra.
  - f_equal. lra.
Qed.

Lemma Rsum_scale (c : R) (rs : list R) :
  Rsum (map (fun r => r * c / 100) rs) = Rsum rs * c / 100.
Proof.
  unfold Rsum. induction rs as [|r rs IH]; cbn [map fold_right]; [lra|].
  rewrite IH. lra.
Qed.

(** X7: on the standard canvas, which is also the canvas of an unknown id, a
    stitch takes half a meter, and the length that is reported is exact:
    half the number of stitches, for a color and in total. *)
Theorem standard_canvas_exact (counts : Obj nat) (canvasTypeId color : string) (k : nat) :
  NoDup (map fst counts) ->
  canvasTypeId <> "sudan"%string ->
  obj_get counts color = Some k ->
  let u := Yarn.calculateYarnUsage (obj_map of_nat counts) canvasTypeId in
  exists e,
    obj_get (Yarn.byColor u) color = Some e
    /\ Yarn.threadMeters e = Fin (INR k / 2)
    /\ Yarn.threadMeters (Yarn.total u) = Fin (INR (obj_sum counts) / 2).
Proof.
  intros Hnd Hid Hget u. subst u.
  rewrite byColor_get by now rewrite obj_map_keys.
  rewrite calculateYarnUsage_eq by now rewrite obj_map_keys.
  rewrite canvas_of_cm. apply String.eqb_neq in Hid. rewrite Hid.
  rewrite obj_get_map, Hget. cbn [option_map Yarn.total Yarn.threadMeters usage_of].
  eexists. split; [reflexivity|]. unfold of_nat. cbn [Yarn.threadMeters usage_of].
  rewrite thread_meters_fin.
  split; [apply toFixed2_half|].
  unfold obj_map. rewrite map_map. cbn [snd].
  rewrite <- (map_map snd (fun n => Fin (INR n))), <- (map_map INR Fin).
  rewrite meters_fold, Rplus_0_l, Rsum_scale, Rsum_INR.
  replace (fold_right Nat.add 0%nat (map snd counts)) with (obj_sum counts).
  - apply toFixed2_half.
  - unfold obj_sum. clear. induction counts as [|[k n] m IH]; cbn; auto.
Qed.

Lemma standard_canvas_exact_witness :
  let counts := [("red"%string, 17%nat)] in
  let u := Yarn.calculateYarnUsage (obj_map of_nat counts) "standard" in
  exists e,
    obj_get (Yarn.byColor u) "red" = Some e
    /\ Yarn.threadMeters e = Fin (INR 17 / 2)
    /\ Yarn.threadMeters (Yarn.total u) = Fin (INR (obj_sum counts) / 2).
Proof.
  refine (standard_canvas_exact [("red"%string, 17%nat)] "standard" "red" 17 _ _ _).
  - repeat constructor. intros [].
  - discriminate.
  - reflexivity.
Defined.

(** ** The color effect of [App.jsx] *)

Lemma index_cycle {A} (a : list A) (k : nat) :
  a <> [] ->
  index a (rem (of_nat k) (length_of a)) = nth_error a (k mod List.length a).
Proof.
  intros Ha. assert (0 < List.length a)%nat as Hlen by (destruct a; cbn; [congruence|lia]).
  unfold of_nat. rewrite length_of_IZR, INR_IZR_INZ, rem_int by lia.
  rewrite Z.rem_mod_nonneg by lia. rewrite index_IZR by (apply Z.mod_pos_bound; lia).
  rewrite <- Nat2Z.inj_mod, Nat2Z.id. reflexivity.
Qed.

Lemma lt_of_nat (a b : nat) : lt (of_nat a) (of_nat b) = (a <? b)%nat.
Proof.
  unfold lt, of_nat. destruct (Nat.ltb_spec a b) as [H|H].
  - apply Rlt_b_true. now apply lt_INR.
  - apply Rlt_b_false. now apply le_INR.
Qed.

Lemma strict_eq_of_nat (a b : nat) : strict_eq (of_nat a) (of_nat b) = (a =? b)%nat.
Proof.
  unfold strict_eq, of_nat. destruct (Nat.eqb_spec a b) as [->|H].
  - now apply Req_b_true.
  - apply Req_b_false. intros E. now apply INR_eq in E.
Qed.

Lemma map_nth_error_seq {A} (a : list A) (n : nat) :
  (n <= List.length a)%nat ->
  map (nth_error a) (seq 0 n) = map Some (firstn n a).
Proof.
  revert n. induction a as [|x a IH]; intros [|n] Hn; cbn in *; try reflexivity; try lia.
  f_equal. rewrite <- seq_shift, map_map. cbn. apply IH. lia.
Qed.

Lemma cycled_prefix (colors : list string) (n : nat) :
  (n <= List.length colors)%nat ->
  cycled colors (List.length colors) n = map Some (firstn n colors).
Proof.
  intros Hn. unfold cycled. rewrite <- map_nth_error_seq by assumption.
  apply map_ext_in. intros i Hi. apply in_seq in Hi.
  rewrite Nat.mod_small by lia. reflexivity.
Qed.

Lemma cycled_app (colors : list string) (period k n : nat) :
  cycled colors period k
  ++ map (fun i => nth_error colors (i mod period)) (seq k n)
  = cycled colors period (k + n).
Proof. unfold cycled. now rewrite <- map_app, <- seq_app. Qed.

Lemma push_cycle_spec (colors : list string) (n fuel k : nat) :
  colors <> [] -> (k <= n)%nat -> (n - k <= fuel)%nat ->
  push_cycle fuel colors (of_nat n) (cycled colors (List.length colors) k)
  = Some (cycled colors (List.length colors) n).
Proof.
  intros Hc. revert k. induction fuel as [|fuel IH]; intros k Hk Hfuel.
  - assert (k = n) as -> by lia. cbn [push_cycle].
    unfold length_of, cycled. rewrite length_map, length_seq, lt_of_nat, Nat.ltb_irrefl.
    reflexivity.
  - cbn [push_cycle]. unfold length_of at 1. unfold cycled at 1.
    rewrite length_map, length_seq, lt_of_nat.
    destruct (Nat.ltb_spec k n) as [Hlt|Hge].
    + unfold length_of at 1. unfold cycled at 2. rewrite length_map, length_seq.
      rewrite index_cycle by assumption.
      replace (cycled colors (List.length colors) k
               ++ [nth_error colors (k mod List.length colors)])
        with (cycled colors (List.length colors) (k + 1))
        by (now rewrite <- cycled_app).
      replace (k + 1)%nat with (S k) by lia. apply IH; lia.
    + now replace k with n by lia.
Qed.

Lemma sync_colors_spec (config : App.Config) (pattern : Pattern.t) (n fuel : nat) :
  App.colors config <> [] ->
  App_neededCount config pattern = Some (of_nat n) ->
  (Z.of_nat n < 2 ^ 32)%Z ->
  (n - List.length (App.colors config) <= fuel)%nat ->
  exists u,
    App_syncColors fuel config pattern = Some (Ok u)
    /\ colors_after config u = cycled (App.colors config) (List.length (App.colors config)) n
    /\ (u = Unchanged <-> n = List.length (App.colors config)).
Proof.
  intros Hc Hneeded Hn Hfuel. unfold App_syncColors. rewrite Hneeded.
  cbn [strict_eq_undefined to_number]. unfold length_of at 1 2.
  rewrite length_map, strict_eq_of_nat, lt_of_nat.
  destruct (Nat.eqb_spec (List.length (App.colors config)) n) as [E|E]; cbn [negb].
  - exists Unchanged. split; [reflexivity|]. split; [|split; auto].
    cbn. rewrite <- E. rewrite cycled_prefix, firstn_all; auto.
  - destruct (Nat.ltb_spec (List.length (App.colors config)) n) as [Hlt|Hge].
    + assert (map Some (App.colors config)
              = cycled (App.colors config) (List.length (App.colors config))
                  (List.length (App.colors config))) as ->
        by (rewrite cycled_prefix, firstn_all; auto).
      rewrite (push_cycle_spec (App.colors config) n fuel
                 (List.length (App.colors config)) Hc ltac:(lia) Hfuel).
      eexists. split; [reflexivity|]. split; [reflexivity|].
      split; [discriminate|intros ->; contradiction].
    + unfold set_length. rewrite array_length_of_nat by assumption. cbn [bind].
      eexists. split; [reflexivity|]. split.
      * cbn [colors_after]. rewrite length_map.
        replace (n - List.length (App.colors config))%nat with 0%nat by lia.
        cbn [repeat]. rewrite app_nil_r.
        rewrite firstn_map. symmetry. apply cycled_prefix. lia.
      * split; [discriminate|intros ->; contradiction].
Qed.

(** X8: the effect on a configuration with colors, when the number of colors
    that is needed is a natural number [n]: the loop ends, and the colors
    are afterwards the [n] colors that cycle through the former ones; they
    are left as they are exactly when there were [n] of them. *)
Theorem sync_colors_cycles (config : App.Config) (pattern : Pattern.t) (n fuel : nat) :
  App.colors config <> [] ->
  App_neededCount config pattern = Some (of_nat n) ->
  (Z.of_nat n < 2 ^ 32)%Z ->
  (n - List.length (App.colors config) <= fuel)%nat ->
  exists u,
    App_syncColors fuel config pattern = Some (Ok u)
    /\ colors_after config u = cycled (App.colors config) (List.length (App.colors config)) n
    /\ (u = Unchanged <-> n = List.length (App.colors config)).
Proof.
  apply sync_colors_spec.
Qed.

Lemma sync_colors_cycles_witness :
  exists u,
    App_syncColors 1 (unit_config ["red"%string] (Fin 1)) two_cell_pattern = Some (Ok u)
    /\ colors_after (unit_config ["red"%string] (Fin 1)) u
       = cycled ["red"%string] 1 2
    /\ (u = Unchanged <-> 2%nat = 1%nat).
Proof.
  refine (sync_colors_cycles (unit_config ["red"%string] (Fin 1)) two_cell_pattern 2 1
            _ _ _ _).
  - discriminate.
  - reflexivity.
  - lia.
  - cbn. lia.
Defined.

Lemma App_pattern_fields (config : App.Config) (p : Pattern.t) :
  App.pattern config = Ok p ->
  Pattern.width p = App.width config
  /\ Pattern.height p = App.height config
  /\ Pattern.colors p = App.colors config.
Proof.
  unfold App.pattern. cbv zeta.
  destruct (String.eqb (App.patternType config) "stripes").
  { unfold generateStripes.
    destruct (new_grid (App.height config) (App.width config)) as [[[h w] g]|];
      cbn; intros [= <-]; auto. }
  destruct (String.eqb (App.patternType config) "cubes").
  { unfold generateIsometricCubes.
    destruct (new_grid (App.height config) (App.width config)) as [[[h w] g]|];
      cbn; intros [= <-]; auto. }
  destruct (String.eqb (App.patternType config) "circles").
  { unfold generateConcentricCircles.
    destruct (new_grid (App.height config) (App.width config)) as [[[h w] g]|];
      cbn; intros [= <-]; auto. }
  destruct (String.eqb (App.patternType config) "polygons").
  { unfold generateConcentricPolygons.
    destruct (new_grid (App.height config) (App.width config)) as [[[h w] g]|];
      cbn; intros [= <-]; auto. }
  unfold generateConcentricSquares.
  destruct (new_grid (App.height config) (App.width config)) as [[[h w] g]|];
    cbn; intros [= <-]; auto.
Qed.

Lemma App_levels (config : App.Config) (w h : nat) :
  valid_config config w h ->
  exists p,
    App.pattern config = Ok p
    /\ has_size h w (Pattern.grid p)
    /\ every_cell (level_in 0 (Z.of_nat (List.length (App.colors config))))
         (Pattern.grid p).
Proof.
  intros (Ew & Eh & Hw & Hh & Hc & (rX & HrX & EX) & (rY & HrY & EY) & (t & _ & Et)
          & (ox & _ & Eox) & (oy & _ & Eoy) & (s & _ & Es) & Hsize).
  apply moderate_pos in HrX, HrY.
  unfold App.pattern. fold (App_thickness config). cbv zeta.
  rewrite Ew, Eh, EX, EY, Et, Eox, Eoy, Es.
  destruct (String.eqb (App.patternType config) "stripes").
  { destruct Hsize as (sw & Hsw%moderate_abs & ->). now apply stripes_levels. }
  destruct (String.eqb (App.patternType config) "cubes").
  2:{ apply moderate_size_valid in Hsize. revert Hsize.
      destruct (String.eqb (App.patternType config) "circles");
        [intros Hsize; now apply circles_levels|].
      destruct (String.eqb (App.patternType config) "polygons");
        [intros Hsize; now apply polygons_levels|].
      intros Hsize. now apply squares_levels. }
  revert Hsize.
  intros Hsize.
  destruct (cubes_levels w h (App.colors config) ox oy Hw Hh (App.numSquares config))
    as (p & Hp & Hs & Hl).
  exists p. split; [exact Hp|]. split; [exact Hs|].
  eapply every_cell_impl; [|exact Hl]. intros c. apply level_in_weaken. lia.
Qed.

Lemma layers_natural (M t : R) (numLayers : number) :
  0 < t ->
  exists n, (1 <= n)%nat
            /\ actual_layers (Some (Fin t)) (Fin M) numLayers = of_nat n.
Proof.
  intros Ht. rewrite actual_layers_thickness by (apply truthy_fin; lra).
  rewrite div_fin, add_fin, div_fin, ceil_fin, max_fin by lra.
  rewrite (Rmax_IZR 1).
  exists (Z.to_nat (Z.max 1 (Zceil ((M + t / 2) / t)))). split; [lia|].
  unfold of_nat. rewrite INR_IZR_INZ, Z2Nat.id by lia. reflexivity.
Qed.

Lemma or_undefined_of_nat (n : nat) (b : option number) :
  (1 <= n)%nat -> or_undefined (Some (of_nat n)) b = Some (of_nat n).
Proof.
  intros Hn. unfold or_undefined, of_nat. rewrite truthy_fin; auto.
  apply not_0_INR. lia.
Qed.

(** X9: in thickness mode, for the squares and the circles on a valid
    configuration of moderate magnitude, the number of colors that the
    effect needs is the number of layers that the generator returns, a
    natural number that is at least 1, and after the effect there are as
    many colors as layers. *)
Theorem sync_thickness_mode (config : App.Config) (w h : nat) :
  valid_config config w h ->
  App.squaresSizeMode config = "thickness"%string ->
  App.patternType config = "squares"%string \/ App.patternType config = "circles"%string ->
  exists p n,
    App.pattern config = Ok p
    /\ (1 <= n)%nat
    /\ or_undefined (Pattern.numSquares p) (Pattern.numLayers p) = Some (of_nat n)
    /\ App_neededCount config p = Some (of_nat n)
    /\ forall fuel,
         (Z.of_nat n < 2 ^ 32)%Z ->
         (n - List.length (App.colors config) <= fuel)%nat ->
         exists u,
           App_syncColors fuel config p = Some (Ok u)
           /\ List.length (colors_after config u) = n.
Proof.
  intros (Ew & Eh & Hw & Hh & Hc & (rX & HrX & EX) & (rY & HrY & EY) & (t & _ & Et)
          & (ox & _ & Eox) & (oy & _ & Eoy) & _ & Hsize) Hmode Htype.
  apply moderate_pos in HrX, HrY.
  assert (exists r, 0 < r /\ App.layerThickness config = Fin r) as (r & Hr & Er).
  { destruct Htype as [E|E]; rewrite E in Hsize; cbn in Hsize;
      unfold App_thickness in Hsize; rewrite Hmode in Hsize; cbn in Hsize;
      destruct Hsize as (r & Hr & Er); exists r; split; auto;
      now apply moderate_pos. }
  assert (exists p n,
            App.pattern config = Ok p /\ (1 <= n)%nat
            /\ or_undefined (Pattern.numSquares p) (Pattern.numLayers p) = Some (of_nat n)
            /\ (Pattern.numSquares p <> None \/ Pattern.numLayers p <> None))
    as (p & n & Hp & Hn & Hor & Hdefined).
  { unfold App.pattern. rewrite Hmode, Ew, Eh, EX, EY, Et, Eox, Eoy, Er. cbv zeta.
    destruct Htype as [E|E]; rewrite E; cbn [String.eqb Ascii.eqb Bool.eqb].
    - unfold generateConcentricSquares.
      destruct (grid_of_valid_dims h w
                  (squares_cell (of_nat w) (of_nat h) (App.numSquares config)
                     (App.colors config) (Fin rX) (Fin rY) (Some (Fin r)) (Fin t)
                     (Fin ox) (Fin oy)) Hh Hw) as (g & -> & _).
      cbn [bind]. unfold of_nat at 5 6.
      destruct (squares_maxDistance_pos (INR w) (INR h) rX rY t ox oy HrX HrY)
        as (M & -> & HM).
      destruct (layers_natural M r (App.numSquares config) Hr) as (n & Hn & En).
      eexists. exists n. split; [reflexivity|]. split; [exact Hn|].
      cbn [Pattern.numSquares Pattern.numLayers]. rewrite En.
      split; [now apply or_undefined_of_nat|left; discriminate].
    - unfold generateConcentricCircles.
      destruct (grid_of_valid_dims h w
                  (circles_cell (of_nat w) (of_nat h) (App.numSquares config)
                     (App.colors config) (Fin rX) (Fin rY) (Some (Fin r)) (Fin t)
                     (Fin ox) (Fin oy)) Hh Hw) as (g & -> & _).
      cbn [bind]. unfold of_nat at 5 6.
      destruct (circles_maxDistance_nonneg (INR w) (INR h) rX rY t ox oy HrX HrY)
        as (M & -> & HM).
      destruct (layers_natural M r (App.numSquares config) Hr) as (n & Hn & En).
      eexists. exists n. split; [reflexivity|]. split; [exact Hn|].
      cbn [Pattern.numSquares Pattern.numLayers]. rewrite En.
      split; [reflexivity|right; discriminate]. }
  assert (App_neededCount config p = Some (of_nat n)) as Hneeded.
  { unfold App_neededCount. rewrite Hmode.
    replace (String.eqb (App.patternType config) "squares"
             || String.eqb (App.patternType config) "circles")%bool with true
      by (destruct Htype as [-> | ->]; reflexivity).
    cbn [String.eqb Ascii.eqb Bool.eqb andb]. rewrite <- Hor.
    destruct (Pattern.numSquares p), (Pattern.numLayers p); try reflexivity.
    destruct Hdefined; congruence. }
  exists p, n. repeat (split; [assumption|]).
  intros fuel Hlen Hfuel.
  destruct (sync_colors_spec config p n fuel Hc Hneeded Hlen Hfuel) as (u & Hu & Hafter & _).
  exists u. split; [exact Hu|]. rewrite Hafter. unfold cycled.
  now rewrite length_map, length_seq.
Qed.

Lemma sync_thickness_mode_witness :
  exists p n,
    App.pattern (thickness_config ["red"%string]) = Ok p
    /\ (1 <= n)%nat
    /\ or_undefined (Pattern.numSquares p) (Pattern.numLayers p) = Some (of_nat n)
    /\ App_neededCount (thickness_config ["red"%string]) p = Some (of_nat n)
    /\ forall fuel,
         (Z.of_nat n < 2 ^ 32)%Z ->
         (n - List.length (App.colors (thickness_config ["red"%string])) <= fuel)%nat ->
         exists u,
           App_syncColors fuel (thickness_config ["red"%string]) p = Some (Ok u)
           /\ List.length (colors_after (thickness_config ["red"%string]) u) = n.
Proof.
  refine (sync_thickness_mode (thickness_config ["red"%string]) 1 1 _ _ _).
  - apply thickness_config_valid. discriminate.
  - reflexivity.
  - left. reflexivity.
Defined.

(** X10: the effect throws a RangeError when the number of colors that is needed
    is [undefined] or NaN or minus infinity, or a number that is not above
    the number of colors and is negative or not an integer. *)
Theorem sync_invalid_count (config : App.Config) (pattern : Pattern.t) (fuel : nat) :
  (App_neededCount config pattern = None
   \/ App_neededCount config pattern = Some NaN
   \/ App_neededCount config pattern = Some NegInf
   \/ exists r, App_neededCount config pattern = Some (Fin r)
                /\ r <= INR (List.length (App.colors config))
                /\ (r < 0 \/ IZR (Zfloor r) <> r)) ->
  App_syncColors fuel config pattern = Some (Throw RangeError).
Proof.
  unfold App_syncColors. intros [-> | [-> | [-> | (r & -> & Hle & Hr)]]];
    try reflexivity.
  cbn [strict_eq_undefined to_number]. unfold length_of, of_nat.
  rewrite length_map. cbn [strict_eq lt].
  rewrite Req_b_false.
  2:{ intros E. rewrite <- E in Hr.
      pose proof (pos_INR (List.length (App.colors config))).
      destruct Hr as [Hr|Hr]; [lra|].
      apply Hr. rewrite INR_IZR_INZ. f_equal. apply ZfloorZ. }
  rewrite Rlt_b_false by assumption.
  cbn [negb]. unfold set_length, array_length.
  destruct Hr as [Hr|Hr].
  - assert (Zfloor r < 0)%Z as Hz.
    { apply lt_IZR. pose proof (Zfloor_bound r). lra. }
    destruct (Z.leb_spec 0 (Zfloor r)); [lia|].
    rewrite andb_false_r. reflexivity.
  - rewrite Req_b_false by assumption. reflexivity.
Qed.

Lemma sync_invalid_count_witness :
  App_syncColors 0 (with_colors (unit_config ["red"%string] (Fin 1)) NaN ["red"%string])
    two_cell_pattern
  = Some (Throw RangeError).
Proof.
  refine (sync_invalid_count
            (with_colors (unit_config ["red"%string] (Fin 1)) NaN ["red"%string])
            two_cell_pattern 0 _).
  right. left. reflexivity.
Defined.

(** ** The canvas and the color picker *)

Lemma floor_in_range (a : number) (n : nat) :
  ge (Math.floor a) (Fin 0) = true -> lt (Math.floor a) (of_nat n) = true ->
  exists k, (k < n)%nat /\ Math.floor a = of_nat k.
Proof.
  destruct a as [| |r|]; cbn; try discriminate.
  unfold Rlt_b. destruct (Rlt_dec (IZR (Zfloor r)) 0) as [|Hge]; [discriminate|].
  destruct (Rlt_dec (IZR (Zfloor r)) (INR n)) as [Hlt|]; [|discriminate].
  intros _ _. rewrite INR_IZR_INZ in Hlt. apply lt_IZR in Hlt.
  assert (0 <= Zfloor r)%Z as H0 by (apply le_IZR; lra).
  exists (Z.to_nat (Zfloor r)). split; [lia|].
  unfold of_nat. rewrite INR_IZR_INZ, Z2Nat.id by assumption. reflexivity.
Qed.

Lemma index_of_nat {A} (a : list A) (k : nat) : index a (of_nat k) = nth_error a k.
Proof.
  unfold of_nat. rewrite INR_IZR_INZ, index_IZR by lia. now rewrite Nat2Z.id.
Qed.

Lemma click_full_grid (canvasRef : option PatternCanvas.Canvas) (cellSize : number)
  (p : Pattern.t) (e : PatternCanvas.MouseEvent) (w h : nat)
  (cell_at : nat -> nat -> Cell) :
  Pattern.grid p = full_grid h w cell_at ->
  Pattern.width p = of_nat w -> Pattern.height p = of_nat h ->
  (PatternCanvas.getGridCoords canvasRef cellSize p e = None
   /\ PatternCanvas.handleCanvasClick canvasRef cellSize p e = PatternCanvas.Ignored)
  \/ exists x y,
       (x < w)%nat /\ (y < h)%nat
       /\ PatternCanvas.getGridCoords canvasRef cellSize p e = Some (of_nat x, of_nat y)
       /\ PatternCanvas.handleCanvasClick canvasRef cellSize p e
          = PatternCanvas.ColorClick (level (cell_at x y)).
Proof.
  intros Hg Hw Hh. unfold PatternCanvas.handleCanvasClick.
  destruct (PatternCanvas.getGridCoords canvasRef cellSize p e) as [[gridX gridY]|] eqn:E;
    [right|left; auto].
  unfold PatternCanvas.getGridCoords in E. destruct canvasRef as [canvas|]; [|discriminate].
  cbv zeta in E. rewrite Hw, Hh in E.
  match type of E with
  | (if ?a && ?b && ?c && ?d then _ else _) = _ =>
      destruct a eqn:Ea; [|discriminate]; destruct b eqn:Eb; [|discriminate];
      destruct c eqn:Ec; [|discriminate]; destruct d eqn:Ed; [|discriminate]
  end.
  cbn in E. injection E as <- <-.
  destruct (floor_in_range _ _ Ea Eb) as (x & Hx & ->).
  destruct (floor_in_range _ _ Ec Ed) as (y & Hy & ->).
  exists x, y. split; [exact Hx|]. split; [exact Hy|]. split; [reflexivity|].
  rewrite Hg, index_of_nat.
  destruct (full_grid_nth h w cell_at x y Hx Hy) as (row & -> & Hrow).
  now rewrite index_of_nat, Hrow.
Qed.

(** X11: a click on the canvas that shows the pattern of a configuration with
    valid dimensions is ignored, or reports the level of a cell of the grid:
    no cell is read outside the grid. *)
Theorem click_reads_a_cell (config : App.Config) (w h : nat) :
  valid_dim w -> valid_dim h ->
  App.width config = of_nat w -> App.height config = of_nat h ->
  exists p,
    App.pattern config = Ok p
    /\ forall canvasRef cellSize e,
         PatternCanvas.handleCanvasClick canvasRef cellSize p e = PatternCanvas.Ignored
         \/ exists x y cell,
              (x < w)%nat /\ (y < h)%nat
              /\ PatternCanvas.getGridCoords canvasRef cellSize p e
                 = Some (of_nat x, of_nat y)
              /\ grid_at (Pattern.grid p) x y = Some cell
              /\ PatternCanvas.handleCanvasClick canvasRef cellSize p e
                 = PatternCanvas.ColorClick (level cell).
Proof.
  intros Hw Hh Ew Eh.
  destruct (app_pattern_full config w h Hw Hh Ew Eh) as (p & cell_at & Hp & Hg).
  destruct (App_pattern_fields config p Hp) as (Hpw & Hph & _).
  exists p. split; [exact Hp|]. intros canvasRef cellSize e.
  destruct (click_full_grid canvasRef cellSize p e w h cell_at Hg
              ltac:(congruence) ltac:(congruence))
    as [[_ H]|(x & y & Hx & Hy & Hc & Hclick)]; [left; exact H|right].
  exists x, y, (cell_at x y). rewrite Hg, grid_at_full by assumption. auto.
Qed.

Lemma click_reads_a_cell_witness :
  exists p,
    App.pattern (unit_config ["red"; "blue"]%string (Fin 1)) = Ok p
    /\ forall canvasRef cellSize e,
         PatternCanvas.handleCanvasClick canvasRef cellSize p e = PatternCanvas.Ignored
         \/ exists x y cell,
              (x < 1)%nat /\ (y < 1)%nat
              /\ PatternCanvas.getGridCoords canvasRef cellSize p e
                 = Some (of_nat x, of_nat y)
              /\ grid_at (Pattern.grid p) x y = Some cell
              /\ PatternCanvas.handleCanvasClick canvasRef cellSize p e
                 = PatternCanvas.ColorClick (level cell).
Proof.
  exact (click_reads_a_cell (unit_config ["red"; "blue"]%string (Fin 1)) 1 1
           valid_dim_1 valid_dim_1 eq_refl eq_refl).
Defined.

Lemma nth_error_update {A} (k : nat) (f : A -> A) (a : list A) (j : nat) :
  nth_error (update k f a) j
  = if (j =? k)%nat then option_map f (nth_error a j) else nth_error a j.
Proof.
  revert k j. induction a as [|v a IH]; intros k j.
  - destruct k, j; cbn; try reflexivity. now destruct (j =? k)%nat.
  - destruct k, j; cbn; auto.
Qed.

Lemma length_update {A} (k : nat) (f : A -> A) (a : list A) :
  List.length (update k f a) = List.length a.
Proof.
  revert k. induction a as [|v a IH]; intros k; destruct k; cbn; auto.
Qed.

Lemma array_set_inside (a : Colors) (k : nat) (v : string) :
  (k < List.length a)%nat -> (Z.of_nat (List.length a) < 2 ^ 32)%Z ->
  array_set a (of_nat k) v = update k (fun _ => Some v) a.
Proof.
  intros Hk Hlen. unfold array_set, of_nat.
  rewrite INR_IZR_INZ, ZfloorZ, Req_b_true by reflexivity.
  destruct (Z.leb_spec 0 (Z.of_nat k)); [|lia].
  destruct (Z.ltb_spec (Z.of_nat k) (2 ^ 32 - 1)); [|lia].
  cbn [andb]. rewrite Nat2Z.id.
  destruct (Nat.ltb_spec k (List.length a)); [reflexivity|lia].
Qed.

(** X12: a valid configuration of moderate magnitude, a click on the canvas
    and the choice of a color: the click is ignored, or it reports a level
    that is an index of the colors, and the choice then replaces the color
    of that index and leaves the other colors, and their number, as they
    are. *)
Theorem click_edits_one_color (config : App.Config) (w h : nat) :
  valid_config config w h ->
  (Z.of_nat (List.length (App.colors config)) < 2 ^ 32)%Z ->
  exists p,
    App.pattern config = Ok p
    /\ forall canvasRef cellSize e newColor,
         PatternCanvas.handleCanvasClick canvasRef cellSize p e = PatternCanvas.Ignored
         \/ exists (k : nat) newColors,
              (k < List.length (App.colors config))%nat
              /\ PatternCanvas.handleCanvasClick canvasRef cellSize p e
                 = PatternCanvas.ColorClick (of_nat k)
              /\ App_handleColorUpdate config (Some (of_nat k)) newColor = Some newColors
              /\ List.length newColors = List.length (App.colors config)
              /\ forall j,
                   nth_error newColors j
                   = if (j =? k)%nat then Some (Some newColor)
                     else nth_error (map Some (App.colors config)) j.
Proof.
  intros Hvalid Hlen.
  destruct (App_levels config w h Hvalid) as (p & Hp & _ & Hlevels).
  destruct Hvalid as (Ew & Eh & Hw & Hh & _).
  destruct (app_pattern_full config w h Hw Hh Ew Eh) as (p' & cell_at & Hp' & Hg).
  assert (p' = p) as -> by congruence.
  destruct (App_pattern_fields config p Hp) as (Hpw & Hph & _).
  exists p. split; [exact Hp|]. intros canvasRef cellSize e newColor.
  destruct (click_full_grid canvasRef cellSize p e w h cell_at Hg
              ltac:(congruence) ltac:(congruence))
    as [[_ H]|(x & y & Hx & Hy & _ & Hclick)]; [left; exact H|right].
  assert (level_in 0 (Z.of_nat (List.length (App.colors config))) (cell_at x y))
    as (z & Hz & Hrange).
  { rewrite Hg in Hlevels. unfold every_cell, full_grid in Hlevels.
    rewrite Forall_forall in Hlevels.
    specialize (Hlevels (map (fun x => Some (cell_at x y)) (seq 0 w))).
    rewrite Forall_forall in Hlevels.
    apply (Hlevels ltac:(apply in_map_iff; exists y; split; [reflexivity|apply in_seq; lia])
             (Some (cell_at x y))).
    apply in_map_iff. exists x. split; [reflexivity|apply in_seq; lia]. }
  exists (Z.to_nat z). eexists. split; [lia|].
  assert (of_nat (Z.to_nat z) = level (cell_at x y)) as Elevel.
  { unfold of_nat. rewrite INR_IZR_INZ, Z2Nat.id by lia. now rewrite Hz. }
  split; [now rewrite Elevel|]. unfold App_handleColorUpdate.
  rewrite array_set_inside by (rewrite length_map; lia).
  split; [reflexivity|]. split; [now rewrite length_update, length_map|].
  intros j. rewrite nth_error_update.
  destruct (Nat.eqb_spec j (Z.to_nat z)) as [->|]; [|reflexivity].
  destruct (nth_error (map Some (App.colors config)) (Z.to_nat z)) eqn:E; [reflexivity|].
  apply nth_error_None in E. rewrite length_map in E. lia.
Qed.

Lemma click_edits_one_color_witness :
  let config := unit_config ["red"; "blue"]%string (Fin 1) in
  exists p,
    App.pattern config = Ok p
    /\ forall canvasRef cellSize e newColor,
         PatternCanvas.handleCanvasClick canvasRef cellSize p e = PatternCanvas.Ignored
         \/ exists (k : nat) newColors,
              (k < List.length (App.colors config))%nat
              /\ PatternCanvas.handleCanvasClick canvasRef cellSize p e
                 = PatternCanvas.ColorClick (of_nat k)
              /\ App_handleColorUpdate config (Some (of_nat k)) newColor = Some newColors
              /\ List.length newColors = List.length (App.colors config)
              /\ forall j,
                   nth_error newColors j
                   = if (j =? k)%nat then Some (Some newColor)
                     else nth_error (map Some (App.colors config)) j.
Proof.
  refine (click_edits_one_color (unit_config ["red"; "blue"]%string (Fin 1)) 1 1 _ _).
  - apply unit_config_valid. discriminate.
  - cbn. lia.
Defined.

(** ** The control panel *)

Lemma same_color_eq (a b : option string) :
  ControlPanel.same_color a b = true <-> a = b.
Proof.
  destruct a as [x|], b as [y|]; cbn; try (split; congruence).
  rewrite String.eqb_eq. split; congruence.
Qed.

Lemma repeats_periodic (colors : list string) (p : nat) :
  (1 <= p)%nat -> ControlPanel.repeats colors p = true <-> periodic colors p.
Proof.
  intros Hp. unfold ControlPanel.repeats, periodic. rewrite forallb_forall. split.
  - intros H i Hi. destruct (Nat.lt_ge_cases i p) as [Hlt|Hge].
    + now rewrite Nat.mod_small.
    + apply same_color_eq, H, in_seq. lia.
  - intros H i Hi. apply in_seq in Hi. apply same_color_eq, H. lia.
Qed.

Lemma find_seq_first (f : nat -> bool) (a n p : nat) :
  find f (seq a n) = Some p ->
  (a <= p < a + n)%nat /\ f p = true /\ forall q, (a <= q < p)%nat -> f q = false.
Proof.
  revert a. induction n as [|n IH]; intros a; cbn; [discriminate|].
  destruct (f a) eqn:E.
  - intros [= <-]. repeat split; auto; lia.
  - intros H. destruct (IH _ H) as (Hr & Hf & Hfirst). repeat split; auto; try lia.
    intros q Hq. destruct (Nat.eq_dec q a) as [->|]; auto. apply Hfirst. lia.
Qed.

Lemma periodic_length (colors : list string) : periodic colors (List.length colors).
Proof. intros i Hi. now rewrite Nat.mod_small. Qed.

Lemma findPeriod_spec (colors : list string) :
  let p := ControlPanel.findPeriod colors in
  (p <= List.length colors)%nat
  /\ (colors <> [] -> (1 <= p)%nat)
  /\ periodic colors p
  /\ (p < List.length colors -> 2 * p <= List.length colors)%nat
  /\ (forall q, (1 <= q)%nat -> (2 * q <= List.length colors)%nat ->
                periodic colors q -> (p <= q)%nat).
Proof.
  cbv zeta. unfold ControlPanel.findPeriod.
  destruct (Nat.leb_spec (List.length colors) 1) as [Hlen|Hlen].
  - split; [lia|]. split; [destruct colors; cbn; [congruence|lia]|].
    split; [apply periodic_length|]. split; intros; lia.
  - destruct (find (ControlPanel.repeats colors) (seq 1 (List.length colors / 2)))
      as [p|] eqn:E.
    + destruct (find_seq_first _ _ _ _ E) as (Hr & Hp & Hfirst).
      pose proof (Nat.Div0.mul_div_le (List.length colors) 2) as Hhalf.
      split; [lia|]. split; [lia|]. split; [apply repeats_periodic; [lia|exact Hp]|].
      split; [lia|]. intros q Hq1 Hq2 Hq.
      destruct (Nat.le_gt_cases p q) as [|Hlt]; auto.
      apply repeats_periodic in Hq; [|lia].
      rewrite (Hfirst q ltac:(lia)) in Hq. discriminate.
    + split; [lia|]. split; [lia|]. split; [apply periodic_length|].
      split; [lia|]. intros q Hq1 Hq2 Hq. exfalso.
      apply repeats_periodic in Hq; [|lia].
      rewrite (find_none _ _ E q) in Hq; [discriminate|].
      apply in_seq. split; [lia|].
      assert (q <= List.length colors / 2)%nat by (apply Nat.div_le_lower_bound; lia).
      lia.
Qed.

Lemma findPeriod_bounds (colors : list string) :
  (ControlPanel.findPeriod colors <= List.length colors)%nat
  /\ (colors <> [] -> (1 <= ControlPanel.findPeriod colors)%nat).
Proof. destruct (findPeriod_spec colors) as (H1 & H2 & _). auto. Qed.

Lemma findPeriod_periodic (colors : list string) :
  periodic colors (ControlPanel.findPeriod colors).
Proof.
  apply findPeriod_spec.
Qed.

(** X13: [findPeriod] returns a period of the colors, between 1 and their number
    when there are colors: the least period that is at most half their
    number, if there is one, and their number otherwise. *)
Theorem findPeriod_least (colors : list string) :
  let p := ControlPanel.findPeriod colors in
  (p <= List.length colors)%nat
  /\ (colors <> [] -> (1 <= p)%nat)
  /\ periodic colors p
  /\ (p < List.length colors -> 2 * p <= List.length colors)%nat
  /\ (forall q, (1 <= q)%nat -> (2 * q <= List.length colors)%nat ->
                periodic colors q -> (p <= q)%nat).
Proof.
  apply findPeriod_spec.
Qed.

Lemma length_cycled (colors : list string) (p n : nat) :
  List.length (cycled colors p n) = n.
Proof. unfold cycled. now rewrite length_map, length_seq. Qed.

Lemma nth_error_cycled (colors : list string) (p n i : nat) :
  (i < n)%nat -> nth_error (cycled colors p n) i = Some (nth_error colors (i mod p)).
Proof.
  intros Hi. unfold cycled.
  rewrite (nth_error_map (fun i => nth_error colors (i mod p))).
  rewrite nth_error_seq. destruct (Nat.ltb_spec i n); [reflexivity|lia].
Qed.

Lemma cycled_periodic (colors : list string) (p n : nat) :
  periodic colors p -> (n <= List.length colors)%nat ->
  cycled colors p n = map Some (firstn n colors).
Proof.
  intros Hp Hn. rewrite <- map_nth_error_seq by assumption. unfold cycled.
  apply map_ext_in. intros i Hi. apply in_seq in Hi. symmetry. apply Hp. lia.
Qed.

Lemma entry_cycled (colors : list string) (p k : nat) :
  ((1 <= p <= k)%nat \/ (p = 0%nat /\ colors = [])) ->
  entry (cycled colors p k) (rem (of_nat k) (of_nat p)) = nth_error colors (k mod p).
Proof.
  intros [Hp|[-> ->]].
  - unfold of_nat. rewrite !INR_IZR_INZ, rem_int by lia.
    rewrite Z.rem_mod_nonneg, <- Nat2Z.inj_mod by lia.
    unfold entry. rewrite <- INR_IZR_INZ. fold (of_nat (k mod p)).
    rewrite index_of_nat.
    pose proof (Nat.mod_upper_bound k p ltac:(lia)) as Hmod.
    rewrite nth_error_cycled by lia. now rewrite Nat.mod_small by lia.
  - unfold entry. rewrite rem_zero. cbn. now rewrite nth_error_nil.
Qed.

Lemma push_period_spec (colors : list string) (p : nat) (r : R) (fuel k : nat) :
  ((1 <= p <= k)%nat \/ (p = 0%nat /\ colors = [])) ->
  r <= 20 -> (20 - k <= fuel)%nat ->
  ControlPanel.push_period fuel p (Fin r) (cycled colors p k)
  = Some (cycled colors p (Nat.max k (Z.to_nat (Zceil r)))).
Proof.
  intros Hp Hr. revert k Hp. induction fuel as [|fuel IH]; intros k Hp Hfuel;
    cbn [ControlPanel.push_period]; unfold length_of; rewrite length_cycled;
    unfold of_nat at 1; cbn [lt]; unfold Rlt_b;
    pose proof (Zceil_bound r) as Hc;
    destruct (Rlt_dec (INR k) r) as [Hlt|Hge].
  - exfalso. assert (INR k < INR 20) as H by (rewrite (INR_IZR_INZ 20); cbn; lra).
    apply INR_lt in H. lia.
  - f_equal. f_equal. rewrite Nat.max_l; auto.
    assert (Zceil r <= Z.of_nat k)%Z; [|lia].
    apply Z.lt_succ_r, lt_IZR. rewrite succ_IZR, <- INR_IZR_INZ. lra.
  - rewrite entry_cycled by assumption.
    replace (cycled colors p k ++ [nth_error colors (k mod p)])
      with (cycled colors p (S k))
      by (rewrite <- Nat.add_1_r, <- (cycled_app colors p k 1); reflexivity).
    rewrite IH.
    + f_equal. f_equal.
      assert (Z.of_nat k < Zceil r)%Z; [|lia].
      apply lt_IZR. rewrite <- INR_IZR_INZ. lra.
    + destruct Hp as [Hp|Hp]; [left; lia|right; exact Hp].
    + lia.
  - f_equal. f_equal. rewrite Nat.max_l; auto.
    assert (Zceil r <= Z.of_nat k)%Z; [|lia].
    apply Z.lt_succ_r, lt_IZR. rewrite succ_IZR, <- INR_IZR_INZ. lra.
Qed.

Lemma findPeriod_cases (colors : list string) :
  ((1 <= ControlPanel.findPeriod colors <= List.length colors)%nat
   \/ (ControlPanel.findPeriod colors = 0%nat /\ colors = [])).
Proof.
  destruct (findPeriod_bounds colors) as (Hle & Hpos).
  destruct colors as [|c colors]; [right; split; [reflexivity|reflexivity]|].
  left. split; [apply Hpos; discriminate|exact Hle].
Qed.

Lemma clamp_cases (M : Z) (num : number) :
  (1 <= M)%Z ->
  let newNum := Math.max (Fin 1) (Math.min (Fin (IZR M)) num) in
  (num = NaN /\ newNum = NaN)
  \/ exists r, newNum = Fin r /\ 1 <= r <= IZR M
               /\ forall z, num = Fin (IZR z) -> r = IZR (Z.max 1 (Z.min M z)).
Proof.
  intros HM. cbv zeta. apply IZR_le in HM.
  destruct num as [| |x|]; [left; auto|right..].
  - exists 1. cbn. repeat split; try lra. discriminate.
  - exists (Rmax 1 (Rmin (IZR M) x)). rewrite min_fin, max_fin. split; [reflexivity|].
    split.
    + split; [apply Rmax_l|]. apply Rmax_lub; [lra|apply Rmin_l].
    + intros z [= ->]. now rewrite Rmin_IZR, (Rmax_IZR 1).
  - exists (IZR M). cbn. unfold Rlt_b.
    split; [destruct (Rlt_dec 1 (IZR M)); f_equal; lra|].
    split; [lra|discriminate].
Qed.

Lemma resize_spec (colors : list string) (num : number) (fuel : nat) :
  (20 <= fuel)%nat ->
  let newNum := Math.max (Fin 1) (Math.min (Fin 20) num) in
  exists n,
    ControlPanel.resize fuel newNum colors
    = Some (cycled colors (ControlPanel.findPeriod colors) n)
    /\ (n <= 20)%nat
    /\ (num = NaN -> n = 0%nat)
    /\ (num <> NaN -> (1 <= n)%nat /\ exists r, newNum = Fin r /\ INR n < r + 1 /\ r <= INR n + 1)
    /\ (forall z, num = Fin (IZR z) -> n = Z.to_nat (Z.max 1 (Z.min 20 z))).
Proof.
  intros Hfuel. cbv zeta.
  pose proof (findPeriod_periodic colors) as Hper.
  destruct (clamp_cases 20 num ltac:(lia)) as [[-> ->]|(r & Er & Hr & Hz)].
  - exists 0%nat. unfold ControlPanel.resize. cbn.
    repeat split; auto; try lia; congruence.
  - assert (num <> NaN) as Hnum by (intros ->; discriminate).
    rewrite Er. clear Er.
    unfold ControlPanel.resize. unfold gt, length_of, of_nat. rewrite length_map.
    cbn [lt]. unfold Rlt_b.
    pose proof (Zceil_bound r) as Hc. pose proof (Zfloor_bound r) as Hf.
    destruct (Rlt_dec (INR (List.length colors)) r) as [Hlt|Hge].
    + exists (Z.to_nat (Zceil r)).
      assert (1 <= Zceil r <= 20)%Z as Hceil.
      { split.
        - assert (0 < Zceil r)%Z by (apply lt_IZR; lra). lia.
        - apply Z.lt_succ_r, lt_IZR. rewrite succ_IZR. lra. }
      replace (map Some colors)
        with (cycled colors (ControlPanel.findPeriod colors) (List.length colors))
        by (rewrite cycled_periodic, firstn_all; auto).
      rewrite push_period_spec by (auto using findPeriod_cases; lra || lia).
      assert (Z.of_nat (List.length colors) < Zceil r)%Z
        by (apply lt_IZR; rewrite <- INR_IZR_INZ; lra).
      rewrite Nat.max_r by lia.
      split; [reflexivity|]. split; [lia|]. split; [intros; contradiction|]. split.
      * intros _. split; [lia|]. exists r. split; [reflexivity|].
        rewrite INR_IZR_INZ, Z2Nat.id by lia. lra.
      * intros z Ez. rewrite (Hz z Ez), Zceil_IZR. reflexivity.
    + exists (Z.to_nat (Zfloor r)).
      assert (1 <= Zfloor r <= 20)%Z as Hfloor.
      { split.
        - apply Zfloor_lub. lra.
        - apply le_IZR. lra. }
      assert (Zfloor r <= Z.of_nat (List.length colors))%Z as Hlen
        by (apply le_IZR; rewrite <- INR_IZR_INZ; lra).
      unfold ControlPanel.splice, Rtrunc. rewrite Rlt_b_false by lra.
      destruct (Z.ltb_spec (Zfloor r) 0); [lia|].
      rewrite length_map, Z.min_l by assumption.
      rewrite firstn_map,
        <- (cycled_periodic colors (ControlPanel.findPeriod colors)) by (auto; lia).
      split; [reflexivity|]. split; [lia|]. split; [intros; contradiction|]. split.
      * intros _. split; [lia|]. exists r. split; [reflexivity|].
        rewrite INR_IZR_INZ, Z2Nat.id by lia. lra.
      * intros z Ez. rewrite (Hz z Ez), ZfloorZ. reflexivity.
Qed.

(** X14: [handleNumColorsChange] ends within twenty turns of its loop, whatever
    the number it is given, and sets the colors to the [n] colors that
    repeat the former ones with their period: [n] is the number given,
    brought into 1..20, when it is an integer, and 0 when it is NaN.  The
    colors of the indices that remain are kept. *)
Theorem handleNumColorsChange_cycles (config : App.Config) (num : number) (fuel : nat) :
  (20 <= fuel)%nat ->
  let p := ControlPanel.findPeriod (App.colors config) in
  exists n,
    ControlPanel.handleNumColorsChange fuel config num
    = Some {| ControlPanel.numSquares := None;
              ControlPanel.colors := Some (cycled (App.colors config) p n) |}
    /\ (n <= 20)%nat
    /\ (num = NaN -> n = 0%nat)
    /\ (num <> NaN -> (1 <= n)%nat)
    /\ (forall z, num = Fin (IZR z) -> n = Z.to_nat (Z.max 1 (Z.min 20 z)))
    /\ (forall i, (i < n)%nat -> (i < List.length (App.colors config))%nat ->
                  nth_error (cycled (App.colors config) p n) i
                  = Some (nth_error (App.colors config) i)).
Proof.
  intros Hfuel p.
  destruct (resize_spec (App.colors config) num fuel Hfuel)
    as (n & Hresize & Hn & Hnan & Hnum & Hz).
  exists n. unfold ControlPanel.handleNumColorsChange. rewrite Hresize.
  split; [reflexivity|]. split; [exact Hn|]. split; [exact Hnan|].
  split; [intros H; apply (Hnum H)|]. split; [exact Hz|].
  intros i Hi Hlen. rewrite nth_error_cycled by assumption. f_equal.
  symmetry. now apply findPeriod_periodic.
Qed.

Lemma handleNumColorsChange_cycles_witness :
  let config := unit_config ["red"; "blue"]%string (Fin 1) in
  let p := ControlPanel.findPeriod (App.colors config) in
  exists n,
    ControlPanel.handleNumColorsChange 20 config (Fin 3)
    = Some {| ControlPanel.numSquares := None;
              ControlPanel.colors := Some (cycled (App.colors config) p n) |}
    /\ (n <= 20)%nat
    /\ (Fin 3 = NaN -> n = 0%nat)
    /\ (Fin 3 <> NaN -> (1 <= n)%nat)
    /\ (forall z, Fin 3 = Fin (IZR z) -> n = Z.to_nat (Z.max 1 (Z.min 20 z)))
    /\ (forall i, (i < n)%nat -> (i < List.length (App.colors config))%nat ->
                  nth_error (cycled (App.colors config) p n) i
                  = Some (nth_error (App.colors config) i)).
Proof.
  refine (handleNumColorsChange_cycles (unit_config ["red"; "blue"]%string (Fin 1))
            (Fin 3) 20 _).
  lia.
Defined.

Lemma cycled_strings (colors : list string) (p n : nat) :
  (1 <= p <= List.length colors)%nat ->
  exists newColors : list string,
    cycled colors p n = map Some newColors /\ List.length newColors = n.
Proof.
  intros Hp. exists (map (fun i => nth (i mod p) colors ""%string) (seq 0 n)).
  split; [|now rewrite length_map, length_seq].
  unfold cycled. rewrite map_map. apply map_ext. intros i.
  apply nth_error_nth'. pose proof (Nat.mod_upper_bound i p ltac:(lia)). lia.
Qed.

(** X15: [handleNumSquaresChange] on the squares, given an integer: the number of
    layers is brought into 1..20 and there are then as many colors as
    layers, so that in count mode the effect of [App.jsx] leaves the new
    configuration as it is. *)
Theorem handleNumSquaresChange_in_sync (config : App.Config) (z : Z) (fuel : nat) :
  App.patternType config = "squares"%string ->
  App.colors config <> [] ->
  (20 <= fuel)%nat ->
  let n := Z.to_nat (Z.max 1 (Z.min 20 z)) in
  exists newColors : list string,
    ControlPanel.handleNumSquaresChange fuel config (Fin (IZR z))
    = Some {| ControlPanel.numSquares := Some (of_nat n);
              ControlPanel.colors := Some (map Some newColors) |}
    /\ List.length newColors = n
    /\ (forall i, (i < n)%nat -> (i < List.length (App.colors config))%nat ->
                  nth_error newColors i = nth_error (App.colors config) i)
    /\ (App.squaresSizeMode config <> "thickness"%string ->
        forall pattern fuel',
          App_syncColors fuel' (with_colors config (of_nat n) newColors) pattern
          = Some (Ok Unchanged)).
Proof.
  intros Htype Hc Hfuel n.
  destruct (resize_spec (App.colors config) (Fin (IZR z)) fuel Hfuel)
    as (n' & Hresize & _ & _ & _ & Hz).
  specialize (Hz z eq_refl). subst n'. fold n in Hresize.
  destruct (findPeriod_bounds (App.colors config)) as (Hle & Hpos).
  destruct (cycled_strings (App.colors config)
              (ControlPanel.findPeriod (App.colors config)) n ltac:(auto))
    as (newColors & Hnew & Hlen).
  exists newColors. unfold ControlPanel.handleNumSquaresChange.
  rewrite Htype. cbn [String.eqb Ascii.eqb Bool.eqb].
  rewrite min_fin, max_fin, Rmin_IZR, (Rmax_IZR 1).
  assert (Fin (IZR (Z.max 1 (Z.min 20 z))) = of_nat n) as ->.
  { unfold of_nat, n. rewrite INR_IZR_INZ, Z2Nat.id by lia. reflexivity. }
  assert (of_nat n = Math.max (Fin 1) (Math.min (Fin 20) (Fin (IZR z)))) as Hnum.
  { rewrite min_fin, max_fin, Rmin_IZR, (Rmax_IZR 1).
    unfold of_nat, n. rewrite INR_IZR_INZ, Z2Nat.id by lia. reflexivity. }
  rewrite Hnum, Hresize, <- Hnum, Hnew.
  split; [reflexivity|]. split; [exact Hlen|]. split.
  - intros i Hi Hilen.
    assert (nth_error (map Some newColors) i = Some (nth_error (App.colors config) i)) as H.
    { rewrite <- Hnew, nth_error_cycled by assumption. f_equal.
      symmetry. now apply findPeriod_periodic. }
    rewrite nth_error_map in H. destruct (nth_error newColors i); cbn in H; congruence.
  - intros Hmode pattern fuel'. unfold App_syncColors, App_neededCount.
    cbn [with_colors App.squaresSizeMode App.patternType App.numSquares App.colors].
    apply String.eqb_neq in Hmode. rewrite Hmode. cbn [andb strict_eq_undefined].
    unfold length_of. rewrite Hlen, strict_eq_of_nat, Nat.eqb_refl. reflexivity.
Qed.

Lemma handleNumSquaresChange_in_sync_witness :
  let config := unit_config ["red"; "blue"]%string (Fin 1) in
  let n := Z.to_nat (Z.max 1 (Z.min 20 3)) in
  exists newColors : list string,
    ControlPanel.handleNumSquaresChange 20 config (Fin (IZR 3))
    = Some {| ControlPanel.numSquares := Some (of_nat n);
              ControlPanel.colors := Some (map Some newColors) |}
    /\ List.length newColors = n
    /\ (forall i, (i < n)%nat -> (i < List.length (App.colors config))%nat ->
                  nth_error newColors i = nth_error (App.colors config) i)
    /\ (App.squaresSizeMode config <> "thickness"%string ->
        forall pattern fuel',
          App_syncColors fuel' (with_colors config (of_nat n) newColors) pattern
          = Some (Ok Unchanged)).
Proof.
  refine (handleNumSquaresChange_in_sync (unit_config ["red"; "blue"]%string (Fin 1))
            3 20 _ _ _).
  - reflexivity.
  - discriminate.
  - lia.
Defined.

(** X16: [handlePatternTypeChange] to the cubes leaves exactly three colors, the
    first three there were, with ["#abcdef"] where one was missing; on a
    grid of valid dimensions with finite offsets every level of the pattern
    of the new configuration is then an index of its colors. *)
Theorem handlePatternTypeChange_cubes (config : App.Config) (w h : nat) (ox oy : R) :
  valid_dim w -> valid_dim h ->
  App.width config = of_nat w -> App.height config = of_nat h ->
  App.offsetX config = Fin ox -> App.offsetY config = Fin oy ->
  let config' := ControlPanel.handlePatternTypeChange config "cubes" in
  List.length (App.colors config') = 3%nat
  /\ (forall i, (i < 3)%nat ->
                nth_error (App.colors config') i
                = Some (nth i (App.colors config) "#abcdef"%string))
  /\ exists p,
       App.pattern config' = Ok p
       /\ has_size h w (Pattern.grid p)
       /\ every_cell (level_in 0 (Z.of_nat (List.length (App.colors config'))))
            (Pattern.grid p).
Proof.
  intros Hw Hh Ew Eh Eox Eoy config'.
  assert (List.length (App.colors config') = 3%nat
          /\ forall i, (i < 3)%nat ->
                       nth_error (App.colors config') i
                       = Some (nth i (App.colors config) "#abcdef"%string))
    as [Hlen Hnth].
  { subst config'. unfold ControlPanel.handlePatternTypeChange.
    cbn [String.eqb Ascii.eqb Bool.eqb App.colors].
    destruct (App.colors config) as [|a [|b [|c cs]]]; cbn; (split; [reflexivity|]);
      intros [|[|[|i]]] Hi; try reflexivity; lia. }
  split; [exact Hlen|]. split; [exact Hnth|].
  rewrite Hlen. unfold App.pattern. subst config'.
  unfold ControlPanel.handlePatternTypeChange in *.
  cbn [String.eqb Ascii.eqb Bool.eqb App.colors App.patternType App.width App.height
       App.numSquares App.offsetX App.offsetY] in *.
  rewrite Ew, Eh, Eox, Eoy. apply cubes_levels; assumption.
Qed.

Lemma handlePatternTypeChange_cubes_witness :
  let config := unit_config ["red"; "blue"]%string (Fin 1) in
  let config' := ControlPanel.handlePatternTypeChange config "cubes" in
  List.length (App.colors config') = 3%nat
  /\ (forall i, (i < 3)%nat ->
                nth_error (App.colors config') i
                = Some (nth i (App.colors config) "#abcdef"%string))
  /\ exists p,
       App.pattern config' = Ok p
       /\ has_size 1 1 (Pattern.grid p)
       /\ every_cell (level_in 0 (Z.of_nat (List.length (App.colors config'))))
            (Pattern.grid p).
Proof.
  exact (handlePatternTypeChange_cubes (unit_config ["red"; "blue"]%string (Fin 1))
           1 1 0 0 valid_dim_1 valid_dim_1 eq_refl eq_refl eq_refl eq_refl).
Defined.

Lemma getPalette_five (key : string) :
  List.length (ColorPalettes.colors (ColorPalettes.getPalette key)) = 5%nat.
Proof.
  unfold ColorPalettes.getPalette, ColorPalettes.COLOR_PALETTES. cbn [obj_get].
  repeat (match goal with
          | |- context [if ?b then _ else _] => destruct b; [reflexivity|]
          end).
  reflexivity.
Qed.

Lemma array_from_IZR {A} (k : Z) (f : nat -> A) :
  (0 <= k < 2 ^ 32)%Z ->
  ControlPanel.array_from (Fin (IZR k)) f = Ok (map f (seq 0 (Z.to_nat k))).
Proof.
  intros Hk. unfold ControlPanel.array_from, Rtrunc.
  rewrite Rlt_b_false by (apply IZR_le; lia). rewrite ZfloorZ.
  rewrite Z.max_l, Z.min_l by lia.
  destruct (Z.ltb_spec k (2 ^ 32)); [reflexivity|lia].
Qed.

Lemma cycle_palette (palette : list string) (n : nat) :
  palette <> [] ->
  map (fun i => index palette (rem (of_nat i) (length_of palette))) (seq 0 n)
  = cycled palette (List.length palette) n.
Proof.
  intros Hp. unfold cycled. apply map_ext. intros i. now apply index_cycle.
Qed.

(** X17: [handlePaletteChange]: every key gives a palette of five colors.  The
    cubes get its first three colors.  The other patterns get the colors
    that cycle through the palette, as many as there were, and at least
    five; for the squares these are as many as there were layers, and the
    number of layers is raised to five when it was smaller. *)
Theorem handlePaletteChange_fills (config : App.Config) (paletteKey : string) :
  let palette := ColorPalettes.colors (ColorPalettes.getPalette paletteKey) in
  List.length palette = 5%nat
  /\ (App.patternType config = "cubes"%string ->
      ControlPanel.handlePaletteChange config paletteKey
      = Ok {| ControlPanel.numSquares := None;
              ControlPanel.colors := Some (map Some (firstn 3 palette)) |}
      /\ List.length (firstn 3 palette) = 3%nat)
  /\ (App.patternType config = "squares"%string ->
      forall k : Z,
        App.numSquares config = Fin (IZR k) -> (k < 2 ^ 32)%Z ->
        let n := Z.to_nat (Z.max k 5) in
        ControlPanel.handlePaletteChange config paletteKey
        = Ok {| ControlPanel.numSquares := Some (of_nat n);
                ControlPanel.colors := Some (cycled palette 5 n) |})
  /\ (App.patternType config <> "cubes"%string ->
      App.patternType config <> "squares"%string ->
      (Z.of_nat (List.length (App.colors config)) < 2 ^ 32)%Z ->
      let n := Nat.max (List.length (App.colors config)) 5 in
      ControlPanel.handlePaletteChange config paletteKey
      = Ok {| ControlPanel.numSquares := None;
              ControlPanel.colors := Some (cycled palette 5 n) |}).
Proof.
  intros palette. pose proof (getPalette_five paletteKey) as Hfive. fold palette in Hfive.
  assert (palette <> []) as Hne by (intros E; rewrite E in Hfive; discriminate).
  split; [exact Hfive|]. unfold ControlPanel.handlePaletteChange. fold palette.
  split; [|split].
  - intros ->. cbn [String.eqb Ascii.eqb Bool.eqb]. split; [reflexivity|].
    rewrite length_firstn, Hfive. reflexivity.
  - intros -> k Hk Hlt. cbv zeta. cbn [String.eqb Ascii.eqb Bool.eqb]. rewrite Hk.
    assert (Math.max (Fin (IZR k)) (length_of palette) = Fin (IZR (Z.max k 5))) as ->.
    { unfold length_of, of_nat. rewrite Hfive, (INR_IZR_INZ 5), max_fin, Rmax_IZR.
      reflexivity. }
    rewrite array_from_IZR by lia. cbn [bind].
    rewrite cycle_palette, Hfive by assumption.
    do 3 f_equal. unfold of_nat. rewrite INR_IZR_INZ, Z2Nat.id by lia. reflexivity.
  - intros Hcubes Hsquares Hlen. cbv zeta.
    apply String.eqb_neq in Hcubes, Hsquares. rewrite Hcubes, Hsquares.
    assert (Math.max (length_of (App.colors config)) (length_of palette)
            = Fin (IZR (Z.max (Z.of_nat (List.length (App.colors config))) 5))) as ->.
    { unfold length_of, of_nat. rewrite Hfive, !INR_IZR_INZ, max_fin, Rmax_IZR.
      reflexivity. }
    rewrite array_from_IZR by lia. cbn [bind].
    rewrite cycle_palette, Hfive by assumption.
    replace (Z.to_nat (Z.max (Z.of_nat (List.length (App.colors config))) 5))
      with (Nat.max (List.length (App.colors config)) 5) by lia.
    reflexivity.
Qed.

(** X18: [getRandomPalette] always returns a palette of the table, never
    [undefined], for a random number of [0, 1). *)
Theorem getRandomPalette_defined (r : R) :
  0 <= r < 1 ->
  exists key palette,
    In (key, palette) ColorPalettes.COLOR_PALETTES
    /\ ColorPalettes.getRandomPalette (Fin r) = Some palette.
Proof.
  intros Hr. unfold ColorPalettes.getRandomPalette. cbv zeta.
  unfold length_of, of_nat. rewrite length_map.
  change (List.length ColorPalettes.COLOR_PALETTES) with 10%nat.
  rewrite (INR_IZR_INZ 10), mul_fin, floor_fin.
  cbn [Z.of_nat Pos.of_succ_nat Pos.succ].
  pose proof (Zfloor_bound (r * 10)) as Hb.
  assert (0 <= Zfloor (r * 10) < 10)%Z as Hz.
  { split.
    - apply Zfloor_lub. lra.
    - apply lt_IZR. lra. }
  rewrite index_IZR by lia.
  destruct (nth_error (map snd ColorPalettes.COLOR_PALETTES) (Z.to_nat (Zfloor (r * 10))))
    as [palette|] eqn:E.
  - apply nth_error_In, in_map_iff in E. destruct E as ([key palette'] & Hsnd & Hin).
    cbn in Hsnd. subst palette'. exists key, palette. split; [exact Hin|reflexivity].
  - apply nth_error_None in E. rewrite length_map in E.
    change (List.length ColorPalettes.COLOR_PALETTES) with 10%nat in E. lia.
Qed.

Lemma getRandomPalette_defined_witness :
  exists key palette,
    In (key, palette) ColorPalettes.COLOR_PALETTES
    /\ ColorPalettes.getRandomPalette (Fin (/ 2)) = Some palette.
Proof.
  refine (getRandomPalette_defined (/ 2) _).
  lra.
Defined.

(** ** The corners bound the distances of the squares *)

Lemma Rabs_between (lo hi v : R) : lo <= v <= hi -> Rabs v <= Rmax (Rabs lo) (Rabs hi).
Proof.
  intros [Hlo Hhi]. apply Rabs_le. split.
  - apply Rle_trans with (- Rabs lo).
    + apply Ropp_le_contravar, Rmax_l.
    + pose proof (Rle_abs (- lo)) as H. rewrite Rabs_Ropp in H. lra.
  - apply Rle_trans with (Rabs hi); [|apply Rmax_r].
    pose proof (Rle_abs hi). lra.
Qed.

Lemma Rabs_affine_segment (a c W x : R) :
  0 <= x <= W -> Rabs (a * x + c) <= Rmax (Rabs c) (Rabs (a * W + c)).
Proof.
  intros Hx. destruct (Rle_dec 0 a) as [Ha|Ha].
  - apply Rabs_between. split; nra.
  - rewrite Rmax_comm. apply Rabs_between. split; nra.
Qed.

Lemma Rabs_affine_box (a b c W H x y : R) :
  0 <= x <= W -> 0 <= y <= H ->
  Rabs (a * x + b * y + c) <= Rabs c
  \/ Rabs (a * x + b * y + c) <= Rabs (a * W + c)
  \/ Rabs (a * x + b * y + c) <= Rabs (b * H + c)
  \/ Rabs (a * x + b * y + c) <= Rabs (a * W + b * H + c).
Proof.
  intros Hx Hy.
  pose proof (Rabs_affine_segment a (b * y + c) W x Hx) as H1.
  pose proof (Rabs_affine_segment b c H y Hy) as H2.
  pose proof (Rabs_affine_segment b (a * W + c) H y Hy) as H3.
  replace (a * x + (b * y + c)) with (a * x + b * y + c) in H1 by ring.
  replace (a * W + (b * y + c)) with (b * y + (a * W + c)) in H1 by ring.
  replace (b * H + (a * W + c)) with (a * W + b * H + c) in H3 by ring.
  destruct (Rmax_cases (Rabs (b * y + c)) (Rabs (b * y + (a * W + c)))) as [[_ E]|[_ E]];
    rewrite E in H1.
  - destruct (Rmax_cases (Rabs (a * W + c)) (Rabs (a * W + b * H + c))) as [[_ E']|[_ E']];
      rewrite E' in H3; [right; right; right|right; left]; lra.
  - destruct (Rmax_cases (Rabs c) (Rabs (b * H + c))) as [[_ E']|[_ E']];
      rewrite E' in H2; [right; right; left|left]; lra.
Qed.

Lemma Rsquares_distance_bound (w h rX rY t ox oy x y : R) :
  0 < rX -> 0 < rY -> 0 <= x <= w - 1 -> 0 <= y <= h - 1 ->
  Rsquares_distance w h rX rY t ox oy x y
  <= Rmax (Rmax (Rmax (Rmax 0
        (Rsquares_distance w h rX rY t ox oy 0 0))
        (Rsquares_distance w h rX rY t ox oy (w - 1) 0))
        (Rsquares_distance w h rX rY t ox oy 0 (h - 1)))
        (Rsquares_distance w h rX rY t ox oy (w - 1) (h - 1)).
Proof.
  intros HX HY Hx Hy.
  set (M := Rmax _ _).
  assert (forall u v, (u = 0 \/ u = w - 1) -> (v = 0 \/ v = h - 1) ->
                      Rsquares_distance w h rX rY t ox oy u v <= M) as Hcorner.
  { intros u v [-> | ->] [-> | ->]; subst M.
    - eapply Rle_trans; [|apply Rmax_l]. eapply Rle_trans; [|apply Rmax_l].
      eapply Rle_trans; [|apply Rmax_l]. apply Rmax_r.
    - eapply Rle_trans; [|apply Rmax_l]. apply Rmax_r.
    - eapply Rle_trans; [|apply Rmax_l]. eapply Rle_trans; [|apply Rmax_l]. apply Rmax_r.
    - apply Rmax_r. }
  clearbody M. unfold Rsquares_distance in *. cbv zeta in *.
  set (c := cos (t * double_PI / 180)) in *. set (s := sin (t * double_PI / 180)) in *.
  set (cx := (w - 1) / 2 + ox) in *. set (cy := (h - 1) / 2 + oy) in *.
  assert (forall a b k r, 0 < r ->
            (forall u v, (u = 0 \/ u = w - 1) -> (v = 0 \/ v = h - 1) ->
                         (Rabs (a * u + b * v + k) + / 10 ^ 10) / r <= M) ->
            (Rabs (a * x + b * y + k) + / 10 ^ 10) / r <= M) as Hside.
  { intros a b k r Hr Hc.
    assert (forall p q, p <= q -> (p + / 10 ^ 10) / r <= (q + / 10 ^ 10) / r) as Hmono.
    { intros p q Hpq. apply Rmult_le_compat_r; [|lra].
      apply Rlt_le, Rinv_0_lt_compat, Hr. }
    destruct (Rabs_affine_box a b k (w - 1) (h - 1) x y Hx Hy) as [H|[H|[H|H]]];
      apply Hmono in H; eapply Rle_trans; try exact H.
    - specialize (Hc 0 0 (or_introl eq_refl) (or_introl eq_refl)).
      replace (a * 0 + b * 0 + k) with k in Hc by ring. exact Hc.
    - specialize (Hc (w - 1) 0 (or_intror eq_refl) (or_introl eq_refl)).
      replace (a * (w - 1) + b * 0 + k) with (a * (w - 1) + k) in Hc by ring. exact Hc.
    - specialize (Hc 0 (h - 1) (or_introl eq_refl) (or_intror eq_refl)).
      replace (a * 0 + b * (h - 1) + k) with (b * (h - 1) + k) in Hc by ring. exact Hc.
    - exact (Hc (w - 1) (h - 1) (or_intror eq_refl) (or_intror eq_refl)). }
  apply Rmax_lub.
  - replace ((x - cx) * c + (y - cy) * s) with (c * x + s * y + (- cx * c - cy * s)) by ring.
    apply Hside; [assumption|]. intros u v Hu Hv.
    eapply Rle_trans; [|apply (Hcorner u v Hu Hv)].
    replace (c * u + s * v + (- cx * c - cy * s)) with ((u - cx) * c + (v - cy) * s) by ring.
    apply Rmax_l.
  - replace (- (x - cx) * s + (y - cy) * c) with (- s * x + c * y + (cx * s - cy * c)) by ring.
    apply Hside; [assumption|]. intros u v Hu Hv.
    eapply Rle_trans; [|apply (Hcorner u v Hu Hv)].
    replace (- s * u + c * v + (cx * s - cy * c)) with (- (u - cx) * s + (v - cy) * c) by ring.
    apply Rmax_r.
Qed.

Lemma squares_within (w h : nat) (rX rY t ox oy : R) (x y : nat) :
  0 < rX -> 0 < rY -> (x < w)%nat -> (y < h)%nat ->
  exists d M,
    squares_distance (of_nat w) (of_nat h) (Fin rX) (Fin rY) (Fin t) (Fin ox) (Fin oy)
      (of_nat x) (of_nat y) = Fin d
    /\ squares_maxDistance (of_nat w) (of_nat h) (Fin rX) (Fin rY) (Fin t) (Fin ox)
         (Fin oy) = Fin M
    /\ 0 < d <= M.
Proof.
  intros HX HY Hx Hy. unfold of_nat.
  destruct (squares_distance_pos (INR w) (INR h) rX rY t ox oy (INR x) (INR y) HX HY)
    as (d & Hd & Hpos).
  rewrite squares_maxDistance_fin by assumption. rewrite Hd.
  do 2 eexists. split; [reflexivity|]. split; [reflexivity|]. split; [exact Hpos|].
  rewrite squares_distance_fin in Hd by assumption. injection Hd as <-.
  apply Rsquares_distance_bound; try assumption.
  - split; [apply pos_INR|]. apply Nat.le_succ_l, le_INR in Hx. rewrite S_INR in Hx. lra.
  - split; [apply pos_INR|]. apply Nat.le_succ_l, le_INR in Hy. rewrite S_INR in Hy. lra.
Qed.

(** X19: no cell of the squares is farther from the center than the corners: the
    distance of every cell of the grid is at most [maxDistance], the largest
    distance of the four corners. *)
Theorem squares_within_maxDistance (w h : nat) (rX rY t ox oy : R) (x y : nat) :
  0 < rX -> 0 < rY -> (x < w)%nat -> (y < h)%nat ->
  exists d M,
    squares_distance (of_nat w) (of_nat h) (Fin rX) (Fin rY) (Fin t) (Fin ox) (Fin oy)
      (of_nat x) (of_nat y) = Fin d
    /\ squares_maxDistance (of_nat w) (of_nat h) (Fin rX) (Fin rY) (Fin t) (Fin ox)
         (Fin oy) = Fin M
    /\ 0 < d <= M.
Proof.
  apply squares_within.
Qed.

Lemma squares_within_maxDistance_witness :
  exists d M,
    squares_distance (of_nat 3) (of_nat 3) (Fin 1) (Fin 1) (Fin 0) (Fin 0) (Fin 0)
      (of_nat 1) (of_nat 2) = Fin d
    /\ squares_maxDistance (of_nat 3) (of_nat 3) (Fin 1) (Fin 1) (Fin 0) (Fin 0)
         (Fin 0) = Fin M
    /\ 0 < d <= M.
Proof.
  refine (squares_within_maxDistance 3 3 1 1 0 0 0 1 2 _ _ _ _).
  - lra.
  - lra.
  - lia.
  - lia.
Defined.

(** ** Levels and distances *)









(** ** Stripes, polygons, cubes, symmetry *)



(** X24: a number of sides of at most 3 is taken for 3: the polygons generator
    returns what it returns for three sides. *)
Theorem polygons_sides_clamped (s : R) width height numLayers colors ratioX ratioY
  layerThickness tilt offsetX offsetY :
  s <= 3 ->
  generateConcentricPolygons width height (Fin s) numLayers colors ratioX ratioY
    layerThickness tilt offsetX offsetY
  = generateConcentricPolygons width height (Fin 3) numLayers colors ratioX ratioY
      layerThickness tilt offsetX offsetY.
Proof.
  intros Hs.
  unfold generateConcentricPolygons, polygons_cell, polygons_distance,
    polygons_maxDistance, polygon_metric. cbv zeta.
  rewrite !max_fin. rewrite (Rmax_left 3 s), (Rmax_left 3 3) by lra. reflexivity.
Qed.

Lemma polygons_sides_clamped_witness :
  generateConcentricPolygons (Fin 3) (Fin 3) (Fin 2) (Fin 2) ["red"; "blue"]%string
    (Fin 1) (Fin 1) None (Fin 0) (Fin 0) (Fin 0)
  = generateConcentricPolygons (Fin 3) (Fin 3) (Fin 3) (Fin 2) ["red"; "blue"]%string
      (Fin 1) (Fin 1) None (Fin 0) (Fin 0) (Fin 0).
Proof.
  refine (polygons_sides_clamped 2 (Fin 3) (Fin 3) (Fin 2) ["red"; "blue"]%string
            (Fin 1) (Fin 1) None (Fin 0) (Fin 0) (Fin 0) _).
  lra.
Defined.

(** X25: a cube size of at most 2 is taken for 2: the cubes generator returns the
    grid it returns for the size 2. *)
Theorem cubes_size_clamped (s : R) width height colors offsetX offsetY :
  s <= 2 ->
  grid_of (generateIsometricCubes width height (Fin s) colors offsetX offsetY)
  = grid_of (generateIsometricCubes width height (Fin 2) colors offsetX offsetY).
Proof.
  intros Hs.
  assert (forall x y,
            cubes_cell width height (Fin s) colors offsetX offsetY x y
            = cubes_cell width height (Fin 2) colors offsetX offsetY x y) as Hcell.
  { intros x y. unfold cubes_cell, cubes_face, cubes_hex. cbv zeta.
    rewrite !max_fin. rewrite (Rmax_left 2 s), (Rmax_left 2 2) by lra. reflexivity. }
  unfold generateIsometricCubes.
  destruct (new_grid height width) as [[[h w] g]|]; cbn [bind grid_of Pattern.grid];
    [|reflexivity].
  f_equal. apply fill_ext. intros x y. apply Hcell.
Qed.

Lemma cubes_size_clamped_witness :
  grid_of (generateIsometricCubes (Fin 3) (Fin 3) (Fin 1) ["red"; "blue"]%string
             (Fin 0) (Fin 0))
  = grid_of (generateIsometricCubes (Fin 3) (Fin 3) (Fin 2) ["red"; "blue"]%string
               (Fin 0) (Fin 0)).
Proof.
  refine (cubes_size_clamped 1 (Fin 3) (Fin 3) ["red"; "blue"]%string (Fin 0) (Fin 0) _).
  lra.
Defined.

Lemma INR_mirror (w x : nat) : (x < w)%nat -> INR (w - 1 - x) = INR w - 1 - INR x.
Proof.
  intros Hx. rewrite !minus_INR by lia. reflexivity.
Qed.

Lemma squares_distance_mirror (w h : nat) ratioX ratioY (t : R) (x y : nat) :
  (x < w)%nat -> (y < h)%nat ->
  squares_distance (of_nat w) (of_nat h) ratioX ratioY (Fin t) (Fin 0) (Fin 0)
    (of_nat (w - 1 - x)) (of_nat (h - 1 - y))
  = squares_distance (of_nat w) (of_nat h) ratioX ratioY (Fin t) (Fin 0) (Fin 0)
      (of_nat x) (of_nat y).
Proof.
  intros Hx Hy. unfold squares_distance, of_nat. cbv zeta.
  rewrite !INR_mirror by assumption. fin_eval.
  f_equal; f_equal; f_equal; f_equal;
    rewrite <- Rabs_Ropp; f_equal; lra.
Qed.

(** X26: without offsets the squares are symmetric about the center of the grid,
    whatever the tilt, the ratios and the sizing: the grid that is returned
    holds the same cell at a position and at the position opposite to it. *)
Theorem squares_point_symmetric (w h : nat) numSquares colors ratioX ratioY
  layerThickness (t : R) :
  valid_dim w -> valid_dim h ->
  exists p,
    generateConcentricSquares (of_nat w) (of_nat h) numSquares colors ratioX ratioY
      layerThickness (Fin t) (Fin 0) (Fin 0) = Ok p
    /\ forall x y, (x < w)%nat -> (y < h)%nat ->
         grid_at (Pattern.grid p) (w - 1 - x) (h - 1 - y)
         = grid_at (Pattern.grid p) x y.
Proof.
  intros Hw Hh.
  destruct (generateConcentricSquares_valid h w numSquares colors ratioX ratioY
              layerThickness (Fin t) (Fin 0) (Fin 0) Hh Hw) as (p & Hp & Hg).
  exists p. split; [exact Hp|]. intros x y Hx Hy.
  rewrite Hg, !grid_at_full by lia. f_equal.
  unfold squares_cell. cbv zeta. now rewrite squares_distance_mirror.
Qed.

Lemma squares_point_symmetric_witness :
  exists p,
    generateConcentricSquares (of_nat 1) (of_nat 1) (Fin 2) ["red"; "blue"]%string
      (Fin 1) (Fin 1) None (Fin 30) (Fin 0) (Fin 0) = Ok p
    /\ forall x y, (x < 1)%nat -> (y < 1)%nat ->
         grid_at (Pattern.grid p) (1 - 1 - x) (1 - 1 - y)
         = grid_at (Pattern.grid p) x y.
Proof.
  exact (squares_point_symmetric 1 1 (Fin 2) ["red"; "blue"]%string (Fin 1) (Fin 1)
           None 30 valid_dim_1 valid_dim_1).
Defined.
